(** * gbi-match-maker: the profile / relationship store and its matching logic

    A shallow embedding of [data_store.py] (and of the variant filter of
    [data_store_new.py] and the target-university step of [handlers.py]),
    followed by the properties of the store that the specification states.
    The embedding then goes on to [get_secret_crushes], to further steps of
    the registration conversation and of the edit menu of [handlers.py] and
    to [check_if_registered] of [utils.py], and the properties to what the
    code shows beyond the specification: round trips through memory and
    through the database, what survives a restart, and what the write
    operations keep invariant.

    Conventions of the embedding.
    - The module-level dictionaries of [data_store.py] are the fields of one
      record, [store], that every operation threads through.
    - A profile is a Python [dict] whose keys are a fixed set of names; it is
      a record with one optional field per key ([None] = key absent).
    - The relational database is a record of tables, each a list of rows in
      insertion order.  [db] is the committed (durable) content, [session]
      the working copy of the SQLAlchemy session: statements act on
      [session], [commit] copies it to [db], leaving the application context
      discards what was not committed.
    - Every call on the session (query, add, flush, delete, update, commit)
      and the entry into the application context may raise.  Which ones do
      is decided by an oracle [faults : nat -> bool] over the running count
      [clock] of such calls, so that a statement quantified over [faults]
      covers every pattern of durable-store failure.
    - Logging is not modelled. *)

From stdpp Require Import base option list gmap sets strings.
From Stdlib Require Import ZArith Lia.

Open Scope Z_scope.
Open Scope string_scope.

(** ** Python values used by the store *)

(** Outcome of running a piece of Python code: a value, or an exception
    ([Exception] subclasses only; nothing else is raised by the code). *)
Inductive result (A : Type) : Type :=
  | Ok (a : A)
  | Raised.
Arguments Ok {A} a.
Arguments Raised {A}.

(** A user profile: the dictionary stored in [user_profiles]. *)
Record profile : Type := mkProfile {
  p_telegram_id : option Z;
  p_username : option string;
  p_name : option string;
  p_age : option Z;
  p_gender : option string;
  p_university : option string;
  p_bio : option string;
  p_hobbies : option string;
  p_relationship_preference : option string;
  p_profile_pic_url : option string;
  p_profile_pic : option string;
  p_profile_complete : option bool;
  p_target_universities : option (list string)
}.

(** The empty dictionary [{}]. *)
Definition empty_profile : profile :=
  mkProfile None None None None None None None None None None None None None.

(** Truth value of a dictionary: [not profile_data] holds of [{}] only. *)
Definition dict_is_empty (p : profile) : bool :=
  match p with
  | mkProfile None None None None None None None None None None None None None => true
  | _ => false
  end.

(** [profile.get("profile_complete")] as a truth value. *)
Definition is_complete (p : profile) : bool := default false (p_profile_complete p).

(** [profile.get("target_universities", [])]. *)
Definition get_targets (p : profile) : list string := default [] (p_target_universities p).

(** [x == "lit"] for [x = profile.get(key)], which is [None] or a string. *)
Definition py_eq (x : option string) (lit : string) : bool := bool_decide (x = Some lit).

(** [x in l] for [x = profile.get(key)] and [l] a list of strings. *)
Definition py_in (x : option string) (l : list string) : bool :=
  match x with
  | Some u => bool_decide (u ∈ l)
  | None => false
  end.

Definition set_target_universities (v : list string) (p : profile) : profile :=
  mkProfile (p_telegram_id p) (p_username p) (p_name p) (p_age p) (p_gender p)
    (p_university p) (p_bio p) (p_hobbies p) (p_relationship_preference p)
    (p_profile_pic_url p) (p_profile_pic p) (p_profile_complete p) (Some v).

(** A chat message as kept in [chats]. *)
Record chat_msg : Type := mkChatMsg {
  cm_sender_id : Z;
  cm_timestamp : Z;
  cm_text : string
}.

(** ** The relational tables of [models.py] *)

Record User : Type := mkUser {
  u_id : Z;
  u_telegram_id : Z;
  u_name : string;
  u_age : Z;
  u_gender : string;
  u_university : string;
  u_bio : string;
  u_hobbies : string;
  u_relationship_preference : string;
  u_profile_pic_url : string;
  u_profile_pic : string
}.

Record TargetUniversity : Type := mkTargetUniversity {
  tu_user_id : Z;
  tu_university_name : string
}.

Record Like : Type := mkLike {
  l_id : Z;
  l_sender_id : Z;
  l_receiver_id : Z;
  l_is_match : bool
}.

Record SecretCrush : Type := mkSecretCrush {
  sc_id : Z;
  sc_crusher_id : Z;
  sc_crushee_id : option Z;
  sc_crush_name : option string;
  sc_social_media_account : option string;
  sc_crush_photo : option string;
  sc_is_mutual : bool
}.

Record Block : Type := mkBlock {
  b_blocker_id : Z;
  b_blocked_id : Z
}.

Record Report : Type := mkReport {
  r_reporter_id : Z;
  r_reported_id : Z;
  r_reason : option string
}.

Record Message : Type := mkMessage {
  m_sender_id : Z;
  m_receiver_id : Z;
  m_text : string;
  m_is_read : bool
}.

Record database : Type := mkDatabase {
  t_users : list User;
  t_target_universities : list TargetUniversity;
  t_likes : list Like;
  t_secret_crushes : list SecretCrush;
  t_blocks : list Block;
  t_reports : list Report;
  t_messages : list Message
}.

Definition empty_db : database := mkDatabase [] [] [] [] [] [] [].

Definition with_users (f : list User → list User) (d : database) : database :=
  mkDatabase (f (t_users d)) (t_target_universities d) (t_likes d)
    (t_secret_crushes d) (t_blocks d) (t_reports d) (t_messages d).
Definition with_target_universities
    (f : list TargetUniversity → list TargetUniversity) (d : database) : database :=
  mkDatabase (t_users d) (f (t_target_universities d)) (t_likes d)
    (t_secret_crushes d) (t_blocks d) (t_reports d) (t_messages d).
Definition with_likes (f : list Like → list Like) (d : database) : database :=
  mkDatabase (t_users d) (t_target_universities d) (f (t_likes d))
    (t_secret_crushes d) (t_blocks d) (t_reports d) (t_messages d).
Definition with_secret_crushes
    (f : list SecretCrush → list SecretCrush) (d : database) : database :=
  mkDatabase (t_users d) (t_target_universities d) (t_likes d)
    (f (t_secret_crushes d)) (t_blocks d) (t_reports d) (t_messages d).
Definition with_blocks (f : list Block → list Block) (d : database) : database :=
  mkDatabase (t_users d) (t_target_universities d) (t_likes d)
    (t_secret_crushes d) (f (t_blocks d)) (t_reports d) (t_messages d).
Definition with_reports (f : list Report → list Report) (d : database) : database :=
  mkDatabase (t_users d) (t_target_universities d) (t_likes d)
    (t_secret_crushes d) (t_blocks d) (f (t_reports d)) (t_messages d).
Definition with_messages (f : list Message → list Message) (d : database) : database :=
  mkDatabase (t_users d) (t_target_universities d) (t_likes d)
    (t_secret_crushes d) (t_blocks d) (t_reports d) (f (t_messages d)).

(** An auto-increment primary key: larger than every key in use. *)
Definition fresh_id (ids : list Z) : Z := 1 + foldr Z.max 0 ids.

(** [query(User).filter_by(telegram_id=tid).first()] *)
Definition user_by_telegram_id (tid : Z) (d : database) : option User :=
  find (λ u, bool_decide (u_telegram_id u = tid)) (t_users d).

(** [query(User).filter_by(id=i).first()] *)
Definition user_by_id (i : Z) (d : database) : option User :=
  find (λ u, bool_decide (u_id u = i)) (t_users d).

(** [query(Like).filter_by(sender_id=s, receiver_id=r).first()] *)
Definition like_by_pair (s r : Z) (d : database) : option Like :=
  find (λ l, bool_decide (l_sender_id l = s) && bool_decide (l_receiver_id l = r))
       (t_likes d).

(** [query(SecretCrush).filter_by(crusher_id=c, crushee_id=e).first()] *)
Definition crush_by_pair (c e : Z) (d : database) : option SecretCrush :=
  find (λ x, bool_decide (sc_crusher_id x = c) && bool_decide (sc_crushee_id x = Some e))
       (t_secret_crushes d).

(** [query(Block).filter_by(blocker_id=a, blocked_id=b).first()] *)
Definition block_by_pair (a b : Z) (d : database) : option Block :=
  find (λ x, bool_decide (b_blocker_id x = a) && bool_decide (b_blocked_id x = b))
       (t_blocks d).

(** [db_user.target_universities]: the rows related to the user. *)
Definition target_rows_of (uid : Z) (d : database) : list string :=
  tu_university_name <$> filter (λ t, tu_user_id t = uid) (t_target_universities d).

(** Assigning [is_match] on the ORM object of the row with key [k]. *)
Definition like_set_is_match (k : Z) (v : bool) (d : database) : database :=
  with_likes (fmap (λ l, if bool_decide (l_id l = k)
                         then mkLike (l_id l) (l_sender_id l) (l_receiver_id l) v
                         else l)) d.

(** Assigning [is_mutual] on the ORM object of the row with key [k]. *)
Definition crush_set_is_mutual (k : Z) (v : bool) (d : database) : database :=
  with_secret_crushes
    (fmap (λ x, if bool_decide (sc_id x = k)
                then mkSecretCrush (sc_id x) (sc_crusher_id x) (sc_crushee_id x)
                       (sc_crush_name x) (sc_social_media_account x) (sc_crush_photo x) v
                else x)) d.

(** The bulk statement shared by block and unmatch:
    [query(Like).filter(((sender == a) & (receiver == b)) |
                        ((sender == b) & (receiver == a))).update({"is_match": False})] *)
Definition between (a b : Z) (l : Like) : bool :=
  (bool_decide (l_sender_id l = a) && bool_decide (l_receiver_id l = b))
  || (bool_decide (l_sender_id l = b) && bool_decide (l_receiver_id l = a)).

Definition clear_match_between (a b : Z) (d : database) : database :=
  with_likes (fmap (λ l, if between a b l
                         then mkLike (l_id l) (l_sender_id l) (l_receiver_id l) false
                         else l)) d.

(** ** The store: module-level state of [data_store.py] plus the database *)

Record store : Type := mkStore {
  user_profiles : gmap Z profile;
  matches : gmap Z (gset Z);
  likes : gmap Z (gset Z);
  blocks : gmap Z (gset Z);
  reports : gmap Z (list Z);
  secret_crushes : gmap Z (gset Z);
  chats : gmap (Z * Z) (list chat_msg);
  db : database;
  session : database;
  clock : nat
}.

Definition empty_store : store :=
  mkStore ∅ ∅ ∅ ∅ ∅ ∅ ∅ empty_db empty_db 0.

Definition set_user_profiles (f : gmap Z profile → gmap Z profile) (s : store) : store :=
  mkStore (f (user_profiles s)) (matches s) (likes s) (blocks s) (reports s)
    (secret_crushes s) (chats s) (db s) (session s) (clock s).
Definition set_matches (f : gmap Z (gset Z) → gmap Z (gset Z)) (s : store) : store :=
  mkStore (user_profiles s) (f (matches s)) (likes s) (blocks s) (reports s)
    (secret_crushes s) (chats s) (db s) (session s) (clock s).
Definition set_likes (f : gmap Z (gset Z) → gmap Z (gset Z)) (s : store) : store :=
  mkStore (user_profiles s) (matches s) (f (likes s)) (blocks s) (reports s)
    (secret_crushes s) (chats s) (db s) (session s) (clock s).
Definition set_blocks (f : gmap Z (gset Z) → gmap Z (gset Z)) (s : store) : store :=
  mkStore (user_profiles s) (matches s) (likes s) (f (blocks s)) (reports s)
    (secret_crushes s) (chats s) (db s) (session s) (clock s).
Definition set_reports (f : gmap Z (list Z) → gmap Z (list Z)) (s : store) : store :=
  mkStore (user_profiles s) (matches s) (likes s) (blocks s) (f (reports s))
    (secret_crushes s) (chats s) (db s) (session s) (clock s).
Definition set_secret_crushes (f : gmap Z (gset Z) → gmap Z (gset Z)) (s : store) : store :=
  mkStore (user_profiles s) (matches s) (likes s) (blocks s) (reports s)
    (f (secret_crushes s)) (chats s) (db s) (session s) (clock s).
Definition set_chats
    (f : gmap (Z * Z) (list chat_msg) → gmap (Z * Z) (list chat_msg)) (s : store) : store :=
  mkStore (user_profiles s) (matches s) (likes s) (blocks s) (reports s)
    (secret_crushes s) (f (chats s)) (db s) (session s) (clock s).
Definition set_db (d : database) (s : store) : store :=
  mkStore (user_profiles s) (matches s) (likes s) (blocks s) (reports s)
    (secret_crushes s) (chats s) d (session s) (clock s).
Definition set_session (f : database → database) (s : store) : store :=
  mkStore (user_profiles s) (matches s) (likes s) (blocks s) (reports s)
    (secret_crushes s) (chats s) (db s) (f (session s)) (clock s).
Definition set_clock (n : nat) (s : store) : store :=
  mkStore (user_profiles s) (matches s) (likes s) (blocks s) (reports s)
    (secret_crushes s) (chats s) (db s) (session s) n.

(** *** Dictionaries of sets *)

(** [if k not in d: d[k] = set()] *)
Definition ensure_key (k : Z) (d : gmap Z (gset Z)) : gmap Z (gset Z) :=
  match d !! k with
  | Some _ => d
  | None => <[k := ∅]> d
  end.

(** [d[k].add(v)], for a key that is present. *)
Definition set_add (k v : Z) (d : gmap Z (gset Z)) : gmap Z (gset Z) :=
  alter (λ vs, vs ∪ {[v]}) k d.

(** [d[k].remove(v)], for a key that is present. *)
Definition set_remove (k v : Z) (d : gmap Z (gset Z)) : gmap Z (gset Z) :=
  alter (λ vs, vs ∖ {[v]}) k d.

(** [d.get(k, set())] *)
Definition set_of (d : gmap Z (gset Z)) (k : Z) : gset Z := default ∅ (d !! k).

(** [k in d and v in d[k]] *)
Definition in_set_of (d : gmap Z (gset Z)) (k v : Z) : bool :=
  match d !! k with
  | Some vs => bool_decide (v ∈ vs)
  | None => false
  end.

(** ** The monad of store operations *)

Definition M (A : Type) : Type := (nat → bool) → store → result A * store.

Definition ret {A} (a : A) : M A := λ _ s, (Ok a, s).

Definition bind {A B} (m : M A) (k : A → M B) : M B :=
  λ faults s,
    match m faults s with
    | (Ok a, s') => k a faults s'
    | (Raised, s') => (Raised, s')
    end.

Notation "'let!' x ':=' m 'in' k" := (bind m (λ x, k))
  (at level 10, x pattern, m at level 100, k at level 200).
Notation "m1 ';;;' m2" := (bind m1 (λ _, m2))
  (at level 100, m2 at level 200, right associativity).

Definition raise {A} : M A := λ _ s, (Raised, s).

(** [try: body  except Exception: <log>], yielding [fallback] when caught. *)
Definition try_except {A} (body : M A) (fallback : A) : M A :=
  λ faults s,
    match body faults s with
    | (Ok a, s') => (Ok a, s')
    | (Raised, s') => (Ok fallback, s')
    end.

Definition get_store : M store := λ _ s, (Ok s, s).
Definition modify (f : store → store) : M unit := λ _ s, (Ok tt, f s).

(** One interaction with the durable store; it raises when the oracle says so. *)
Definition db_step : M unit :=
  λ faults s,
    let s' := set_clock (S (clock s)) s in
    if faults (clock s) then (Raised, s') else (Ok tt, s').

(** A query: runs against the session's view. *)
Definition query {A} (q : database → A) : M A :=
  db_step ;;; let! s := get_store in ret (q (session s)).

(** A statement that changes rows ([add], [flush], [delete], [update]). *)
Definition statement (f : database → database) : M unit :=
  db_step ;;; modify (set_session f).

(** An attribute assignment on a loaded ORM object: pending in the session,
    no interaction with the database. *)
Definition assign (f : database → database) : M unit := modify (set_session f).

(** [db.session.commit()] *)
Definition commit : M unit :=
  db_step ;;; modify (λ s, set_db (session s) s).

(** [from app import db, app] followed by [with app.app_context(): body].
    The session starts from the committed content and whatever it has not
    committed is discarded when the context is left, normally or not. *)
Definition with_app_context {A} (body : M A) : M A :=
  db_step ;;;
  λ faults s,
    let '(r, s') := body faults (set_session (λ _, db s) s) in
    (r, set_session (λ _, db s') s').

(** [for x in l: f x] *)
Definition for_each {A} (l : list A) (f : A → M unit) : M unit :=
  foldr (λ x k, f x ;;; k) (ret tt) l.

(** ** [random.shuffle]

    The standard library's in-place Fisher-Yates shuffle,
    [for i in reversed(range(1, len(x))): j = randbelow(i + 1);
     x[i], x[j] = x[j], x[i]], with the draw made at position [i] read from
    the random source [rnd]. *)

Definition swap {A} (i j : nat) (l : list A) : list A :=
  match l !! i, l !! j with
  | Some xi, Some xj => <[j := xi]> (<[i := xj]> l)
  | _, _ => l
  end.

Fixpoint shuffle_down {A} (rnd : nat → nat) (i : nat) (l : list A) : list A :=
  match i with
  | O => l
  | S i' => shuffle_down rnd i' (swap i (rnd i mod (i + 1))%nat l)
  end.

Definition shuffle {A} (rnd : nat → nat) (l : list A) : list A :=
  shuffle_down rnd (length l - 1)%nat l.

(** ** [data_store.py] *)

(** The dictionary built from a [users] row and its target universities;
    a profile that comes from the database counts as complete. *)
Definition profile_of_user (u : User) (targets : list string) : profile :=
  mkProfile None (Some "") (Some (u_name u)) (Some (u_age u)) (Some (u_gender u))
    (Some (u_university u)) (Some (u_bio u)) (Some (u_hobbies u))
    (Some (u_relationship_preference u)) (Some (u_profile_pic_url u))
    (Some (u_profile_pic u)) (Some true) (Some targets).

(** [get_user_profile]: memory first; on a miss the profile is read from the
    database and cached.  The local [profile] is already bound to the
    dictionary (with no target universities yet) when the relationship
    [db_user.target_universities] is loaded, so a failure of that load makes
    the function return the uncached dictionary: this is the inner
    [try_except], whose exception the source handles in the same [except]
    clause as the outer one. *)
Definition get_user_profile (user_id : Z) : M (option profile) :=
  let! s := get_store in
  match user_profiles s !! user_id with
  | Some p => ret (Some p)
  | None =>
      try_except
        (with_app_context
           (let! db_user := query (user_by_telegram_id user_id) in
            match db_user with
            | Some u =>
                try_except
                  (let! targets := query (target_rows_of (u_id u)) in
                   let p := profile_of_user u targets in
                   modify (set_user_profiles <[user_id := p]>) ;;;
                   ret (Some p))
                  (Some (profile_of_user u []))
            | None => ret None
            end))
        None
  end.

(** The [User(...)] row that [save_user_profile] creates. *)
Definition new_user_row (k user_id : Z) (p : profile) : User :=
  mkUser k user_id (default "" (p_name p)) (default 18 (p_age p))
    (default "" (p_gender p)) (default "" (p_university p)) (default "" (p_bio p))
    (default "" (p_hobbies p)) (default "" (p_relationship_preference p))
    (default "" (p_profile_pic_url p)) (default "" (p_profile_pic p)).

(** The attribute assignments that [save_user_profile] makes on an existing row. *)
Definition updated_user_row (u : User) (p : profile) : User :=
  mkUser (u_id u) (u_telegram_id u) (default (u_name u) (p_name p))
    (default (u_age u) (p_age p)) (default (u_gender u) (p_gender p))
    (default (u_university u) (p_university p)) (default (u_bio u) (p_bio p))
    (default (u_hobbies u) (p_hobbies p))
    (default (u_relationship_preference u) (p_relationship_preference p))
    (default (u_profile_pic_url u) (p_profile_pic_url p))
    (default (u_profile_pic u) (p_profile_pic p)).

Definition add_target_rows (k : Z) (unis : list string) : M unit :=
  for_each unis (λ uni,
    statement (with_target_universities (λ t, (t ++ [mkTargetUniversity k uni])%list))).

Definition save_user_profile (user_id : Z) (profile_data : profile) : M unit :=
  modify (set_user_profiles <[user_id := profile_data]>) ;;;
  if dict_is_empty profile_data then ret tt
  else
    try_except
      (with_app_context
         (let! db_user := query (user_by_telegram_id user_id) in
          match db_user with
          | None =>
              let! s := get_store in
              let k := fresh_id (u_id <$> t_users (session s)) in
              statement (with_users (λ t, (t ++ [new_user_row k user_id profile_data])%list)) ;;;
              db_step ;;;
              match p_target_universities profile_data with
              | Some target_unis => add_target_rows k target_unis
              | None => ret tt
              end
          | Some u =>
              assign (with_users (fmap (λ r, if bool_decide (u_id r = u_id u)
                                            then updated_user_row r profile_data
                                            else r))) ;;;
              match p_target_universities profile_data with
              | Some target_unis =>
                  statement (with_target_universities
                               (filter (λ t, tu_user_id t ≠ u_id u))) ;;;
                  add_target_rows (u_id u) target_unis
              | None => ret tt
              end
          end ;;;
          commit))
      tt.

(** [get_matches] *)
Definition get_matches (user_id : Z) : M (list Z) :=
  let! s := get_store in ret (elements (set_of (matches s) user_id)).

(** The two-sided insertion into [matches] used by [save_match] and by the
    decision processor. *)
Definition add_match (user_id match_id : Z) (m : gmap Z (gset Z)) : gmap Z (gset Z) :=
  set_add match_id user_id
    (set_add user_id match_id (ensure_key match_id (ensure_key user_id m))).

Definition save_match (user_id match_id : Z) : M unit :=
  modify (set_matches (add_match user_id match_id)).

(** The exclusion set of [get_potential_matches]. *)
Definition blocked_by (user_id : Z) (bl : gmap Z (gset Z)) : gset Z :=
  dom (filter (λ kv, user_id ∈ kv.2) bl).

Definition excluded_users (user_id : Z) (s : store) : gset Z :=
  set_of (likes s) user_id ∪ set_of (blocks s) user_id
    ∪ blocked_by user_id (blocks s) ∪ set_of (matches s) user_id.

(** The gender test that makes the loop [continue]. *)
Definition gender_rejects (user_gender other_gender : option string) : bool :=
  (py_eq user_gender "male" && negb (py_eq other_gender "female"))
  || (py_eq user_gender "female" && negb (py_eq other_gender "male")).

(** ["All" in targets or university in targets] *)
Definition university_accepts (targets : list string) (university : option string) : bool :=
  bool_decide ("All" ∈ targets) || py_in university targets.

(** The body of the scan of [data_store.get_potential_matches]: does the
    entry [(other_id, other_profile)] get appended? *)
Definition is_potential_match (user_id : Z) (user_profile : profile) (excluded : gset Z)
    (entry : Z * profile) : bool :=
  let '(other_id, other_profile) := entry in
  if bool_decide (other_id = user_id) || negb (is_complete other_profile)
     || bool_decide (other_id ∈ excluded)
  then false
  else if gender_rejects (p_gender user_profile) (p_gender other_profile) then false
  else university_accepts (get_targets user_profile) (p_university other_profile).

(** [get_potential_matches].  The scan visits the entries of
    [user_profiles] in the order [map_to_list] gives them (the insertion
    order of the Python dictionary is not kept by the finite map); the list
    is shuffled before it is returned. *)
Definition get_potential_matches (rnd : nat → nat) (user_id : Z) : M (list Z) :=
  let! user_profile := get_user_profile user_id in
  match user_profile with
  | None => ret []
  | Some up =>
      if dict_is_empty up || negb (is_complete up) then ret []
      else
        let! s := get_store in
        let excluded := excluded_users user_id s in
        let potential_matches :=
          (filter (λ e, is_potential_match user_id up excluded e = true)
                  (map_to_list (user_profiles s))).*1 in
        ret (shuffle rnd potential_matches)
  end.

(** [process_match_decision].  The inner value is [Some "match"] when the
    [try] block leaves the function through its [return "match"]. *)
Definition process_match_decision (user_id other_id : Z) (is_like : bool) : M string :=
  if negb is_like then ret "passed"
  else
    modify (set_likes (λ l, set_add user_id other_id (ensure_key user_id l))) ;;;
    let! returned :=
      try_except
        (with_app_context
           (let! sender := query (user_by_telegram_id user_id) in
            let! receiver := query (user_by_telegram_id other_id) in
            match sender, receiver with
            | Some sender, Some receiver =>
                let! existing_like := query (like_by_pair (u_id sender) (u_id receiver)) in
                let! returned :=
                  match existing_like with
                  | None =>
                      let! s := get_store in
                      let k := fresh_id (l_id <$> t_likes (session s)) in
                      statement (with_likes
                                   (λ t, (t ++ [mkLike k (u_id sender) (u_id receiver) false])%list)) ;;;
                      let! reverse_like :=
                        query (like_by_pair (u_id receiver) (u_id sender)) in
                      match reverse_like with
                      | Some rl =>
                          assign (like_set_is_match k true) ;;;
                          assign (like_set_is_match (l_id rl) true) ;;;
                          modify (set_matches (add_match user_id other_id)) ;;;
                          commit ;;;
                          ret (Some "match")
                      | None => ret None
                      end
                  | Some _ => ret None
                  end in
                match returned with
                | Some v => ret (Some v)
                | None => commit ;;; ret None
                end
            | _, _ => ret None
            end))
        None in
    match returned with
    | Some v => ret v
    | None =>
        let! s := get_store in
        if in_set_of (likes s) other_id user_id then
          modify (set_matches (add_match user_id other_id)) ;;;
          ret "match"
        else ret "liked"
    end.

(** [add_secret_crush].  [crush_id = None] is the external branch. *)
Definition add_secret_crush (user_id : Z) (crush_id : option Z) (crush_name : option string)
    (social_media_account crush_photo : option string) : M string :=
  match crush_id with
  | Some crush_id =>
      modify (set_secret_crushes (ensure_key user_id)) ;;;
      let! s := get_store in
      if in_set_of (secret_crushes s) user_id crush_id then ret "already_added"
      else
        modify (set_secret_crushes (set_add user_id crush_id)) ;;;
        try_except
          (with_app_context
             (let! crusher := query (user_by_telegram_id user_id) in
              let! crushee := query (user_by_telegram_id crush_id) in
              match crusher, crushee with
              | Some crusher, Some crushee =>
                  let! existing_crush :=
                    query (crush_by_pair (u_id crusher) (u_id crushee)) in
                  match existing_crush with
                  | None =>
                      let! mutual_crush :=
                        query (crush_by_pair (u_id crushee) (u_id crusher)) in
                      let! s := get_store in
                      let k := fresh_id (sc_id <$> t_secret_crushes (session s)) in
                      statement (with_secret_crushes
                        (λ t, (t ++ [mkSecretCrush k (u_id crusher) (Some (u_id crushee))
                                       None None None (bool_decide (is_Some mutual_crush))])%list)) ;;;
                      match mutual_crush with
                      | Some mc => assign (crush_set_is_mutual (sc_id mc) true)
                      | None => ret tt
                      end
                  | Some _ => ret tt
                  end ;;;
                  commit
              | _, _ => ret tt
              end))
          tt ;;;
        ret "added"
  | None =>
      if bool_decide (crush_name = None ∨ crush_name = Some "") then ret "error"
      else
        try_except
          (with_app_context
             (let! crusher := query (user_by_telegram_id user_id) in
              match crusher with
              | Some crusher =>
                  let! s := get_store in
                  let k := fresh_id (sc_id <$> t_secret_crushes (session s)) in
                  statement (with_secret_crushes
                    (λ t, (t ++ [mkSecretCrush k (u_id crusher) None crush_name
                                   social_media_account crush_photo false])%list)) ;;;
                  commit
              | None => ret tt
              end))
          tt ;;;
        ret "added_external"
  end.

(** [check_mutual_crush] *)
Definition check_mutual_crush (user_id crush_id : Z) : M bool :=
  let! s := get_store in
  let mutual_in_memory :=
    bool_decide (crush_id ∈ set_of (secret_crushes s) user_id)
    && bool_decide (user_id ∈ set_of (secret_crushes s) crush_id) in
  if mutual_in_memory then ret true
  else
    let! found :=
      try_except
        (with_app_context
           (let! user1 := query (user_by_telegram_id user_id) in
            let! user2 := query (user_by_telegram_id crush_id) in
            match user1, user2 with
            | Some user1, Some user2 =>
                let! crush1 := query (crush_by_pair (u_id user1) (u_id user2)) in
                let! crush2 := query (crush_by_pair (u_id user2) (u_id user1)) in
                ret (Some (bool_decide (is_Some crush1) && bool_decide (is_Some crush2)))
            | _, _ => ret None
            end))
        None in
    match found with
    | Some b => ret b
    | None => ret mutual_in_memory
    end.

(** [add_chat_message]; [now] is the value of [time.time()]. *)
Definition add_chat_message (now : Z) (sender_id recipient_id : Z) (text : string) : M unit :=
  let chat_key := (Z.min sender_id recipient_id, Z.max sender_id recipient_id) in
  modify (set_chats (λ c,
    <[chat_key := (default [] (c !! chat_key) ++ [mkChatMsg sender_id now text])%list]> c)) ;;;
  try_except
    (with_app_context
       (let! sender := query (user_by_telegram_id sender_id) in
        let! receiver := query (user_by_telegram_id recipient_id) in
        match sender, receiver with
        | Some sender, Some receiver =>
            statement (with_messages
              (λ t, (t ++ [mkMessage (u_id sender) (u_id receiver) text false])%list)) ;;;
            commit
        | _, _ => ret tt
        end))
    tt.

(** The removal of a match from both in-memory sets, as block and unmatch do it. *)
Definition remove_match (user_id other_id : Z) (m : gmap Z (gset Z)) : gmap Z (gset Z) :=
  let m1 := if in_set_of m user_id other_id then set_remove user_id other_id m else m in
  if in_set_of m1 other_id user_id then set_remove other_id user_id m1 else m1.

(** [block_user_from_db] *)
Definition block_user_from_db (user_id blocked_id : Z) : M unit :=
  modify (set_blocks (λ b, set_add user_id blocked_id (ensure_key user_id b))) ;;;
  modify (set_matches (remove_match user_id blocked_id)) ;;;
  try_except
    (with_app_context
       (let! blocker := query (user_by_telegram_id user_id) in
        let! blocked := query (user_by_telegram_id blocked_id) in
        match blocker, blocked with
        | Some blocker, Some blocked =>
            let! existing_block := query (block_by_pair (u_id blocker) (u_id blocked)) in
            match existing_block with
            | None =>
                statement (with_blocks
                  (λ t, (t ++ [mkBlock (u_id blocker) (u_id blocked)])%list))
            | Some _ => ret tt
            end ;;;
            statement (clear_match_between (u_id blocker) (u_id blocked)) ;;;
            commit
        | _, _ => ret tt
        end))
    tt.

(** [report_user_to_db] *)
Definition report_user_to_db (reporter_id reported_id : Z) (reason : option string) : M unit :=
  modify (set_reports (λ r,
    <[reporter_id := (default [] (r !! reporter_id) ++ [reported_id])%list]> r)) ;;;
  try_except
    (with_app_context
       (let! reporter := query (user_by_telegram_id reporter_id) in
        let! reported := query (user_by_telegram_id reported_id) in
        match reporter, reported with
        | Some reporter, Some reported =>
            statement (with_reports
              (λ t, (t ++ [mkReport (u_id reporter) (u_id reported) reason])%list)) ;;;
            commit
        | _, _ => ret tt
        end))
    tt.

(** [unmatch_user_from_db] *)
Definition unmatch_user_from_db (user_id unmatched_id : Z) : M unit :=
  modify (set_matches (remove_match user_id unmatched_id)) ;;;
  try_except
    (with_app_context
       (let! user := query (user_by_telegram_id user_id) in
        let! unmatched := query (user_by_telegram_id unmatched_id) in
        match user, unmatched with
        | Some user, Some unmatched =>
            statement (clear_match_between (u_id user) (u_id unmatched)) ;;;
            commit
        | _, _ => ret tt
        end))
    tt.

(** [load_data_from_db]: run once when the bot starts, on the empty
    dictionaries.  Each [query(...).all()], each lookup of a user by key and
    each load of the relationship [user.target_universities] is an
    interaction with the database; a failure anywhere ends the load, with
    what was loaded so far kept, and is logged. *)
Definition load_data_from_db : M unit :=
  try_except
    (with_app_context
       (let! db_users := query t_users in
        for_each db_users (λ user,
          let! targets := query (target_rows_of (u_id user)) in
          modify (set_user_profiles
                    <[u_telegram_id user := profile_of_user user targets]>)) ;;;
        let! db_likes := query t_likes in
        for_each db_likes (λ like,
          let! sender := query (user_by_id (l_sender_id like)) in
          let! receiver := query (user_by_id (l_receiver_id like)) in
          match sender, receiver with
          | Some sender, Some receiver =>
              modify (set_likes (λ l,
                set_add (u_telegram_id sender) (u_telegram_id receiver)
                  (ensure_key (u_telegram_id sender) l))) ;;;
              if l_is_match like
              then modify (set_matches
                             (add_match (u_telegram_id sender) (u_telegram_id receiver)))
              else ret tt
          | _, _ => ret tt
          end) ;;;
        let! db_crushes := query t_secret_crushes in
        for_each db_crushes (λ crush,
          let! crusher := query (user_by_id (sc_crusher_id crush)) in
          let! crushee := query (λ d, sc_crushee_id crush ≫= λ i, user_by_id i d) in
          match crusher, crushee with
          | Some crusher, Some crushee =>
              modify (set_secret_crushes (λ c,
                set_add (u_telegram_id crusher) (u_telegram_id crushee)
                  (ensure_key (u_telegram_id crusher) c)))
          | _, _ => ret tt
          end) ;;;
        let! db_blocks := query t_blocks in
        for_each db_blocks (λ block,
          let! blocker := query (user_by_id (b_blocker_id block)) in
          let! blocked := query (user_by_id (b_blocked_id block)) in
          match blocker, blocked with
          | Some blocker, Some blocked =>
              modify (set_blocks (λ b,
                set_add (u_telegram_id blocker) (u_telegram_id blocked)
                  (ensure_key (u_telegram_id blocker) b)))
          | _, _ => ret tt
          end)))
    tt.

(** The store of a process that has just started on the database [d]. *)
Definition fresh_process (d : database) : store :=
  mkStore ∅ ∅ ∅ ∅ ∅ ∅ ∅ d d 0.

(** The oracle under which exactly the [k]-th interaction fails. *)
Definition fails_at (k : nat) : nat → bool := λ n, bool_decide (n = k).

(** The match sets that [load_data_from_db] rebuilds from the [likes] table:
    every row flagged [is_match] whose two users exist puts each of them in
    the other's set. *)
Definition db_match_edges (d : database) : list (Z * Z) :=
  omap (λ l, if l_is_match l
             then match user_by_id (l_sender_id l) d, user_by_id (l_receiver_id l) d with
                  | Some sender, Some receiver =>
                      Some (u_telegram_id sender, u_telegram_id receiver)
                  | _, _ => None
                  end
             else None) (t_likes d).

Definition db_matched (d : database) (a b : Z) : Prop :=
  (a, b) ∈ db_match_edges d ∨ (b, a) ∈ db_match_edges d.

(** ** [data_store_new.py] *)

Module New.

(** [get_user_profile]: memory only. *)
Definition get_user_profile (user_id : Z) : M (option profile) :=
  let! s := get_store in ret (user_profiles s !! user_id).

(** The body of the scan of [data_store_new.get_potential_matches]. *)
Definition is_potential_match (user_id : Z) (user_profile : profile) (s : store)
    (entry : Z * profile) : bool :=
  let '(other_id, other_profile) := entry in
  if bool_decide (other_id = user_id) || negb (is_complete other_profile)
     || bool_decide (other_id ∈ set_of (likes s) user_id)
     || bool_decide (other_id ∈ set_of (blocks s) user_id)
     || bool_decide (other_id ∈ blocked_by user_id (blocks s))
     || bool_decide (other_id ∈ set_of (matches s) user_id)
  then false
  else if gender_rejects (p_gender user_profile) (p_gender other_profile) then false
  else
    let user_uni_ok :=
      university_accepts (get_targets other_profile) (p_university user_profile) in
    let other_uni_ok :=
      university_accepts (get_targets user_profile) (p_university other_profile) in
    if negb (user_uni_ok && other_uni_ok) then false else true.

Definition get_potential_matches (rnd : nat → nat) (user_id : Z) : M (list Z) :=
  let! user_profile := get_user_profile user_id in
  match user_profile with
  | None => ret []
  | Some up =>
      if dict_is_empty up || negb (is_complete up) then ret []
      else
        let! s := get_store in
        let potential_matches :=
          (filter (λ e, is_potential_match user_id up s e = true)
                  (map_to_list (user_profiles s))).*1 in
        ret (shuffle rnd potential_matches)
  end.

End New.

(** ** [constants.py] and the target-university step of [handlers.py] *)

Definition UNIVERSITY_LIST : list string :=
  [ "Addis Ababa University"; "Adama Science and Technology University";
    "Bahir Dar University"; "Debre Berhan University"; "Dire Dawa University";
    "Ethiopian Civil Service University"; "Gondar University"; "Hawassa University";
    "Haramaya University"; "Jimma University"; "Mekelle University";
    "Woldia University"; "Wollo University"; "Arba Minch University";
    "Axum University"; "Dilla University"; "Mizan-Tepi University";
    "Wolkite University"; "Wolaita Sodo University"; "Wachemo University" ].

Definition get_university_list : list string := UNIVERSITY_LIST.

(** The conversation states, [range(10)] in the source. *)
Inductive conv_state : Type :=
  | NAME | AGE | GENDER | PROFILE_PIC | UNIVERSITY | TARGET_UNIVERSITIES
  | HOBBIES | BIO | RELATIONSHIP_PREFERENCE | COMPLETED.

(** The callback data that reaches the handler: ["target_all"],
    ["target_done"], or a string whose second ["_"]-separated field reads as
    the integer [i] (the keyboard sends ["target_<i>"]). *)
Inductive callback_data : Type :=
  | target_all
  | target_done
  | target_index (i : Z).

(** [l[i]] for a Python integer index: negative indices count from the end,
    anything out of range raises [IndexError]. *)
Definition py_index {A} (l : list A) (i : Z) : option A :=
  if bool_decide (0 ≤ i)%Z then l !! Z.to_nat i
  else if bool_decide (- Z.of_nat (length l) ≤ i)%Z then l !! Z.to_nat (Z.of_nat (length l) + i)
  else None.

(** The changes that the selection of [selected_university] makes to the
    profile dictionary, in the order of the source. *)
Definition select_university (selected_university : string) (user_profile : profile) : profile :=
  let p1 := match p_target_universities user_profile with
            | None => set_target_universities [] user_profile
            | Some _ => user_profile
            end in
  let p2 := if bool_decide ("All" ∈ get_targets p1)
            then set_target_universities [] p1 else p1 in
  if bool_decide (selected_university ∉ get_targets p2)
  then set_target_universities (get_targets p2 ++ [selected_university])%list p2
  else p2.

(** [handle_target_universities].  The calls to the chat platform
    ([query.answer], [query.edit_message_text]) are not modelled; using the
    result of [get_user_profile] when it is [None] raises, and so does the
    lookup [user_profile['university']] made for the reply when the key is
    absent.  The dictionary is changed in place and then saved; nothing can
    raise between the two, so the saved value is the only visible effect. *)
Definition handle_target_universities (user_id : Z) (data : callback_data) : M conv_state :=
  let! user_profile := get_user_profile user_id in
  match data with
  | target_all =>
      match user_profile with
      | None => raise
      | Some up =>
          save_user_profile user_id (set_target_universities ["All"] up) ;;;
          ret HOBBIES
      end
  | target_done =>
      match user_profile with
      | None => raise
      | Some up =>
          if bool_decide (get_targets up = []) then ret TARGET_UNIVERSITIES
          else ret HOBBIES
      end
  | target_index university_idx =>
      match py_index get_university_list university_idx with
      | None => raise
      | Some selected_university =>
          match user_profile with
          | None => raise
          | Some up =>
              let up' := select_university selected_university up in
              save_user_profile user_id up' ;;;
              match p_university up' with
              | None => raise
              | Some _ => ret TARGET_UNIVERSITIES
              end
          end
      end
  end.

(** ** Running an operation *)

Definition run {A} (m : M A) (faults : nat → bool) (s : store) : result A * store :=
  m faults s.

(** No durable-store interaction fails. *)
Definition no_faults : nat → bool := λ _, false.

(** Every durable-store interaction fails. *)
Definition all_faults : nat → bool := λ _, true.

(** The [likes] rows from user [x] to user [y] (database keys). *)
Definition like_rows (x y : Z) (d : database) : list Like :=
  filter (λ l, l_sender_id l = x ∧ l_receiver_id l = y) (t_likes d).

(** The durable store holds a like row from the user with telegram id [a]
    to the user with telegram id [b]. *)
Definition db_has_like (d : database) (a b : Z) : bool :=
  match user_by_telegram_id a d, user_by_telegram_id b d with
  | Some x, Some y => bool_decide (is_Some (like_by_pair (u_id x) (u_id y) d))
  | _, _ => false
  end.


(** ** Example stores *)

Definition user_row (k tid : Z) (name gender university : string) : User :=
  mkUser k tid name 20 gender university "" "" "" "" "".

(** Two registered users: Abel (telegram id 101, key 1) and Bethel
    (telegram id 102, key 2). *)
Definition example_users : list User :=
  [ user_row 1 101 "Abel" "male" "Addis Ababa University";
    user_row 2 102 "Bethel" "female" "Bahir Dar University" ].

(** A database that holds both users and the like of Abel by Bethel. *)
Definition db_bethel_likes_abel : database :=
  mkDatabase example_users [] [mkLike 1 2 1 false] [] [] [] [].

(** The store of a process started on that database whose
    [load_data_from_db] failed when it came to the likes (interaction 4:
    after the context, the users and the two relationship loads): both
    profiles are in memory, the like of Abel by Bethel is only in the
    database. *)
Definition store_likes_not_loaded : store :=
  (run load_data_from_db (fails_at 4) (fresh_process db_bethel_likes_abel)).2.

(** Abel and Bethel with complete profiles in memory.  Abel accepts every
    university, Bethel only her own. *)
Definition profile_abel : profile :=
  mkProfile (Some 101) (Some "abel") (Some "Abel") (Some 20) (Some "male")
    (Some "Addis Ababa University") (Some "") (Some "") (Some "") None None
    (Some true) (Some ["All"]).

Definition profile_bethel : profile :=
  mkProfile (Some 102) (Some "bethel") (Some "Bethel") (Some 20) (Some "female")
    (Some "Bahir Dar University") (Some "") (Some "") (Some "") None None
    (Some true) (Some ["Bahir Dar University"]).

Definition store_two_profiles : store :=
  mkStore (<[101 := profile_abel]> (<[102 := profile_bethel]> ∅))
    ∅ ∅ ∅ ∅ ∅ ∅ empty_db empty_db 0.

(** ** The candidate lists as values *)

Definition returned {A} (r : result (list A) * store) : list A :=
  match r.1 with
  | Ok l => l
  | Raised => []
  end.

Definition candidates (rnd : nat → nat) (faults : nat → bool) (s : store) (u : Z) : list Z :=
  returned (run (get_potential_matches rnd u) faults s).

Definition candidates_new (rnd : nat → nat) (faults : nat → bool) (s : store) (u : Z) : list Z :=
  returned (run (New.get_potential_matches rnd u) faults s).

(** ** The statements of the specification that the code does not satisfy *)

(** "The two copies of the matching filter return the same set of ids." *)
Definition filters_agree (rnd : nat → nat) (faults : nat → bool) (s : store) (u : Z) : Prop :=
  ∀ x, x ∈ candidates rnd faults s u ↔ x ∈ candidates_new rnd faults s u.

(** Abel and Bethel matched: both like edges and both match memberships in
    memory, both like rows flagged in the database. *)
Definition db_matched_pair : database :=
  mkDatabase example_users [] [mkLike 1 1 2 true; mkLike 2 2 1 true] [] [] [] [].

Definition mutual_sets : gmap Z (gset Z) :=
  <[101 := {[102]}]> (<[102 := {[101]}]> ∅).

Definition store_matched : store :=
  mkStore (<[101 := profile_abel]> (<[102 := profile_bethel]> ∅))
    mutual_sets mutual_sets ∅ ∅ ∅ ∅ db_matched_pair db_matched_pair 0.

(** "After [block(A,B)] neither of A and B is in the other's match set, in
    memory and in the match flags of the durable relation." *)
Definition block_severs_match (faults : nat → bool) (s : store) (a b : Z) : Prop :=
  let s' := (run (block_user_from_db a b) faults s).2 in
  (a ∉ set_of (matches s') b) ∧ (b ∉ set_of (matches s') a) ∧ (¬ db_matched (db s') a b).

(** ** The in-memory part of a store *)

Definition memory (s : store)
    : gmap Z profile * gmap Z (gset Z) * gmap Z (gset Z) * gmap Z (gset Z)
      * gmap Z (list Z) * gmap Z (gset Z) * gmap (Z * Z) (list chat_msg) :=
  (user_profiles s, matches s, likes s, blocks s, reports s, secret_crushes s, chats s).

(** An action that touches the database only. *)
Definition keeps_memory {A} (m : M A) : Prop :=
  ∀ faults s, memory (m faults s).2 = memory s.

(** A user in the middle of registration, who has already selected Bahir Dar
    University as a target. *)
Definition profile_registering : profile :=
  mkProfile (Some 301) (Some "dawit") (Some "Dawit") (Some 21) (Some "male")
    (Some "Addis Ababa University") None None None None (Some "ffd8") None
    (Some ["Bahir Dar University"]).

Definition store_registering : store :=
  mkStore (<[301 := profile_registering]> ∅) ∅ ∅ ∅ ∅ ∅ ∅ empty_db empty_db 0.

(** "Selecting a university that is already in the working set removes it." *)
Definition selection_toggles (faults : nat → bool) (s : store) (user_id i : Z) : Prop :=
  ∀ u up up' r s',
    py_index get_university_list i = Some u →
    user_profiles s !! user_id = Some up →
    u ∈ get_targets up →
    run (handle_target_universities user_id (target_index i)) faults s = (r, s') →
    user_profiles s' !! user_id = Some up' →
    u ∉ get_targets up'.

(** Abel registered, with one external crush already stored. *)
Definition crush_on_hana : SecretCrush :=
  mkSecretCrush 1 1 None (Some "Hana") (Some "@hana") None false.

Definition db_external_crush : database :=
  mkDatabase example_users [] [] [crush_on_hana] [] [] [].

Definition store_external_crush : store :=
  mkStore ∅ ∅ ∅ ∅ ∅ ∅ ∅ db_external_crush db_external_crush 0.





(** ** The write operations of the store *)

Inductive write_op : Type :=
  | SaveProfile (user_id : Z) (profile_data : profile)
  | SaveMatch (user_id match_id : Z)
  | Decide (user_id other_id : Z) (is_like : bool)
  | AddCrush (user_id crush_id : Z)
  | AddExternalCrush (user_id : Z) (crush_name social_media_account crush_photo : option string)
  | AddChatMessage (now sender_id recipient_id : Z) (text : string)
  | BlockUser (user_id blocked_id : Z)
  | ReportUser (reporter_id reported_id : Z) (reason : option string)
  | Unmatch (user_id unmatched_id : Z).

(** Calling the operation and dropping its return value. *)
Definition perform (op : write_op) : M unit :=
  match op with
  | SaveProfile u p => save_user_profile u p
  | SaveMatch u m => save_match u m
  | Decide u t b => process_match_decision u t b ;;; ret tt
  | AddCrush u c => add_secret_crush u (Some c) None None None ;;; ret tt
  | AddExternalCrush u n a p => add_secret_crush u None n a p ;;; ret tt
  | AddChatMessage now a b text => add_chat_message now a b text
  | BlockUser u b => block_user_from_db u b
  | ReportUser u r reason => report_user_to_db u r reason
  | Unmatch u t => unmatch_user_from_db u t
  end.

(** ** Shapes of the in-memory state *)

(** The match sets are symmetric. *)
Definition symmetric_matches (m : gmap Z (gset Z)) : Prop :=
  ∀ a b, b ∈ set_of m a → a ∈ set_of m b.

(** ** Reading the secret crushes *)

(** The dictionary that [get_secret_crushes] builds for an external crush
    (keys ['id'], ['name'], ['social_media'], ['photo']). *)
Record external_crush : Type := mkExternalCrush {
  ec_id : Z;
  ec_name : option string;
  ec_social_media : option string;
  ec_photo : option string
}.

(** [query(SecretCrush).filter_by(crusher_id=k).all()] *)
Definition crushes_of (k : Z) (d : database) : list SecretCrush :=
  filter (λ c, sc_crusher_id c = k) (t_secret_crushes d).

(** An interaction made inside a [try] block whose local variables are read
    after the block: [None] when it raised. *)
Definition attempt {A} (m : M A) : M (option A) :=
  try_except (let! x := m in ret (Some x)) None.

(** The loop [for crush in db_crushes] of [get_secret_crushes], on the two
    lists it appends to.  When the lookup of a crushee raises, the loop is
    left with the lists as they are at that point. *)
Fixpoint scan_crushes (db_crushes : list SecretCrush) (registered_crushes : list Z)
    (external_crushes : list external_crush) : M (list Z * list external_crush) :=
  match db_crushes with
  | [] => ret (registered_crushes, external_crushes)
  | crush :: rest =>
      match sc_crushee_id crush with
      | Some i =>
          let! crushee := attempt (query (user_by_id i)) in
          match crushee with
          | None => ret (registered_crushes, external_crushes)
          | Some (Some c) =>
              if bool_decide (u_telegram_id c ∈ registered_crushes)
              then scan_crushes rest registered_crushes external_crushes
              else scan_crushes rest (registered_crushes ++ [u_telegram_id c])%list
                     external_crushes
          | Some None => scan_crushes rest registered_crushes external_crushes
          end
      | None =>
          scan_crushes rest registered_crushes
            (external_crushes
               ++ [mkExternalCrush (sc_id crush) (sc_crush_name crush)
                     (sc_social_media_account crush) (sc_crush_photo crush)])%list
      end
  end.

(** [get_secret_crushes].  The two lists are local variables that the code
    returns after the [try] block, whatever happened inside it. *)
Definition get_secret_crushes (user_id : Z) : M (list Z * list external_crush) :=
  let! s := get_store in
  let registered_crushes := elements (set_of (secret_crushes s) user_id) in
  try_except
    (with_app_context
       (let! user := attempt (query (user_by_telegram_id user_id)) in
        match user with
        | Some (Some u) =>
            let! db_crushes := attempt (query (crushes_of (u_id u))) in
            match db_crushes with
            | Some rows => scan_crushes rows registered_crushes []
            | None => ret (registered_crushes, [])
            end
        | _ => ret (registered_crushes, [])
        end))
    (registered_crushes, []).

(** The entry that [get_secret_crushes] returns for an external crush row. *)
Definition external_entry (row : SecretCrush) : external_crush :=
  mkExternalCrush (sc_id row) (sc_crush_name row) (sc_social_media_account row)
    (sc_crush_photo row).

(** ** Further steps of the registration conversation ([handlers.py]) *)

(** [RELATIONSHIP_TYPES] of [constants.py]. *)
Definition RELATIONSHIP_TYPES : list string :=
  [ "Casual Dating"; "Long-term Relationship"; "Friendship First";
    "Serious Relationship"; "Marriage Oriented"; "Study Partners" ].

(** [user_profile["username"] = v] *)
Definition set_username (v : string) (p : profile) : profile :=
  mkProfile (p_telegram_id p) (Some v) (p_name p) (p_age p) (p_gender p)
    (p_university p) (p_bio p) (p_hobbies p) (p_relationship_preference p)
    (p_profile_pic_url p) (p_profile_pic p) (p_profile_complete p)
    (p_target_universities p).

(** [user_profile["university"] = v] *)
Definition set_university (v : string) (p : profile) : profile :=
  mkProfile (p_telegram_id p) (p_username p) (p_name p) (p_age p) (p_gender p)
    (Some v) (p_bio p) (p_hobbies p) (p_relationship_preference p)
    (p_profile_pic_url p) (p_profile_pic p) (p_profile_complete p)
    (p_target_universities p).

(** [user_profile["relationship_preference"] = v] followed by
    [user_profile["profile_complete"] = True]. *)
Definition set_relationship_complete (v : string) (p : profile) : profile :=
  mkProfile (p_telegram_id p) (p_username p) (p_name p) (p_age p) (p_gender p)
    (p_university p) (p_bio p) (p_hobbies p) (Some v)
    (p_profile_pic_url p) (p_profile_pic p) (Some true)
    (p_target_universities p).

(** [check_if_registered] of [utils.py]; the reply sent to the chat when the
    answer is [False] is not modelled. *)
Definition check_if_registered (user_id : Z) : M bool :=
  let! user_profile := get_user_profile user_id in
  match user_profile with
  | None => ret false
  | Some up => ret (negb (dict_is_empty up || negb (is_complete up)))
  end.

(** [register_command].  [username] is [update.effective_user.username], a
    string or [None]; the result is [None] for [ConversationHandler.END],
    which is not one of the conversation states.  The replies sent to the
    chat are not modelled. *)
Definition register_command (user_id : Z) (username : option string)
    : M (option conv_state) :=
  let! found := get_user_profile user_id in
  let new_profile :=
    mkProfile (Some user_id) (Some (default "" username))
      None None None None None None None None None None None in
  let user_profile :=
    match found with
    | None => new_profile
    | Some up =>
        if dict_is_empty up then new_profile
        else match username with
             | Some n =>
                 if negb (bool_decide (n = ""))
                    && (bool_decide (p_username up = None)
                        || negb (bool_decide (p_username up = Some n)))
                 then set_username n up
                 else up
             | None => up
             end
    end in
  save_user_profile user_id user_profile ;;;
  if negb (dict_is_empty user_profile) && is_complete user_profile
  then ret None
  else ret (Some NAME).

(** [handle_university].  [university_idx] is the integer read from the
    second ["_"]-separated field of the callback data (the keyboard sends
    ["uni_<i>"]).  The index into the list is taken before the profile is
    read; assigning into the result of [get_user_profile] when it is [None]
    raises.  The dictionary is changed in place and saved twice. *)
Definition handle_university (user_id : Z) (university_idx : Z) : M conv_state :=
  match py_index get_university_list university_idx with
  | None => raise
  | Some university =>
      let! user_profile := get_user_profile user_id in
      match user_profile with
      | None => raise
      | Some up =>
          let up1 := set_university university up in
          save_user_profile user_id up1 ;;;
          let up2 := set_target_universities [] up1 in
          save_user_profile user_id up2 ;;;
          ret TARGET_UNIVERSITIES
      end
  end.

(** [handle_relationship_preference].  [rel_idx] is the integer read from
    the callback data (["rel_<i>"]). *)
Definition handle_relationship_preference (user_id : Z) (rel_idx : Z) : M conv_state :=
  match py_index RELATIONSHIP_TYPES rel_idx with
  | None => raise
  | Some relationship =>
      let! user_profile := get_user_profile user_id in
      match user_profile with
      | None => raise
      | Some up =>
          save_user_profile user_id (set_relationship_complete relationship up) ;;;
          ret COMPLETED
      end
  end.

(** ** The edit menu: the university branches of [handle_callback_query] *)

(** The callback data of the branches [data.startswith("uni_")] and
    [data.startswith("target_uni_")]: a string whose second
    ["_"]-separated field reads as the integer [i] (the keyboard sends
    ["uni_<i>"]), ["target_uni_all"], or a string whose third field reads as
    the integer [i] (["target_uni_<i>"]). *)
Inductive edit_callback : Type :=
  | uni_index (i : Z)
  | target_uni_all
  | target_uni_index (i : Z).

(** [handle_callback_query] on such data.  The profile is read before the
    data is looked at.  The university branch indexes the list before it
    tests the profile, the target branch after; nothing is saved for a user
    without a (non-empty) profile.  The messages sent to the chat are not
    modelled. *)
Definition handle_callback_query (user_id : Z) (data : edit_callback) : M unit :=
  let! user_profile := get_user_profile user_id in
  match data with
  | uni_index uni_idx =>
      match py_index get_university_list uni_idx with
      | None => raise
      | Some uni =>
          match user_profile with
          | None => ret tt
          | Some up =>
              if dict_is_empty up then ret tt
              else save_user_profile user_id (set_university uni up)
          end
      end
  | target_uni_all =>
      match user_profile with
      | None => ret tt
      | Some up =>
          if dict_is_empty up then ret tt
          else save_user_profile user_id
                 (set_target_universities ["All Universities"] up)
      end
  | target_uni_index uni_idx =>
      match user_profile with
      | None => ret tt
      | Some up =>
          if dict_is_empty up then ret tt
          else
            match py_index get_university_list uni_idx with
            | None => raise
            | Some uni => save_user_profile user_id (set_target_universities [uni] up)
            end
      end
  end.

(** ** Stores reached by running the code *)

(** Two users send [/register] and nothing more, in a process started on an
    empty database: each gets a row, written before any gender is known. *)
Definition store_started_registrations : store :=
  (run (register_command 201 (Some "chala") ;;; register_command 202 (Some "chaltu"))
     no_faults (fresh_process empty_db)).2.

(** The process restarts on that database and loads it; then, through the
    edit menu, the first user picks Addis Ababa University as target
    university (["target_uni_0"]) and the second as university (["uni_0"]). *)
Definition store_edited_after_restart : store :=
  (run (load_data_from_db ;;;
        handle_callback_query 201 (target_uni_index 0) ;;;
        handle_callback_query 202 (uni_index 0))
     no_faults (fresh_process (db store_started_registrations))).2.

(** A database that holds Abel and Bethel, Bethel's target university (that
    of Abel) and her like of Abel. *)
Definition db_bethel_accepts_abel : database :=
  mkDatabase example_users [mkTargetUniversity 2 "Addis Ababa University"]
    [mkLike 1 2 1 false] [] [] [] [].

(** A process started on that database whose [load_data_from_db] failed when
    it came to the likes (interaction 4), in which Abel then likes Bethel:
    the two are matched through the like row of the table, and the like of
    Abel by Bethel is not in memory. *)
Definition store_matched_by_durable_like : store :=
  (run (load_data_from_db ;;; process_match_decision 101 102 true)
     (fails_at 4) (fresh_process db_bethel_accepts_abel)).2.

(** "For any matched users A and B, after [unmatch(A,B)] the surviving like
    edge keeps B out of computeCandidates(A), and vice versa." *)
Definition unmatched_are_kept_apart
    (rnd : nat → nat) (faults : nat → bool) (s : store) (a b : Z) : Prop :=
  b ∈ set_of (matches s) a → a ∈ set_of (matches s) b →
  let s' := (run (unmatch_user_from_db a b) faults s).2 in
  (b ∉ candidates rnd faults s' a) ∧ (a ∉ candidates rnd faults s' b).

(** ** The in-memory update of each write operation *)

(** The external crushes that [get_secret_crushes] returns. *)
Definition external_crushes (faults : nat → bool) (s : store) (u : Z) : list external_crush :=
  match (run (get_secret_crushes u) faults s).1 with
  | Ok (_, external) => external
  | Raised => []
  end.

(** The operations whose datum has a place in the dictionaries: all but the
    external crush, which [add_secret_crush] writes to the table only. *)
Definition has_in_memory_structure (op : write_op) : bool :=
  match op with
  | AddExternalCrush _ _ _ _ => false
  | _ => true
  end.

(** "The in-memory structure is updated", for each operation, as what can
    be observed in the dictionaries after the call: the datum written is
    there (and, for the sets, exactly which memberships there are).  A pass
    writes nothing.  For an external crush it is that the entry can be read
    back while the durable store is unavailable. *)
Definition in_memory_update (op : write_op) (s s' : store) : Prop :=
  match op with
  | SaveProfile u p =>
      user_profiles s' !! u = Some p
      ∧ ∀ k, k ≠ u → user_profiles s' !! k = user_profiles s !! k
  | SaveMatch u m =>
      ∀ x y, y ∈ set_of (matches s') x
             ↔ (x = u ∧ y = m) ∨ (x = m ∧ y = u) ∨ y ∈ set_of (matches s) x
  | Decide u t true =>
      ∀ x y, y ∈ set_of (likes s') x ↔ (x = u ∧ y = t) ∨ y ∈ set_of (likes s) x
  | Decide u t false => memory s' = memory s
  | AddCrush u c =>
      ∀ x y, y ∈ set_of (secret_crushes s') x
             ↔ (x = u ∧ y = c) ∨ y ∈ set_of (secret_crushes s) x
  | AddExternalCrush u n a p =>
      ∃ e, e ∈ external_crushes all_faults s' u
           ∧ ec_name e = n ∧ ec_social_media e = a ∧ ec_photo e = p
  | AddChatMessage now a b text =>
      chats s' !! (Z.min a b, Z.max a b)
      = Some (default [] (chats s !! (Z.min a b, Z.max a b)) ++ [mkChatMsg a now text])%list
  | BlockUser u b =>
      (∀ x y, y ∈ set_of (blocks s') x ↔ (x = u ∧ y = b) ∨ y ∈ set_of (blocks s) x)
      ∧ (∀ x y, y ∈ set_of (matches s') x
                ↔ y ∈ set_of (matches s) x ∧ ¬ (x = u ∧ y = b) ∧ ¬ (x = b ∧ y = u))
  | ReportUser u r _ =>
      reports s' !! u = Some (default [] (reports s !! u) ++ [r])%list
  | Unmatch u t =>
      ∀ x y, y ∈ set_of (matches s') x
             ↔ y ∈ set_of (matches s) x ∧ ¬ (x = u ∧ y = t) ∧ ¬ (x = t ∧ y = u)
  end.

(** "For every store write operation the in-memory structure is updated and
    the operation returns normally", at one operation and one pattern of
    failures. *)
Definition write_is_kept_in_memory (faults : nat → bool) (s : store) (op : write_op) : Prop :=
  ∃ s', run (perform op) faults s = (Ok tt, s') ∧ in_memory_update op s s'.
(** * Properties *)

Arguments user_by_telegram_id : simpl never.
Arguments user_by_id : simpl never.
Arguments like_by_pair : simpl never.
Arguments crush_by_pair : simpl never.
Arguments block_by_pair : simpl never.
Arguments target_rows_of : simpl never.
Arguments like_set_is_match : simpl never.
Arguments crush_set_is_mutual : simpl never.
Arguments clear_match_between : simpl never.
Arguments fresh_id : simpl never.

(** Symbolic execution of an operation: unfold the monad and split on every
    test the code makes (oracle answers, query results, membership tests). *)
Ltac unfold_monad :=
  unfold run, with_app_context, try_except, query, statement, assign, commit,
    db_step, bind, ret, raise, modify, get_store in *.

Ltac exec := unfold_monad; simpl; repeat (case_match; simplify_eq/=).

(** ** Dictionaries of sets *)

Section set_dictionaries.
Implicit Types (m : gmap Z (gset Z)) (k v x : Z).

Lemma in_set_of_true m k v : in_set_of m k v = true ↔ v ∈ set_of m k.
Proof.
  unfold in_set_of, set_of. destruct (m !! k) as [vs|]; simpl.
  - by rewrite bool_decide_eq_true.
  - split; [done | set_solver].
Qed.

Lemma in_set_of_false m k v : in_set_of m k v = false ↔ v ∉ set_of m k.
Proof.
  rewrite <- in_set_of_true. destruct (in_set_of m k v); split; congruence.
Qed.

Lemma set_of_ensure_key m k k' : set_of (ensure_key k m) k' = set_of m k'.
Proof.
  unfold set_of, ensure_key. destruct (m !! k) eqn:E; [done|].
  destruct (decide (k = k')) as [->|Hne].
  - by rewrite lookup_insert_eq, E.
  - by rewrite lookup_insert_ne.
Qed.

Lemma ensure_key_is_Some m k : is_Some (ensure_key k m !! k).
Proof.
  unfold ensure_key. destruct (m !! k) eqn:E; [by rewrite E|].
  by rewrite lookup_insert_eq.
Qed.

Lemma ensure_key_is_Some_mono m k k' :
  is_Some (m !! k') → is_Some (ensure_key k m !! k').
Proof.
  unfold ensure_key. destruct (m !! k) eqn:E; [done|]. intros H.
  destruct (decide (k = k')) as [->|]; [by rewrite lookup_insert_eq|].
  by rewrite lookup_insert_ne.
Qed.

Lemma ensure_key_present m k : is_Some (m !! k) → ensure_key k m = m.
Proof. intros [vs E]. unfold ensure_key. by rewrite E. Qed.

Lemma set_add_is_Some m k v k' : is_Some (m !! k') → is_Some (set_add k v m !! k').
Proof.
  unfold set_add. rewrite lookup_alter. case_decide; [subst|done].
  by intros [? ->].
Qed.

Lemma elem_of_set_add m k v k' x :
  is_Some (m !! k) →
  x ∈ set_of (set_add k v m) k' ↔ (k' = k ∧ x = v) ∨ x ∈ set_of m k'.
Proof.
  intros [vs E]. unfold set_of, set_add. rewrite lookup_alter.
  case_decide as Hk.
  - subst. rewrite E. simpl. set_solver.
  - set_solver.
Qed.

Lemma elem_of_record m k v k' x :
  x ∈ set_of (set_add k v (ensure_key k m)) k' ↔ (k' = k ∧ x = v) ∨ x ∈ set_of m k'.
Proof.
  rewrite elem_of_set_add by apply ensure_key_is_Some.
  by rewrite set_of_ensure_key.
Qed.

Lemma elem_of_set_remove m k v k' x :
  x ∈ set_of (set_remove k v m) k' ↔ x ∈ set_of m k' ∧ ¬ (k' = k ∧ x = v).
Proof.
  unfold set_of, set_remove. rewrite lookup_alter.
  case_decide as Hk.
  - subst. destruct (m !! k'); simpl; set_solver.
  - set_solver.
Qed.

Lemma elem_of_add_match m u t k x :
  x ∈ set_of (add_match u t m) k ↔ (k = u ∧ x = t) ∨ (k = t ∧ x = u) ∨ x ∈ set_of m k.
Proof.
  unfold add_match.
  rewrite elem_of_set_add by (apply set_add_is_Some, ensure_key_is_Some).
  rewrite elem_of_set_add by (apply ensure_key_is_Some_mono, ensure_key_is_Some).
  rewrite !set_of_ensure_key. tauto.
Qed.

Lemma elem_of_remove_match m u t k x :
  x ∈ set_of (remove_match u t m) k
  ↔ x ∈ set_of m k ∧ ¬ (k = u ∧ x = t) ∧ ¬ (k = t ∧ x = u).
Proof.
  unfold remove_match.
  destruct (in_set_of m u t) eqn:E1.
  - destruct (in_set_of (set_remove u t m) t u) eqn:E2.
    + rewrite !elem_of_set_remove. tauto.
    + apply in_set_of_false in E2. rewrite elem_of_set_remove in *.
      split; [|tauto]. intros [H1 H2]. repeat split; [done..|].
      intros [-> ->]. apply E2. split; [done|]. intros [-> _]. by apply H2.
  - apply in_set_of_false in E1.
    destruct (in_set_of m t u) eqn:E2.
    + rewrite elem_of_set_remove. split; [|tauto].
      intros [H1 H2]. repeat split; [done| |done]. by intros [-> ->].
    + apply in_set_of_false in E2.
      split; [|tauto]. intros H1. repeat split; [done|..]; by intros [-> ->].
Qed.

(** Adding to a set twice is adding once. *)
Lemma record_idempotent m k v :
  set_add k v (ensure_key k (set_add k v (ensure_key k m)))
  = set_add k v (ensure_key k m).
Proof.
  rewrite (ensure_key_present (set_add _ _ _))
    by apply set_add_is_Some, ensure_key_is_Some.
  unfold set_add. apply map_eq. intros i. rewrite !lookup_alter.
  repeat case_decide; try done.
  destruct (ensure_key k m !! k); simpl; [|done].
  f_equal. set_solver.
Qed.
End set_dictionaries.

(** ** The decision processor *)

(** A pass changes nothing. *)
Lemma process_pass faults s u t :
  run (process_match_decision u t false) faults s = (Ok "passed", s).
Proof. reflexivity. Qed.

(** What a like does to the in-memory dictionaries, whatever the durable
    store does: the like edge is recorded, the outcome is ["match"] or
    ["liked"], and ["liked"] is only returned when memory holds no reverse
    edge. *)
Lemma process_like_spec faults s u t :
  ∃ v s',
    run (process_match_decision u t true) faults s = (Ok v, s')
    ∧ likes s' = set_add u t (ensure_key u (likes s))
    ∧ user_profiles s' = user_profiles s
    ∧ blocks s' = blocks s
    ∧ secret_crushes s' = secret_crushes s
    ∧ t_users (db s') = t_users (db s)
    ∧ ((v = "match" ∧ (matches s' = add_match u t (matches s)
                       ∨ matches s' = add_match u t (add_match u t (matches s))))
       ∨ (v = "liked" ∧ in_set_of (likes s') t u = false
          ∧ (matches s' = matches s ∨ matches s' = add_match u t (matches s)))).
Proof.
  unfold process_match_decision. exec.
  all: eexists _, _; split; [reflexivity|]; simpl.
  all: repeat split; eauto 10.
Qed.

(** Once the edge [a -> b] is in memory, a like of [a] by [b] is a match. *)
Lemma like_back_matches faults s a b :
  b ∈ set_of (likes s) a →
  ∃ s', run (process_match_decision b a true) faults s = (Ok "match", s')
        ∧ a ∈ set_of (matches s') b ∧ b ∈ set_of (matches s') a.
Proof.
  intros Hab.
  destruct (process_like_spec faults s b a)
    as (v & s' & Hrun & Hl & _ & _ & _ & _ & [(-> & Hm) | (-> & Hno & _)]).
  - exists s'. split; [done|].
    destruct Hm as [-> | ->]; rewrite !elem_of_add_match; tauto.
  - exfalso. apply in_set_of_false in Hno. apply Hno.
    rewrite Hl, elem_of_record. tauto.
Qed.

(** C1. Mutual-like detection: after [decide(A,B,like)], a subsequent
    [decide(B,A,like)] returns the matched outcome (["match"] in the code),
    and afterwards each of A and B is in the other's match set.  This holds
    in every store and for every pattern of durable-store failure. *)
Theorem C1_mutual_like_detection (faults : nat → bool) (s : store) (a b : Z) :
  ∃ v1 s1 s2,
    run (process_match_decision a b true) faults s = (Ok v1, s1)
    ∧ run (process_match_decision b a true) faults s1 = (Ok "match", s2)
    ∧ a ∈ set_of (matches s2) b
    ∧ b ∈ set_of (matches s2) a.
Proof.
  destruct (process_like_spec faults s a b) as (v1 & s1 & Hrun1 & Hl & _).
  destruct (like_back_matches faults s1 a b) as (s2 & Hrun2 & Hm).
  { rewrite Hl, elem_of_record. tauto. }
  by exists v1, s1, s2.
Qed.

(** *** Queries over tables *)

Lemma find_app_first {A} (f : A → bool) (l1 l2 : list A) :
  find f (l1 ++ l2) = match find f l1 with Some x => Some x | None => find f l2 end.
Proof. induction l1 as [|x l1 IH]; simpl; [done|]. by destruct (f x). Qed.

Lemma find_fmap_stable {A} (f : A → bool) (g : A → A) (l : list A) :
  (∀ x, f (g x) = f x) → find f (g <$> l) = g <$> find f l.
Proof.
  intros Hg. induction l as [|x l IH]; simpl; [done|].
  rewrite Hg. by destruct (f x).
Qed.

Lemma find_Some_elem_of {A} (f : A → bool) (l : list A) x :
  find f l = Some x → x ∈ l ∧ f x = true.
Proof. intros H. apply find_some in H. by rewrite list_elem_of_In. Qed.

Lemma find_None_elem_of {A} (f : A → bool) (l : list A) x :
  find f l = None → x ∈ l → f x = false.
Proof. intros H Hx. apply (find_none f l H). by apply list_elem_of_In. Qed.

Lemma NoDup_fmap_inj_on {A B} (f : A → B) (l : list A) x y :
  NoDup (f <$> l) → x ∈ l → y ∈ l → f x = f y → x = y.
Proof.
  induction l as [|z l IH]; intros Hnd Hx Hy Hf; [by apply elem_of_nil in Hx|].
  rewrite fmap_cons in Hnd. apply NoDup_cons in Hnd as [Hz Hnd].
  apply elem_of_cons in Hx as [->|Hx]; apply elem_of_cons in Hy as [->|Hy]; auto.
  - exfalso. apply Hz. rewrite Hf. by apply list_elem_of_fmap_2.
  - exfalso. apply Hz. rewrite <- Hf. by apply list_elem_of_fmap_2.
Qed.

Lemma user_by_telegram_id_Some tid d x :
  user_by_telegram_id tid d = Some x → x ∈ t_users d ∧ u_telegram_id x = tid.
Proof.
  unfold user_by_telegram_id. intros H.
  apply find_Some_elem_of in H as [Hx Ht]. by apply bool_decide_eq_true in Ht.
Qed.

Lemma user_by_telegram_id_None tid d x :
  user_by_telegram_id tid d = None → x ∈ t_users d → u_telegram_id x ≠ tid.
Proof.
  unfold user_by_telegram_id. intros H Hx.
  apply (find_None_elem_of _ _ x) in H; [|done]. by apply bool_decide_eq_false in H.
Qed.

(** Two users found under different telegram ids have different keys. *)
Lemma distinct_users_distinct_keys d u t x y :
  NoDup (u_id <$> t_users d) → u ≠ t →
  user_by_telegram_id u d = Some x → user_by_telegram_id t d = Some y →
  u_id x ≠ u_id y.
Proof.
  intros Hpk Hne Hx Hy Hid.
  apply user_by_telegram_id_Some in Hx as [Hx <-].
  apply user_by_telegram_id_Some in Hy as [Hy <-].
  apply Hne. f_equal. by eapply NoDup_fmap_inj_on.
Qed.

Lemma like_by_pair_insert a b k x y m d :
  like_by_pair a b (with_likes (λ t, (t ++ [mkLike k x y m])%list) d)
  = match like_by_pair a b d with
    | Some l => Some l
    | None => if bool_decide (x = a) && bool_decide (y = b)
              then Some (mkLike k x y m) else None
    end.
Proof. unfold like_by_pair. simpl. rewrite find_app_first. done. Qed.

(** With no reverse row in the table, the reverse query made after the
    insertion of the new row finds nothing. *)
Lemma no_reverse_after_insert d u t sd rc k m :
  NoDup (u_id <$> t_users d) → u ≠ t →
  user_by_telegram_id u d = Some sd → user_by_telegram_id t d = Some rc →
  db_has_like d t u = false →
  like_by_pair (u_id rc) (u_id sd)
    (with_likes (λ l, (l ++ [mkLike k (u_id sd) (u_id rc) m])%list) d) = None.
Proof.
  intros Hpk Hne Hsd Hrc Hno.
  rewrite like_by_pair_insert.
  unfold db_has_like in Hno. rewrite Hsd, Hrc in Hno.
  apply bool_decide_eq_false in Hno.
  destruct (like_by_pair (u_id rc) (u_id sd) d) as [l|]; [by destruct Hno|].
  rewrite (bool_decide_eq_false_2 (u_id sd = u_id rc)); [done|].
  by eapply distinct_users_distinct_keys.
Qed.

(** C10. [process_match_decision] enforces no precondition on either
    identity: in every store, whether or not [u] or [t] has a profile in
    memory or a row in the database, [decide(u,t,like)] inserts [t] into
    [u]'s in-memory like set, and it returns ["liked"] when no reverse like
    exists ([u] is not in [t]'s like set, the durable table has no row from
    [t] to [u], and [t] is another id than [u], the edge of a self-like
    being its own reverse).  The users table is keyed by [id]. *)
Theorem C10_like_needs_no_profile (faults : nat → bool) (s : store) (u t : Z) :
  u ≠ t →
  u ∉ set_of (likes s) t →
  db_has_like (db s) t u = false →
  NoDup (u_id <$> t_users (db s)) →
  ∃ s', run (process_match_decision u t true) faults s = (Ok "liked", s')
        ∧ t ∈ set_of (likes s') u.
Proof.
  intros Hne Hmem Hdb Hpk.
  assert (in_set_of (set_add u t (ensure_key u (likes s))) t u = false) as Hmem'.
  { apply in_set_of_false. rewrite elem_of_record. intros [[? ?]|?]; auto. }
  assert (t ∈ set_of (set_add u t (ensure_key u (likes s))) u) as Hins.
  { rewrite elem_of_record. tauto. }
  unfold process_match_decision. exec.
  all: try congruence.
  all: try (eexists; split; [reflexivity|]; by simpl).
  all: match goal with
       | H : like_by_pair _ _ (with_likes _ _) = Some _ |- _ =>
           erewrite no_reverse_after_insert in H by eauto; discriminate
       end.
Qed.

(** C10 at a store with no profile at all: user 7 likes user 9. *)
Lemma C10_like_needs_no_profile_witness :
  ∃ s', run (process_match_decision 7 9 true) all_faults empty_store = (Ok "liked", s')
        ∧ 9 ∈ set_of (likes s') 7.
Proof.
  apply (C10_like_needs_no_profile all_faults empty_store 7 9).
  - lia.
  - vm_compute. set_solver.
  - reflexivity.
  - simpl. constructor.
Defined.

(** *** The like store under repetition *)

Lemma like_rows_insert x y k a b m d :
  like_rows x y (with_likes (λ t, (t ++ [mkLike k a b m])%list) d)
  = (like_rows x y d ++ if bool_decide (a = x ∧ b = y) then [mkLike k a b m] else [])%list.
Proof.
  unfold like_rows. simpl. rewrite filter_app. f_equal.
  rewrite filter_cons, filter_nil. simpl.
  case_decide; case_bool_decide; tauto.
Qed.

Lemma like_rows_set_is_match x y k v d :
  length (like_rows x y (like_set_is_match k v d)) = length (like_rows x y d).
Proof.
  unfold like_rows, like_set_is_match. simpl.
  induction (t_likes d) as [|l ls IH]; [done|].
  rewrite fmap_cons, !filter_cons.
  case_bool_decide; simpl; repeat case_decide; simpl; try tauto; by rewrite IH.
Qed.

Lemma like_by_pair_None_rows x y d : like_by_pair x y d = None → like_rows x y d = [].
Proof.
  unfold like_by_pair, like_rows. intros H.
  induction (t_likes d) as [|l ls IH]; [done|].
  simpl in H. rewrite filter_cons.
  destruct (bool_decide (l_sender_id l = x) && bool_decide (l_receiver_id l = y)) eqn:E;
    [done|].
  destruct (decide (l_sender_id l = x ∧ l_receiver_id l = y)) as [[Hs Hr]|_];
    [|by apply IH].
  by rewrite !bool_decide_eq_true_2 in E.
Qed.

(** A like never adds a row for a pair that already has one. *)
Lemma process_like_rows faults s u t x y :
  (length (like_rows x y (db (run (process_match_decision u t true) faults s).2))
   ≤ Nat.max 1 (length (like_rows x y (db s))))%nat.
Proof.
  unfold process_match_decision. exec.
  all: rewrite ?like_rows_set_is_match, ?like_rows_insert, ?length_app.
  all: try lia.
  all: match goal with
       | H : like_by_pair _ _ (db _) = None |- _ =>
           case_bool_decide as Hxy;
           [destruct Hxy as [<- <-]; rewrite (like_by_pair_None_rows _ _ _ H)|];
           simpl; lia
       end.
Qed.

(** Liking twice leaves the in-memory like store as the first like left it,
    with the edge present, and no pair of users gets more than one row in
    the durable table unless it had more to begin with. *)
Lemma like_twice_one_edge faults s a b :
  ∃ v1 s1 v2 s2,
    run (process_match_decision a b true) faults s = (Ok v1, s1)
    ∧ run (process_match_decision a b true) faults s1 = (Ok v2, s2)
    ∧ likes s2 = likes s1
    ∧ b ∈ set_of (likes s2) a
    ∧ ∀ x y, (length (like_rows x y (db s2)) ≤ Nat.max 1 (length (like_rows x y (db s))))%nat.
Proof.
  destruct (process_like_spec faults s a b) as (v1 & s1 & Hrun1 & Hl1 & _).
  destruct (process_like_spec faults s1 a b) as (v2 & s2 & Hrun2 & Hl2 & _).
  exists v1, s1, v2, s2. repeat split; [done..| | |].
  - by rewrite Hl2, Hl1, record_idempotent.
  - rewrite Hl2, elem_of_record. tauto.
  - intros x y.
    pose proof (process_like_rows faults s a b x y) as H1.
    pose proof (process_like_rows faults s1 a b x y) as H2.
    unfold run in *. rewrite Hrun1 in H1. rewrite Hrun2 in H2. simpl in *. lia.
Qed.

(** With the reverse edge in memory, a like is a match however often it is
    repeated. *)
Lemma repeated_like_stays_matched faults s a b :
  a ∈ set_of (likes s) b →
  ∃ s1 s2,
    run (process_match_decision a b true) faults s = (Ok "match", s1)
    ∧ run (process_match_decision a b true) faults s1 = (Ok "match", s2).
Proof.
  intros Hba.
  destruct (like_back_matches faults s b a Hba) as (s1 & Hrun1 & _).
  destruct (process_like_spec faults s a b) as (v & s1' & Hrun1' & Hl & _).
  rewrite Hrun1 in Hrun1'. injection Hrun1' as <- <-.
  destruct (like_back_matches faults s1 b a) as (s2 & Hrun2 & _).
  { rewrite Hl, elem_of_record. tauto. }
  by exists s1, s2.
Qed.

(** The failed load leaves both profiles in memory and no like. *)
Lemma store_likes_not_loaded_memory :
  user_profiles store_likes_not_loaded !! 101 = Some (profile_of_user
    (user_row 1 101 "Abel" "male" "Addis Ababa University") [])
  ∧ likes store_likes_not_loaded = ∅
  ∧ db store_likes_not_loaded = db_bethel_likes_abel.
Proof. repeat split; vm_compute; reflexivity. Qed.

(** C2. Repeating [decide(A,B,like)] must not turn a matched outcome back
    into ["liked"].  In the store of a process whose start-up load failed
    at the likes, where Bethel's like of Abel is in the durable table and
    not in memory, Abel's like returns ["match"] and the same like repeated,
    with no decision of Bethel in between and no further failure, returns
    ["liked"]: the branch taken when the like row already exists does not
    look at its match flag. *)
Theorem C2_repeated_like_regresses :
  ∃ s1 s2,
    run (process_match_decision 101 102 true) (fails_at 4) store_likes_not_loaded
    = (Ok "match", s1)
    ∧ run (process_match_decision 101 102 true) (fails_at 4) s1 = (Ok "liked", s2)
    ∧ 102 ∈ set_of (matches s2) 101.
Proof.
  eexists _, _. split; [vm_compute; reflexivity|].
  split; [vm_compute; reflexivity|].
  vm_compute. set_solver.
Qed.

(** ** The shuffle *)

Section shuffle.
Context {A : Type}.
Implicit Types (l : list A) (i j : nat).

Lemma insert_head_Permutation l j a y :
  l !! j = Some y → y :: <[j := a]> l ≡ₚ a :: l.
Proof.
  revert j. induction l as [|z l IH]; intros [|j] Hj; simplify_eq/=.
  - apply Permutation_swap.
  - etrans; [apply Permutation_swap|]. rewrite (IH j Hj). apply Permutation_swap.
Qed.

Lemma swap_Permutation i j l : swap i j l ≡ₚ l.
Proof.
  unfold swap. revert i j. induction l as [|a l IH]; intros i j.
  - by destruct i, j.
  - destruct i as [|i], j as [|j]; simpl.
    + done.
    + destruct (l !! j) as [y|] eqn:Hj; [|done]. simpl.
      by apply insert_head_Permutation.
    + destruct (l !! i) as [y|] eqn:Hi; [|done]. simpl.
      by apply insert_head_Permutation.
    + specialize (IH i j).
      destruct (l !! i) as [xi|]; [|done]. destruct (l !! j) as [xj|]; [|done].
      simpl. by rewrite IH.
Qed.

Lemma shuffle_down_Permutation rnd i l : shuffle_down rnd i l ≡ₚ l.
Proof.
  revert l. induction i as [|i IH]; intros l; simpl; [done|].
  rewrite IH. apply swap_Permutation.
Qed.

Lemma shuffle_Permutation rnd l : shuffle rnd l ≡ₚ l.
Proof. apply shuffle_down_Permutation. Qed.

Lemma elem_of_shuffle rnd l x : x ∈ shuffle rnd l ↔ x ∈ l.
Proof. by rewrite shuffle_Permutation. Qed.
End shuffle.

(** ** Reading profiles and computing candidates *)

Lemma run_bind {A B} (m : M A) (k : A → M B) faults s :
  run (bind m k) faults s
  = match run m faults s with
    | (Ok a, s') => run (k a) faults s'
    | (Raised, s') => (Raised, s')
    end.
Proof. reflexivity. Qed.

(** [get_user_profile] returns normally; it leaves the relationship sets and
    the database alone, and the only profile entry it may change is the
    requested one, when it was missing. *)
Lemma get_user_profile_spec faults s u :
  ∃ r s',
    run (get_user_profile u) faults s = (Ok r, s')
    ∧ likes s' = likes s ∧ blocks s' = blocks s ∧ matches s' = matches s
    ∧ secret_crushes s' = secret_crushes s ∧ db s' = db s
    ∧ (∀ x, x ≠ u → user_profiles s' !! x = user_profiles s !! x)
    ∧ (∀ p, user_profiles s !! u = Some p → r = Some p ∧ s' = s).
Proof.
  unfold get_user_profile. exec.
  all: eexists _, _; split; [reflexivity|]; simpl.
  all: repeat split; try done.
  all: try (intros x Hx; by rewrite lookup_insert_ne).
Qed.

Lemma excluded_users_frame u s s' :
  likes s' = likes s → blocks s' = blocks s → matches s' = matches s →
  excluded_users u s' = excluded_users u s.
Proof. unfold excluded_users. by intros -> -> ->. Qed.

Lemma elem_of_scan (P : Z * profile → bool) (m : gmap Z profile) x :
  x ∈ (filter (λ e, P e = true) (map_to_list m)).*1
  ↔ ∃ px, m !! x = Some px ∧ P (x, px) = true.
Proof.
  rewrite list_elem_of_fmap. split.
  - intros ([k px] & -> & H). apply list_elem_of_filter in H as [HP H].
    apply elem_of_map_to_list in H. by exists px.
  - intros (px & Hx & HP). exists (x, px). split; [done|].
    apply list_elem_of_filter. split; [done|]. by apply elem_of_map_to_list.
Qed.

Lemma is_potential_match_ne u up ex x px :
  is_potential_match u up ex (x, px) = true → x ≠ u.
Proof.
  unfold is_potential_match. intros H ->.
  by rewrite bool_decide_eq_true_2 in H.
Qed.

(** The candidates of [data_store.get_potential_matches]: the profiles of the
    store that pass the scan, for the profile [get_user_profile] returned. *)
Lemma get_potential_matches_spec faults rnd s u :
  ∃ r l s',
    run (get_user_profile u) faults s = (Ok r, s')
    ∧ run (get_potential_matches rnd u) faults s = (Ok l, s')
    ∧ ∀ x, x ∈ l ↔ ∃ up px,
        r = Some up ∧ is_complete up = true
        ∧ user_profiles s !! x = Some px
        ∧ is_potential_match u up (excluded_users u s) (x, px) = true.
Proof.
  destruct (get_user_profile_spec faults s u)
    as (r & s' & Hrun & Hl & Hb & Hm & _ & _ & Hother & _).
  exists r. unfold get_potential_matches. rewrite run_bind, Hrun.
  destruct r as [up|]; simpl.
  - destruct (dict_is_empty up || negb (is_complete up)) eqn:E.
    + eexists _, _. do 2 (split; [reflexivity|]).
      intros x. split; [by intros ?%elem_of_nil|].
      intros (up' & px & [= <-] & Hc & _). rewrite Hc in E.
      destruct up as [[] [] [] [] [] [] [] [] [] [] [] [] []]; simpl in *; done.
    + eexists _, _. do 2 (split; [reflexivity|]).
      apply orb_false_iff in E as [_ E]. apply negb_false_iff in E.
      intros x. rewrite elem_of_shuffle, elem_of_scan.
      rewrite (excluded_users_frame u s s') by done.
      split.
      * intros (px & Hx & HP). exists up, px.
        rewrite <- Hother by (by eapply is_potential_match_ne). done.
      * intros (up' & px & [= <-] & _ & Hx & HP). exists px.
        rewrite Hother by (by eapply is_potential_match_ne). done.
  - eexists _, _. do 2 (split; [reflexivity|]).
    intros x. split; [by intros ?%elem_of_nil|]. by intros (? & ? & ? & _).
Qed.

Lemma candidates_spec faults rnd s u x :
  x ∈ candidates rnd faults s u ↔ ∃ up px,
    (run (get_user_profile u) faults s).1 = Ok (Some up) ∧ is_complete up = true
    ∧ user_profiles s !! x = Some px
    ∧ is_potential_match u up (excluded_users u s) (x, px) = true.
Proof.
  destruct (get_potential_matches_spec faults rnd s u) as (r & l & s' & Hr & Hrun & Hl).
  unfold candidates, returned. rewrite Hrun, Hr. simpl. rewrite Hl.
  split; intros (up & px & H & ?); exists up, px; split; auto; congruence.
Qed.

(** [get_potential_matches] always returns a list. *)
Lemma get_potential_matches_returns faults rnd s u :
  ∃ s', run (get_potential_matches rnd u) faults s = (Ok (candidates rnd faults s u), s').
Proof.
  destruct (get_potential_matches_spec faults rnd s u) as (r & l & s' & _ & Hrun & _).
  exists s'. unfold candidates, returned. by rewrite Hrun.
Qed.

Lemma gender_rejects_false ug og :
  gender_rejects ug og = false →
  (ug = Some "male" → og = Some "female") ∧ (ug = Some "female" → og = Some "male").
Proof.
  unfold gender_rejects, py_eq. intros H.
  apply orb_false_iff in H as [H1 H2].
  split; intros ->.
  - rewrite bool_decide_eq_true_2 in H1 by done. simpl in H1.
    apply negb_false_iff in H1. by apply bool_decide_eq_true in H1.
  - rewrite bool_decide_eq_true_2 in H2 by done. simpl in H2.
    apply negb_false_iff in H2. by apply bool_decide_eq_true in H2.
Qed.

Lemma is_potential_match_true u up ex x px :
  is_potential_match u up ex (x, px) = true ↔
    (x ≠ u ∧ is_complete px = true ∧ (x ∉ ex)
     ∧ gender_rejects (p_gender up) (p_gender px) = false
     ∧ university_accepts (get_targets up) (p_university px) = true).
Proof.
  unfold is_potential_match.
  destruct (decide (x = u)) as [->|Hne].
  { rewrite bool_decide_eq_true_2 by done. simpl. split; [done|tauto]. }
  rewrite (bool_decide_eq_false_2 (x = u)) by done. simpl.
  destruct (is_complete px); simpl; [|split; [done|tauto]].
  destruct (decide (x ∈ ex)) as [Hin|Hin].
  { rewrite bool_decide_eq_true_2 by done. split; [done|tauto]. }
  rewrite bool_decide_eq_false_2 by done.
  destruct (gender_rejects _ _); [split; [done|]; by intros (_ & _ & _ & ? & _)|].
  tauto.
Qed.

(** Within the two genders that the filter is written for it does what the
    claim says: [get_potential_matches] never returns the requester's own
    identity, and every profile it returns for a requester whose recorded
    gender is ["male"] is ["female"], and for one whose gender is ["female"]
    is ["male"]. *)
Lemma binary_genders_are_opposite
    (faults : nat → bool) (rnd : nat → nat) (s s' : store) (u x : Z) (l : list Z) :
  run (get_potential_matches rnd u) faults s = (Ok l, s') →
  x ∈ l →
  x ≠ u
  ∧ ∃ up px,
      (run (get_user_profile u) faults s).1 = Ok (Some up)
      ∧ user_profiles s !! x = Some px
      ∧ (p_gender up = Some "male" → p_gender px = Some "female")
      ∧ (p_gender up = Some "female" → p_gender px = Some "male").
Proof.
  intros Hrun Hx.
  assert (x ∈ candidates rnd faults s u) as Hc.
  { unfold candidates, returned. by rewrite Hrun. }
  apply candidates_spec in Hc as (up & px & Hup & _ & Hpx & Hpm).
  apply is_potential_match_true in Hpm as (Hne & _ & _ & Hg & _).
  split; [done|]. exists up, px. split; [done|]. split; [done|].
  by apply gender_rejects_false.
Qed.

(** The rows that the two [/register] commands wrote: no gender, no
    university, the default age. *)
Lemma store_started_registrations_rows :
  t_users (db store_started_registrations)
  = [ mkUser 1 201 "" 18 "" "" "" "" "" "" "";
      mkUser 2 202 "" 18 "" "" "" "" "" "" "" ].
Proof. vm_compute. reflexivity. Qed.

(** C3. [get_potential_matches] must never return a profile whose gender
    equals the requester's.  In the store reached by two [/register]
    commands, a restart and one choice each in the edit menu, both profiles
    are complete with the empty string as gender, and the requester 201 is
    offered 202: the gender test of the scan only fires for a requester
    whose gender is ["male"] or ["female"]. *)
Theorem C3_same_gender_candidate_is_offered :
  ∃ up px s',
    user_profiles store_edited_after_restart !! 201 = Some up
    ∧ user_profiles store_edited_after_restart !! 202 = Some px
    ∧ is_complete up = true ∧ is_complete px = true
    ∧ p_gender up = Some "" ∧ p_gender px = Some ""
    ∧ run (get_potential_matches (λ _, 0%nat) 201) no_faults store_edited_after_restart
      = (Ok [202], s').
Proof.
  eexists _, _, _.
  split; [vm_compute; reflexivity|]. split; [vm_compute; reflexivity|].
  do 4 (split; [reflexivity|]).
  vm_compute. reflexivity.
Qed.

(** ** The variant filter of [data_store_new.py] *)

Lemma candidates_new_spec faults rnd s u x :
  x ∈ candidates_new rnd faults s u ↔ ∃ up px,
    user_profiles s !! u = Some up ∧ is_complete up = true
    ∧ user_profiles s !! x = Some px
    ∧ New.is_potential_match u up s (x, px) = true.
Proof.
  unfold candidates_new, returned, New.get_potential_matches, New.get_user_profile.
  unfold_monad. simpl.
  destruct (user_profiles s !! u) as [up|] eqn:Hu; simpl.
  - destruct (dict_is_empty up || negb (is_complete up)) eqn:E; simpl.
    + split; [by intros ?%elem_of_nil|].
      intros (up' & px & [= <-] & Hc & _). rewrite Hc in E.
      destruct up as [[] [] [] [] [] [] [] [] [] [] [] [] []]; simpl in *; done.
    + apply orb_false_iff in E as [_ E]. apply negb_false_iff in E.
      rewrite elem_of_shuffle, elem_of_scan. split.
      * intros (px & Hx & HP). by exists up, px.
      * intros (up' & px & [= <-] & _ & Hx & HP). by exists px.
  - split; [by intros ?%elem_of_nil|]. by intros (? & ? & ? & _).
Qed.

(** The variant always returns a list too. *)
Lemma new_get_potential_matches_returns faults rnd s u :
  run (New.get_potential_matches rnd u) faults s = (Ok (candidates_new rnd faults s u), s).
Proof.
  unfold candidates_new, returned, New.get_potential_matches, New.get_user_profile.
  unfold_monad. simpl.
  destruct (user_profiles s !! u) as [up|]; simpl; [|done].
  by destruct (dict_is_empty up || negb (is_complete up)).
Qed.

(** The scan of the variant is the scan of [data_store.py] with one more
    test: the candidate must accept the requester's university. *)
Lemma new_is_potential_match u up s x px :
  New.is_potential_match u up s (x, px)
  = is_potential_match u up (excluded_users u s) (x, px)
    && university_accepts (get_targets px) (p_university up).
Proof.
  unfold New.is_potential_match, is_potential_match, excluded_users.
  destruct (bool_decide (x = u)); simpl; [done|].
  destruct (is_complete px); simpl; [|done].
  assert (bool_decide (x ∈ set_of (likes s) u) || bool_decide (x ∈ set_of (blocks s) u)
          || bool_decide (x ∈ blocked_by u (blocks s))
          || bool_decide (x ∈ set_of (matches s) u)
          = bool_decide (x ∈ set_of (likes s) u ∪ set_of (blocks s) u
                             ∪ blocked_by u (blocks s) ∪ set_of (matches s) u)) as ->.
  { repeat case_bool_decide; simpl; try done; set_solver. }
  destruct (bool_decide _); [done|].
  destruct (gender_rejects _ _); [done|].
  destruct (university_accepts (get_targets up) _),
           (university_accepts (get_targets px) _); done.
Qed.

(** C5 (as amended). On the same store, the filter of [data_store_new.py]
    returns exactly those candidates of the filter of [data_store.py] whose
    own target list contains "All" or the requester's university, the
    requester's profile being in memory (the variant does not read profiles
    from the database).  Its result is a subset of the other, whatever the
    two shuffles do. *)
Theorem C5_new_filter_refines_old
    (faults : nat → bool) (rnd rnd' : nat → nat) (s : store) (u x : Z) :
  x ∈ candidates_new rnd' faults s u
  ↔ (x ∈ candidates rnd faults s u
     ∧ ∃ up px, user_profiles s !! u = Some up ∧ user_profiles s !! x = Some px
                ∧ university_accepts (get_targets px) (p_university up) = true).
Proof.
  rewrite candidates_new_spec, candidates_spec. split.
  - intros (up & px & Hu & Hc & Hx & Hpm).
    rewrite new_is_potential_match in Hpm. apply andb_true_iff in Hpm as [Hpm Hacc].
    destruct (get_user_profile_spec faults s u) as (r & s' & Hrun & _ & _ & _ & _ & _ & _ & Hmem).
    destruct (Hmem up Hu) as [-> ->].
    split; [|by exists up, px].
    exists up, px. by rewrite Hrun.
  - intros [(up & px & Hr & Hc & Hx & Hpm) (up' & px' & Hu & Hx' & Hacc)].
    destruct (get_user_profile_spec faults s u) as (r & s' & Hrun & _ & _ & _ & _ & _ & _ & Hmem).
    destruct (Hmem up' Hu) as [-> ->]. rewrite Hrun in Hr. simpl in Hr.
    injection Hr as <-. rewrite Hx in Hx'. injection Hx' as <-.
    exists up', px. do 3 (split; [done|]).
    rewrite new_is_potential_match. by rewrite Hpm, Hacc.
Qed.

(** The two filters disagree on [store_two_profiles]: Bethel is a candidate
    for Abel in [data_store.py], and not in [data_store_new.py], because her
    target list does not contain his university. *)
Lemma C5_filters_disagree :
  ¬ filters_agree (λ _, 0%nat) no_faults store_two_profiles 101.
Proof.
  intros H. specialize (H 102). vm_compute in H.
  destruct H as [H _]. specialize (H (list_elem_of_here _ _)).
  by apply elem_of_nil in H.
Qed.

(** ** Unmatch and block *)

Lemma unmatch_spec faults s a b :
  ∃ s',
    run (unmatch_user_from_db a b) faults s = (Ok tt, s')
    ∧ matches s' = remove_match a b (matches s)
    ∧ likes s' = likes s ∧ blocks s' = blocks s
    ∧ user_profiles s' = user_profiles s
    ∧ secret_crushes s' = secret_crushes s
    ∧ t_users (db s') = t_users (db s)
    ∧ t_blocks (db s') = t_blocks (db s).
Proof.
  unfold unmatch_user_from_db. exec.
  all: eexists; split; [reflexivity|]; simpl; by repeat split.
Qed.

Lemma block_spec faults s a b :
  ∃ s',
    run (block_user_from_db a b) faults s = (Ok tt, s')
    ∧ matches s' = remove_match a b (matches s)
    ∧ blocks s' = set_add a b (ensure_key a (blocks s))
    ∧ likes s' = likes s
    ∧ user_profiles s' = user_profiles s
    ∧ secret_crushes s' = secret_crushes s
    ∧ t_users (db s') = t_users (db s).
Proof.
  unfold block_user_from_db. exec.
  all: eexists; split; [reflexivity|]; simpl; by repeat split.
Qed.

(** A liked user is never a candidate. *)
Lemma liked_not_candidate faults rnd s a b :
  b ∈ set_of (likes s) a → b ∉ candidates rnd faults s a.
Proof.
  intros Hl Hc. apply candidates_spec in Hc as (up & px & _ & _ & _ & Hpm).
  apply is_potential_match_true in Hpm as (_ & _ & Hex & _).
  apply Hex. unfold excluded_users. set_solver.
Qed.

(** C7 (as amended). Unmatch clears match membership only: for any users A
    and B, [unmatch(A,B)] removes each from the other's match set, leaves
    every other match membership as it is, creates no block edge (in memory
    or in the durable table) and leaves the like sets unchanged; so
    whichever of the two has the other in his like set in memory is not
    offered him as a candidate afterward. *)
Theorem C7_unmatch_keeps_likes
    (faults : nat → bool) (rnd : nat → nat) (s : store) (a b : Z) :
  ∃ s',
    run (unmatch_user_from_db a b) faults s = (Ok tt, s')
    ∧ (a ∉ set_of (matches s') b)
    ∧ (b ∉ set_of (matches s') a)
    ∧ (∀ x y, ¬ (x = a ∧ y = b) → ¬ (x = b ∧ y = a) →
         (y ∈ set_of (matches s') x ↔ y ∈ set_of (matches s) x))
    ∧ blocks s' = blocks s
    ∧ t_blocks (db s') = t_blocks (db s)
    ∧ likes s' = likes s
    ∧ (b ∈ set_of (likes s) a → b ∉ candidates rnd faults s' a)
    ∧ (a ∈ set_of (likes s) b → a ∉ candidates rnd faults s' b).
Proof.
  destruct (unmatch_spec faults s a b) as (s' & Hrun & Hm & Hl & Hb & _ & _ & _ & Hdb).
  exists s'. split; [done|].
  split. { rewrite Hm, elem_of_remove_match. tauto. }
  split. { rewrite Hm, elem_of_remove_match. tauto. }
  split. { intros x y H1 H2. rewrite Hm, elem_of_remove_match. tauto. }
  do 3 (split; [done|]).
  split; intros Hlike; apply liked_not_candidate; by rewrite Hl.
Qed.

(** C7 at the store where Abel and Bethel are matched through their two
    likes: after the unmatch neither is offered the other. *)
Lemma C7_unmatch_keeps_likes_witness :
  ∃ s',
    run (unmatch_user_from_db 101 102) no_faults store_matched = (Ok tt, s')
    ∧ (102 ∉ candidates (λ _, 0%nat) no_faults s' 101)
    ∧ (101 ∉ candidates (λ _, 0%nat) no_faults s' 102).
Proof.
  destruct (C7_unmatch_keeps_likes no_faults (λ _, 0%nat) store_matched 101 102)
    as (s' & Hrun & _ & _ & _ & _ & _ & _ & H1 & H2).
  exists s'. split; [exact Hrun|].
  split; [apply H1|apply H2]; vm_compute; set_solver.
Defined.

(** How Abel and Bethel are matched in [store_matched_by_durable_like]: each
    is in the other's match set, and only Abel's like is in memory. *)
Lemma store_matched_by_durable_like_memory :
  102 ∈ set_of (matches store_matched_by_durable_like) 101
  ∧ 101 ∈ set_of (matches store_matched_by_durable_like) 102
  ∧ 102 ∈ set_of (likes store_matched_by_durable_like) 101
  ∧ set_of (likes store_matched_by_durable_like) 102 = ∅.
Proof. repeat split; vm_compute; set_solver. Qed.

(** The claim for any matched users fails: in that store, after
    [unmatch(Abel, Bethel)], Bethel is offered Abel again. *)
Lemma C7_matched_without_like_edge :
  ¬ unmatched_are_kept_apart (λ _, 0%nat) (fails_at 4)
      store_matched_by_durable_like 101 102.
Proof.
  intros H.
  destruct store_matched_by_durable_like_memory as (Hab & Hba & _).
  destruct (H Hab Hba) as [_ Hout].
  apply Hout. vm_compute. apply list_elem_of_here.
Qed.

(** *** The match sets that the durable table encodes *)

Lemma elem_of_db_match_edges d a b :
  (a, b) ∈ db_match_edges d ↔ ∃ l x y,
    l ∈ t_likes d ∧ l_is_match l = true
    ∧ user_by_id (l_sender_id l) d = Some x ∧ user_by_id (l_receiver_id l) d = Some y
    ∧ u_telegram_id x = a ∧ u_telegram_id y = b.
Proof.
  unfold db_match_edges. rewrite list_elem_of_omap. split.
  - intros (l & Hl & H). destruct (l_is_match l) eqn:Hm; [|done].
    destruct (user_by_id (l_sender_id l) d) as [x|] eqn:Hx; [|done].
    destruct (user_by_id (l_receiver_id l) d) as [y|] eqn:Hy; [|done].
    injection H as <- <-. by exists l, x, y.
  - intros (l & x & y & Hl & Hm & Hx & Hy & <- & <-).
    exists l. split; [done|]. by rewrite Hm, Hx, Hy.
Qed.

Lemma user_by_id_Some i d x : user_by_id i d = Some x → x ∈ t_users d ∧ u_id x = i.
Proof.
  unfold user_by_id. intros H.
  apply find_Some_elem_of in H as [Hx Ht]. by apply bool_decide_eq_true in Ht.
Qed.

(** Telegram ids being unique, the row found by key for a telegram id is
    the row found by telegram id. *)
Lemma user_by_id_is_user_by_telegram_id d i x ua :
  NoDup (u_telegram_id <$> t_users d) →
  user_by_id i d = Some x → user_by_telegram_id (u_telegram_id x) d = Some ua →
  u_id ua = i.
Proof.
  intros Hnd Hx Hua.
  apply user_by_id_Some in Hx as [Hx <-].
  apply user_by_telegram_id_Some in Hua as [Hua Heq].
  f_equal. by eapply NoDup_fmap_inj_on.
Qed.

Lemma elem_of_clear_match_between a b d l :
  l ∈ t_likes (clear_match_between a b d) → l_is_match l = true →
  (¬ (l_sender_id l = a ∧ l_receiver_id l = b))
  ∧ (¬ (l_sender_id l = b ∧ l_receiver_id l = a)).
Proof.
  unfold clear_match_between. simpl. rewrite list_elem_of_fmap.
  intros (l0 & -> & _). destruct (between a b l0) eqn:E; simpl; [done|].
  intros _. unfold between in E. apply orb_false_iff in E as [E1 E2].
  split; intros [Hs Hr].
  - by rewrite !bool_decide_eq_true_2 in E1.
  - by rewrite !bool_decide_eq_true_2 in E2.
Qed.

(** Once the flags between two users are cleared, the table encodes no match
    between them. *)
Lemma cleared_not_matched d d' a b ua ub :
  NoDup (u_telegram_id <$> t_users d) →
  user_by_telegram_id a d = Some ua → user_by_telegram_id b d = Some ub →
  t_users d' = t_users d →
  t_likes d' = t_likes (clear_match_between (u_id ua) (u_id ub) d) →
  ¬ db_matched d' a b.
Proof.
  intros Hnd Ha Hb Hu Hl.
  assert (∀ i, user_by_id i d' = user_by_id i d) as Hid.
  { intros i. unfold user_by_id. by rewrite Hu. }
  intros [H|H]; apply elem_of_db_match_edges in H
    as (l & x & y & Hin & Hm & Hx & Hy & Htx & Hty);
    rewrite Hid in Hx, Hy; rewrite Hl in Hin;
    destruct (elem_of_clear_match_between _ _ _ _ Hin Hm) as [H1 H2].
  - apply H1. split.
    + symmetry. eapply user_by_id_is_user_by_telegram_id; [done..|by rewrite Htx].
    + symmetry. eapply user_by_id_is_user_by_telegram_id; [done..|by rewrite Hty].
  - apply H2. split.
    + symmetry. eapply user_by_id_is_user_by_telegram_id; [done..|by rewrite Htx].
    + symmetry. eapply user_by_id_is_user_by_telegram_id; [done..|by rewrite Hty].
Qed.

(** A user without a row takes part in no match of the table. *)
Lemma absent_not_matched d a b :
  user_by_telegram_id a d = None ∨ user_by_telegram_id b d = None →
  ¬ db_matched d a b.
Proof.
  intros Hnone [H|H]; apply elem_of_db_match_edges in H
    as (l & x & y & _ & _ & Hx & Hy & Htx & Hty);
    apply user_by_id_Some in Hx as [Hx _]; apply user_by_id_Some in Hy as [Hy _];
    destruct Hnone as [Hn|Hn].
  - by apply (user_by_telegram_id_None _ _ x Hn).
  - by apply (user_by_telegram_id_None _ _ y Hn).
  - by apply (user_by_telegram_id_None _ _ y Hn).
  - by apply (user_by_telegram_id_None _ _ x Hn).
Qed.

(** When no interaction with the durable store fails, block leaves no match
    between the two users in the table. *)
Lemma block_clears_durable_flags faults s a b :
  (∀ n, faults n = false) →
  NoDup (u_telegram_id <$> t_users (db s)) →
  ¬ db_matched (db (run (block_user_from_db a b) faults s).2) a b.
Proof.
  intros Hok Hnd. unfold block_user_from_db. exec.
  all: try match goal with H : _ = true |- _ => by rewrite Hok in H end.
  all: try (by apply absent_not_matched; auto).
  all: by eapply cleared_not_matched.
Qed.

(** C4 (as amended). [block(A,B)] removes each of A and B from the other's
    in-memory match set and records the block edge, whatever the durable
    store does; and when no interaction with the durable store fails (the
    telegram ids of the users table being unique, as its schema declares),
    the match flags of the durable relation encode no match between A and B
    afterward. *)
Theorem C4_block_severs_match (faults : nat → bool) (s : store) (a b : Z) :
  ∃ s',
    run (block_user_from_db a b) faults s = (Ok tt, s')
    ∧ (a ∉ set_of (matches s') b)
    ∧ (b ∉ set_of (matches s') a)
    ∧ b ∈ set_of (blocks s') a
    ∧ ((∀ n, faults n = false) →
       NoDup (u_telegram_id <$> t_users (db s)) →
       ¬ db_matched (db s') a b).
Proof.
  destruct (block_spec faults s a b) as (s' & Hrun & Hm & Hb & _).
  exists s'. split; [done|].
  split. { rewrite Hm, elem_of_remove_match. tauto. }
  split. { rewrite Hm, elem_of_remove_match. tauto. }
  split. { rewrite Hb, elem_of_record. tauto. }
  intros Hok Hnd.
  pose proof (block_clears_durable_flags faults s a b Hok Hnd) as H.
  unfold run in *. by rewrite Hrun in H.
Qed.

(** C4 at the store where Abel and Bethel are matched, the durable store
    working: no match is left in memory or in the table. *)
Lemma C4_block_severs_match_witness :
  ∃ s',
    run (block_user_from_db 101 102) no_faults store_matched = (Ok tt, s')
    ∧ (101 ∉ set_of (matches s') 102)
    ∧ (102 ∉ set_of (matches s') 101)
    ∧ 102 ∈ set_of (blocks s') 101
    ∧ ¬ db_matched (db s') 101 102.
Proof.
  destruct (C4_block_severs_match no_faults store_matched 101 102)
    as (s' & Hrun & Hm1 & Hm2 & Hb & Hdb).
  exists s'. do 4 (split; [assumption|]).
  apply Hdb.
  - reflexivity.
  - apply (bool_decide_unpack _). vm_compute. exact I.
Defined.

(** When the durable write fails, the match flags stay set: the statement
    without the proviso fails in the store where Abel and Bethel are
    matched, with a database that raises. *)
Lemma C4_durable_flags_survive_failure :
  db_matched (db store_matched) 101 102
  ∧ ¬ block_severs_match all_faults store_matched 101 102.
Proof.
  assert (db_matched (db store_matched) 101 102) as Hm.
  { left. vm_compute. apply list_elem_of_here. }
  split; [done|]. intros (_ & _ & H). apply H. exact Hm.
Qed.

(** ** Durable writes are guarded

    The [try] block of every write operation only talks to the database;
    such a block, wrapped in [try ... except Exception], returns normally
    and leaves the in-memory dictionaries as they were. *)

Section keeps_memory.
Context {A B : Type}.

Lemma keeps_ret (a : A) : keeps_memory (ret a).
Proof. by intros faults s. Qed.

Lemma keeps_raise : keeps_memory (@raise A).
Proof. by intros faults s. Qed.

Lemma keeps_db_step : keeps_memory db_step.
Proof. intros faults s. unfold db_step. by destruct (faults _). Qed.

Lemma keeps_bind (m : M A) (k : A → M B) :
  keeps_memory m → (∀ a, keeps_memory (k a)) → keeps_memory (bind m k).
Proof.
  intros Hm Hk faults s. unfold bind. specialize (Hm faults s).
  destruct (m faults s) as [[a|] s1]; simpl in *; [|done].
  by rewrite (Hk a faults s1).
Qed.

Lemma keeps_query (q : database → A) : keeps_memory (query q).
Proof. intros faults s. unfold_monad. by destruct (faults _). Qed.

Lemma keeps_statement f : keeps_memory (statement f).
Proof. intros faults s. unfold_monad. by destruct (faults _). Qed.

Lemma keeps_assign f : keeps_memory (assign f).
Proof. by intros faults s. Qed.

Lemma keeps_commit : keeps_memory commit.
Proof. intros faults s. unfold_monad. by destruct (faults _). Qed.

Lemma keeps_get_store (k : store → M B) :
  (∀ s, keeps_memory (k s)) → keeps_memory (bind get_store k).
Proof. intros Hk faults s. unfold bind, get_store. apply Hk. Qed.

Lemma keeps_try_except (body : M A) (fallback : A) :
  keeps_memory body → keeps_memory (try_except body fallback).
Proof.
  intros Hb faults s. unfold try_except. specialize (Hb faults s).
  by destruct (body faults s) as [[a|] s1].
Qed.

Lemma keeps_with_app_context (body : M A) :
  keeps_memory body → keeps_memory (with_app_context body).
Proof.
  intros Hb faults s. unfold with_app_context, bind, db_step.
  destruct (faults (clock s)); simpl; [done|].
  match goal with |- context [body faults ?s0] =>
    specialize (Hb faults s0); destruct (body faults s0) as [r s1] end.
  exact Hb.
Qed.

(** [try: with app.app_context(): body  except Exception: log] *)
Lemma guarded_returns (body : M A) (fallback : A) faults s :
  ∃ v s', run (try_except body fallback) faults s = (Ok v, s').
Proof.
  unfold run, try_except. destruct (body faults s) as [[a|] s1]; eauto.
Qed.
End keeps_memory.

Lemma keeps_for_each {A} (l : list A) (f : A → M unit) :
  (∀ x, keeps_memory (f x)) → keeps_memory (for_each l f).
Proof.
  intros Hf. induction l as [|x l IH]; simpl.
  - apply keeps_ret.
  - apply keeps_bind; [apply Hf | by intros _].
Qed.

Create HintDb keeps discriminated.
#[local] Hint Resolve keeps_ret keeps_raise keeps_db_step keeps_query keeps_statement
  keeps_assign keeps_commit keeps_try_except keeps_with_app_context : keeps.
#[local] Hint Extern 2 (keeps_memory (bind get_store _)) =>
  apply keeps_get_store; intros : keeps.
#[local] Hint Extern 3 (keeps_memory (bind _ _)) => apply keeps_bind; [|intros] : keeps.
#[local] Hint Extern 2 (keeps_memory (for_each _ _)) => apply keeps_for_each; intros : keeps.
#[local] Hint Extern 2 (keeps_memory (add_target_rows _ _)) => unfold add_target_rows : keeps.
#[local] Hint Extern 4 (keeps_memory (match ?x with _ => _ end)) => destruct x : keeps.

Ltac keeps := eauto 40 with keeps.

Lemma guarded_write_spec (body : M unit) faults s :
  keeps_memory body →
  ∃ s', run (try_except (with_app_context body) tt) faults s = (Ok tt, s')
        ∧ memory s' = memory s.
Proof.
  intros Hb.
  pose proof (keeps_try_except _ tt (keeps_with_app_context _ Hb) faults s) as Hk.
  destruct (guarded_returns (with_app_context body) tt faults s) as ([] & s' & Hrun).
  exists s'. split; [done|]. unfold run in Hrun. by rewrite Hrun in Hk.
Qed.

(** [save_user_profile] stores the profile in memory, whatever the database
    does, and returns. *)
Lemma save_user_profile_spec faults s u p :
  ∃ s', run (save_user_profile u p) faults s = (Ok tt, s')
        ∧ memory s' = memory (set_user_profiles <[u := p]> s).
Proof.
  unfold save_user_profile. rewrite run_bind. simpl.
  destruct (dict_is_empty p); [by eexists|].
  apply guarded_write_spec. keeps.
Qed.

(** ** The target-university step *)

Lemma memory_user_profiles s s' : memory s' = memory s → user_profiles s' = user_profiles s.
Proof. unfold memory. by intros [= ->]. Qed.

Lemma select_university_university u up :
  p_university (select_university u up) = p_university up.
Proof.
  unfold select_university.
  destruct (p_target_universities up); repeat case_bool_decide; done.
Qed.

Lemma get_targets_set v p : get_targets (set_target_universities v p) = v.
Proof. done. Qed.

Lemma select_university_targets u up :
  get_targets (select_university u up)
  = if bool_decide ("All" ∈ get_targets up) then [u]
    else if bool_decide (u ∈ get_targets up) then get_targets up
    else (get_targets up ++ [u])%list.
Proof.
  unfold select_university.
  destruct (p_target_universities up) as [l|] eqn:E.
  - assert (get_targets up = l) as -> by (unfold get_targets; by rewrite E).
    destruct (decide ("All" ∈ l)) as [Hall|Hall].
    + rewrite (bool_decide_eq_true_2 _ Hall). rewrite get_targets_set.
      rewrite (bool_decide_eq_true_2 (u ∉ [])) by apply not_elem_of_nil.
      by rewrite get_targets_set.
    + rewrite (bool_decide_eq_false_2 _ Hall).
      assert (get_targets up = l) as -> by (unfold get_targets; by rewrite E).
      destruct (decide (u ∈ l)) as [Hin|Hin].
      * rewrite (bool_decide_eq_false_2 (u ∉ l)) by tauto.
        rewrite (bool_decide_eq_true_2 _ Hin). unfold get_targets; by rewrite E.
      * rewrite (bool_decide_eq_true_2 (u ∉ l)) by done.
        by rewrite (bool_decide_eq_false_2 _ Hin), get_targets_set.
  - assert (get_targets up = []) as -> by (unfold get_targets; by rewrite E).
    rewrite get_targets_set.
    rewrite (bool_decide_eq_false_2 ("All" ∈ [])) by apply not_elem_of_nil.
    rewrite get_targets_set.
    rewrite (bool_decide_eq_true_2 (u ∉ [])) by apply not_elem_of_nil.
    rewrite (bool_decide_eq_false_2 (u ∈ [])) by apply not_elem_of_nil.
    by rewrite get_targets_set.
Qed.

Lemma handle_selection faults s uid up i u :
  user_profiles s !! uid = Some up →
  py_index get_university_list i = Some u →
  is_Some (p_university up) →
  ∃ s', run (handle_target_universities uid (target_index i)) faults s
        = (Ok TARGET_UNIVERSITIES, s')
        ∧ user_profiles s' !! uid = Some (select_university u up).
Proof.
  intros Hup Hi [uni Huni].
  destruct (get_user_profile_spec faults s uid) as (r & s0 & Hrun & _ & _ & _ & _ & _ & _ & Hmem).
  destruct (Hmem up Hup) as [-> ->].
  destruct (save_user_profile_spec faults s uid (select_university u up)) as (s' & Hsave & Hs').
  exists s'. unfold handle_target_universities.
  rewrite run_bind, Hrun, Hi, run_bind, Hsave, select_university_university, Huni.
  split; [done|].
  rewrite (memory_user_profiles _ _ Hs'). simpl. by rewrite lookup_insert_eq.
Qed.

(** C6 (as amended). In the TargetUniversities state, for a user whose
    profile is in memory: selecting a university adds it to the working set
    when it is absent and leaves the set unchanged when it is already there
    (nothing is removed; a previous "All" is replaced by the selection), the
    state staying TargetUniversities; "done" advances to Hobbies exactly when
    the working set is non-empty and otherwise leaves state and store as they
    are; "All" sets the working set to ["All"] and advances at once. *)
Theorem C6_target_universities_step (faults : nat → bool) (s : store) (uid : Z) (up : profile) :
  user_profiles s !! uid = Some up →
  (∀ i u, py_index get_university_list i = Some u → is_Some (p_university up) →
     ∃ s' up',
       run (handle_target_universities uid (target_index i)) faults s
       = (Ok TARGET_UNIVERSITIES, s')
       ∧ user_profiles s' !! uid = Some up'
       ∧ ("All" ∉ get_targets up → u ∈ get_targets up → get_targets up' = get_targets up)
       ∧ ("All" ∉ get_targets up → u ∉ get_targets up →
          get_targets up' = (get_targets up ++ [u])%list)
       ∧ ("All" ∈ get_targets up → get_targets up' = [u]))
  ∧ run (handle_target_universities uid target_done) faults s
    = (Ok (if bool_decide (get_targets up = []) then TARGET_UNIVERSITIES else HOBBIES), s)
  ∧ ∃ s' up',
      run (handle_target_universities uid target_all) faults s = (Ok HOBBIES, s')
      ∧ user_profiles s' !! uid = Some up'
      ∧ get_targets up' = ["All"].
Proof.
  intros Hup.
  destruct (get_user_profile_spec faults s uid) as (r & s0 & Hrun & _ & _ & _ & _ & _ & _ & Hmem).
  destruct (Hmem up Hup) as [-> ->].
  split; [|split].
  - intros i u Hi Huni.
    destruct (handle_selection faults s uid up i u Hup Hi Huni) as (s' & Hh & Hs').
    exists s', (select_university u up). split; [done|]. split; [done|].
    rewrite select_university_targets.
    repeat split; intros; repeat case_bool_decide; done.
  - unfold handle_target_universities. rewrite run_bind, Hrun. simpl.
    by case_bool_decide.
  - destruct (save_user_profile_spec faults s uid (set_target_universities ["All"] up))
      as (s' & Hsave & Hs').
    exists s', (set_target_universities ["All"] up).
    unfold handle_target_universities. rewrite run_bind, Hrun, run_bind, Hsave.
    split; [done|]. split; [|done].
    rewrite (memory_user_profiles _ _ Hs'). simpl. by rewrite lookup_insert_eq.
Qed.

(** C6 at the store of the registering user, for a second selection of
    Bahir Dar University (index 2): the working set is unchanged. *)
Lemma C6_target_universities_step_witness :
  ∃ s' up',
    run (handle_target_universities 301 (target_index 2)) no_faults store_registering
    = (Ok TARGET_UNIVERSITIES, s')
    ∧ user_profiles s' !! 301 = Some up'
    ∧ get_targets up' = ["Bahir Dar University"].
Proof.
  destruct (C6_target_universities_step no_faults store_registering 301 profile_registering)
    as [Hsel _]; [reflexivity|].
  destruct (Hsel 2 "Bahir Dar University") as (s' & up' & Hrun & Hup' & Hsame & _);
    [reflexivity | by eexists |].
  exists s', up'. split; [assumption|]. split; [assumption|].
  apply Hsame.
  - vm_compute. set_solver.
  - vm_compute. set_solver.
Defined.

(** Selecting an already selected university does not remove it. *)
Lemma C6_selection_does_not_toggle :
  ¬ selection_toggles no_faults store_registering 301 2.
Proof.
  intros H.
  destruct (handle_selection no_faults store_registering 301 profile_registering 2
              "Bahir Dar University") as (s' & Hrun & Hs'); [reflexivity..|by eexists|].
  eapply (H "Bahir Dar University" profile_registering); [reflexivity..| | | |].
  - apply list_elem_of_here.
  - exact Hrun.
  - exact Hs'.
  - apply list_elem_of_here.
Qed.

(** ** Secret crushes *)



(** A registered crush that is already in the in-memory set. *)
Lemma add_crush_again faults s u c name social photo :
  c ∈ set_of (secret_crushes s) u →
  run (add_secret_crush u (Some c) name social photo) faults s = (Ok "already_added", s).
Proof.
  intros Hin. unfold add_secret_crush. unfold_monad. simpl.
  assert (is_Some (secret_crushes s !! u)) as Hkey.
  { unfold set_of in Hin. destruct (secret_crushes s !! u); [done|]. set_solver. }
  rewrite (ensure_key_present _ _ Hkey).
  apply in_set_of_true in Hin. rewrite Hin. f_equal.
  destruct s; unfold set_secret_crushes; simpl in *.
  by rewrite (ensure_key_present _ _ Hkey).
Qed.

(** A registered crush that is not yet in the in-memory set. *)
Lemma add_crush_new faults s u c name social photo :
  c ∉ set_of (secret_crushes s) u →
  ∃ s', run (add_secret_crush u (Some c) name social photo) faults s = (Ok "added", s')
        ∧ secret_crushes s' = set_add u c (ensure_key u (secret_crushes s)).
Proof.
  intros Hin.
  rewrite <- (set_of_ensure_key _ u) in Hin. apply in_set_of_false in Hin.
  unfold add_secret_crush. exec.
  all: eexists; split; [reflexivity|]; done.
Qed.






(** ** Every write returns, with its in-memory update made *)

Lemma add_chat_message_spec faults s now a b text :
  ∃ s', run (add_chat_message now a b text) faults s = (Ok tt, s')
        ∧ chats s' !! (Z.min a b, Z.max a b)
          = Some (default [] (chats s !! (Z.min a b, Z.max a b)) ++ [mkChatMsg a now text])%list.
Proof.
  unfold add_chat_message. rewrite run_bind. simpl.
  match goal with |- context [run (try_except (with_app_context ?body) tt) faults ?s0] =>
    destruct (guarded_write_spec body faults s0) as (s' & Hrun & Hs'); [keeps|] end.
  exists s'. split; [done|].
  unfold memory in Hs'. injection Hs' as _ _ _ _ _ _ ->. simpl.
  by rewrite lookup_insert_eq.
Qed.

Lemma report_user_to_db_spec faults s u r reason :
  ∃ s', run (report_user_to_db u r reason) faults s = (Ok tt, s')
        ∧ reports s' !! u = Some (default [] (reports s !! u) ++ [r])%list.
Proof.
  unfold report_user_to_db. rewrite run_bind. simpl.
  match goal with |- context [run (try_except (with_app_context ?body) tt) faults ?s0] =>
    destruct (guarded_write_spec body faults s0) as (s' & Hrun & Hs'); [keeps|] end.
  exists s'. split; [done|].
  unfold memory in Hs'. injection Hs' as _ _ _ _ -> _ _. simpl.
  by rewrite lookup_insert_eq.
Qed.

Lemma add_external_crush_returns faults s u name social photo :
  ∃ v s', run (add_secret_crush u None name social photo) faults s = (Ok v, s')
          ∧ memory s' = memory s.
Proof.
  unfold add_secret_crush. case_bool_decide as Hname.
  - by eexists _, _.
  - exec. all: eexists _, _; split; [reflexivity|]; done.
Qed.

(** C9 (as amended). Durable-write failure is silent: every write
    operation of the store returns normally, for every pattern of failure
    of the durable store ([faults] is arbitrary, so also when each
    interaction raises); and for every operation whose datum has a place in
    the dictionaries, that is all but the external crush, the in-memory
    update, which is made before the database is touched, is in the
    resulting store. *)
Theorem C9_durable_failure_is_silent (faults : nat → bool) (s : store) (op : write_op) :
  ∃ s', run (perform op) faults s = (Ok tt, s')
        ∧ (has_in_memory_structure op = true → in_memory_update op s s').
Proof.
  destruct op as [u p|u m|u t [|]|u c|u n a p|now a b text|u b|u r reason|u t];
    cbn [perform in_memory_update has_in_memory_structure].
  - destruct (save_user_profile_spec faults s u p) as (s' & Hrun & Hs').
    exists s'. split; [done|]. intros _.
    rewrite (memory_user_profiles _ _ Hs'). simpl.
    split; [apply lookup_insert_eq|]. intros k Hk. by rewrite lookup_insert_ne.
  - eexists. split; [reflexivity|]. intros _ x y. simpl. apply elem_of_add_match.
  - destruct (process_like_spec faults s u t) as (v & s' & Hrun & Hl & _).
    exists s'. split; [by rewrite run_bind, Hrun|]. intros _ x y.
    rewrite Hl. apply elem_of_record.
  - by eexists.
  - destruct (decide (c ∈ set_of (secret_crushes s) u)) as [Hin|Hin].
    + exists s. split; [by rewrite run_bind, add_crush_again|]. intros _ x y.
      split; [tauto|]. by intros [[-> ->]|?].
    + destruct (add_crush_new faults s u c None None None Hin) as (s' & Hrun & Hs').
      exists s'. split; [by rewrite run_bind, Hrun|]. intros _ x y.
      rewrite Hs'. apply elem_of_record.
  - destruct (add_external_crush_returns faults s u n a p) as (v & s' & Hrun & Hs').
    exists s'. split; [by rewrite run_bind, Hrun|]. done.
  - destruct (add_chat_message_spec faults s now a b text) as (s' & Hrun & Hs').
    by exists s'.
  - destruct (block_spec faults s u b) as (s' & Hrun & Hm & Hb & _).
    exists s'. split; [done|]. intros _. split; intros x y.
    + rewrite Hb. apply elem_of_record.
    + rewrite Hm. apply elem_of_remove_match.
  - destruct (report_user_to_db_spec faults s u r reason) as (s' & Hrun & Hs').
    by exists s'.
  - destruct (unmatch_spec faults s u t) as (s' & Hrun & Hm & _).
    exists s'. split; [done|]. intros _ x y. rewrite Hm. apply elem_of_remove_match.
Qed.

(** C9 for [save_user_profile] with the database down: the call returns and
    the profile is in memory. *)
Lemma C9_durable_failure_is_silent_witness :
  ∃ s', run (perform (SaveProfile 101 profile_abel)) all_faults store_matched = (Ok tt, s')
        ∧ in_memory_update (SaveProfile 101 profile_abel) store_matched s'.
Proof.
  destruct (C9_durable_failure_is_silent all_faults store_matched
              (SaveProfile 101 profile_abel)) as (s' & Hrun & Hup).
  exists s'. split; [exact Hrun|]. apply Hup. reflexivity.
Defined.

(** With the durable store unavailable [get_secret_crushes] returns no
    external crush, whatever the store holds. *)
Lemma external_crushes_database_down s u : external_crushes all_faults s u = [].
Proof. reflexivity. Qed.

(** An external crush added while every interaction fails is recorded
    nowhere, though the call reports success. *)
Lemma external_crush_is_lost s u name social photo :
  name ≠ None → name ≠ Some "" →
  ∃ s', run (add_secret_crush u None name social photo) all_faults s
        = (Ok "added_external", s')
        ∧ memory s' = memory s ∧ db s' = db s.
Proof.
  intros Hn He. unfold add_secret_crush.
  rewrite bool_decide_eq_false_2 by (intros [?|?]; done).
  eexists. split; [reflexivity|]. done.
Qed.

(** The claim for every write operation fails at the external crush: it has
    no in-memory structure, so with the database down the entry that Abel
    adds cannot be read back. *)
Lemma C9_external_crush_is_not_kept :
  ¬ write_is_kept_in_memory all_faults store_matched
      (AddExternalCrush 101 (Some "Hana") (Some "@hana") None).
Proof.
  intros (s' & _ & e & He & _).
  rewrite external_crushes_database_down in He. by apply elem_of_nil in He.
Qed.

(** When the database raises at the first interaction, [save_user_profile]
    still returns, the profile is in memory and the database is as before. *)
Lemma save_user_profile_database_down s u p :
  ∃ s', run (save_user_profile u p) all_faults s = (Ok tt, s')
        ∧ user_profiles s' !! u = Some p ∧ db s' = db s.
Proof.
  unfold save_user_profile. unfold_monad. simpl.
  destruct (dict_is_empty p); eexists; (split; [reflexivity|]); simpl;
    by rewrite lookup_insert_eq.
Qed.

(** * Further properties of the store *)

(** ** The candidate list *)

Lemma elem_of_blocked_by u x (bl : gmap Z (gset Z)) :
  x ∈ blocked_by u bl ↔ u ∈ set_of bl x.
Proof.
  unfold blocked_by, set_of. rewrite elem_of_dom. split.
  - intros [vs H]. apply map_lookup_filter_Some in H as [H Hu]. by rewrite H.
  - intros H. destruct (bl !! x) as [vs|] eqn:E; [|set_solver].
    exists vs. apply map_lookup_filter_Some. by split.
Qed.

(** Whoever blocked the requester, and whomever the requester blocked, is
    never a candidate. *)
Lemma blocked_not_candidate faults rnd s a b :
  b ∈ set_of (blocks s) a ∨ a ∈ set_of (blocks s) b →
  b ∉ candidates rnd faults s a.
Proof.
  intros Hbl Hc. apply candidates_spec in Hc as (up & px & _ & _ & _ & Hpm).
  apply is_potential_match_true in Hpm as (_ & _ & Hex & _).
  apply Hex. unfold excluded_users.
  destruct Hbl as [H|H]; [set_solver|].
  apply elem_of_blocked_by in H. set_solver.
Qed.

(** X1. A block excludes in both directions: after [block_user_from_db(A,B)],
    whatever the durable store does, B is not a candidate for A and A is not
    a candidate for B. *)
Theorem block_excludes_both_ways
    (faults : nat → bool) (rnd : nat → nat) (s : store) (a b : Z) :
  ∃ s',
    run (block_user_from_db a b) faults s = (Ok tt, s')
    ∧ (b ∉ candidates rnd faults s' a)
    ∧ (a ∉ candidates rnd faults s' b).
Proof.
  destruct (block_spec faults s a b) as (s' & Hrun & _ & Hb & _).
  exists s'. split; [done|].
  assert (b ∈ set_of (blocks s') a) as Hin by (rewrite Hb, elem_of_record; tauto).
  split; apply blocked_not_candidate; auto.
Qed.

Lemma NoDup_scan {B} (P : Z * B → Prop) `{∀ e, Decision (P e)} (l : list (Z * B)) :
  NoDup l.*1 → NoDup (filter P l).*1.
Proof.
  induction l as [|[k v] l IH]; [done|].
  rewrite fmap_cons. intros [Hk Hnd]%NoDup_cons. rewrite filter_cons.
  destruct (decide (P (k, v))); [|by apply IH].
  rewrite fmap_cons. apply NoDup_cons. split; [|by apply IH].
  intros Hin. apply Hk. simpl in *.
  apply list_elem_of_fmap in Hin as ([k' v'] & -> & Hin).
  apply list_elem_of_filter in Hin as [_ Hin].
  apply list_elem_of_fmap. by exists (k', v').
Qed.

(** X2. No profile is offered twice: the list that
    [get_potential_matches] returns has no duplicates. *)
Theorem candidates_NoDup (faults : nat → bool) (rnd : nat → nat) (s : store) (u : Z) :
  ∃ s', run (get_potential_matches rnd u) faults s = (Ok (candidates rnd faults s u), s')
        ∧ NoDup (candidates rnd faults s u).
Proof.
  destruct (get_potential_matches_returns faults rnd s u) as (s' & Hrun).
  exists s'. split; [done|].
  unfold candidates, returned. clear Hrun.
  unfold get_potential_matches. rewrite run_bind.
  destruct (run (get_user_profile u) faults s) as [[[up|]|] s1]; simpl;
    try apply NoDup_nil_2.
  destruct (dict_is_empty up || negb (is_complete up)); simpl; [apply NoDup_nil_2|].
  rewrite shuffle_Permutation. apply NoDup_scan, NoDup_fst_map_to_list.
Qed.

(** X3. Only complete profiles take part in matching: a requester whose
    profile [get_user_profile] does not find, or finds incomplete, gets the
    empty list, and no incomplete profile is ever offered. *)
Theorem incomplete_profiles_do_not_match
    (faults : nat → bool) (rnd : nat → nat) (s : store) (u : Z) :
  (∀ r, (run (get_user_profile u) faults s).1 = Ok r →
        (r = None ∨ ∃ up, r = Some up ∧ is_complete up = false) →
        candidates rnd faults s u = [])
  ∧ (∀ x px, x ∈ candidates rnd faults s u → user_profiles s !! x = Some px →
             is_complete px = true).
Proof.
  split.
  - intros r Hr Hbad. apply elem_of_nil_inv. intros x Hx.
    apply candidates_spec in Hx as (up & px & Hup & Hc & _).
    rewrite Hr in Hup. injection Hup as ->.
    destruct Hbad as [?|(up' & [= <-] & Hinc)]; congruence.
  - intros x px Hx Hpx.
    apply candidates_spec in Hx as (up & px' & _ & _ & Hpx' & Hpm).
    rewrite Hpx in Hpx'. injection Hpx' as <-.
    by apply is_potential_match_true in Hpm as (_ & Hc & _).
Qed.

(** X3 for a user who is unknown to memory and database. *)
Lemma incomplete_profiles_do_not_match_witness :
  candidates (λ _, 0%nat) no_faults store_two_profiles 999 = []
  ∧ is_complete profile_bethel = true.
Proof.
  destruct (incomplete_profiles_do_not_match no_faults (λ _, 0%nat) store_two_profiles 999)
    as [H1 _].
  destruct (incomplete_profiles_do_not_match no_faults (λ _, 0%nat) store_two_profiles 101)
    as [_ H2].
  split.
  - apply (H1 None); [reflexivity|by left].
  - apply (H2 102 profile_bethel); [|reflexivity].
    vm_compute. apply list_elem_of_here.
Defined.

(** X4. A like takes the liked profile out of the requester's candidates,
    whatever its outcome and whatever the durable store does; a pass changes
    nothing in the store, so a passed profile can be offered again. *)
Theorem liked_profile_is_not_offered_again
    (faults : nat → bool) (rnd : nat → nat) (s : store) (u t : Z) :
  (∃ v s', run (process_match_decision u t true) faults s = (Ok v, s')
           ∧ t ∉ candidates rnd faults s' u)
  ∧ run (process_match_decision u t false) faults s = (Ok "passed", s).
Proof.
  split; [|done].
  destruct (process_like_spec faults s u t) as (v & s' & Hrun & Hl & _).
  exists v, s'. split; [done|].
  apply liked_not_candidate. rewrite Hl, elem_of_record. tauto.
Qed.

(** ** What each write leaves alone *)

Lemma block_memory faults s a b :
  ∃ s', run (block_user_from_db a b) faults s = (Ok tt, s')
        ∧ memory s' = memory (set_matches (remove_match a b)
                                (set_blocks (λ bl, set_add a b (ensure_key a bl)) s)).
Proof.
  unfold block_user_from_db. rewrite !run_bind. simpl.
  apply guarded_write_spec. keeps.
Qed.

Lemma unmatch_memory faults s a b :
  ∃ s', run (unmatch_user_from_db a b) faults s = (Ok tt, s')
        ∧ memory s' = memory (set_matches (remove_match a b) s).
Proof.
  unfold unmatch_user_from_db. rewrite !run_bind. simpl.
  apply guarded_write_spec. keeps.
Qed.

Lemma report_memory faults s u r reason :
  ∃ s', run (report_user_to_db u r reason) faults s = (Ok tt, s')
        ∧ memory s' = memory (set_reports (λ rs,
                                <[u := (default [] (rs !! u) ++ [r])%list]> rs) s).
Proof.
  unfold report_user_to_db. rewrite !run_bind. simpl.
  apply guarded_write_spec. keeps.
Qed.

Lemma chat_memory faults s now a b text :
  ∃ s', run (add_chat_message now a b text) faults s = (Ok tt, s')
        ∧ memory s' = memory (set_chats (λ c,
            <[(Z.min a b, Z.max a b) :=
                (default [] (c !! (Z.min a b, Z.max a b)) ++ [mkChatMsg a now text])%list]> c) s).
Proof.
  unfold add_chat_message. rewrite !run_bind. simpl.
  apply guarded_write_spec. keeps.
Qed.

Lemma add_crush_new_memory faults s u c name social photo :
  c ∉ set_of (secret_crushes s) u →
  ∃ s', run (add_secret_crush u (Some c) name social photo) faults s = (Ok "added", s')
        ∧ memory s' = memory (set_secret_crushes (λ m, set_add u c (ensure_key u m)) s).
Proof.
  intros Hin.
  rewrite <- (set_of_ensure_key _ u) in Hin. apply in_set_of_false in Hin.
  unfold add_secret_crush. exec.
  all: eexists; split; [reflexivity|]; done.
Qed.

Lemma record_present (m : gmap Z (gset Z)) k v :
  v ∈ set_of m k → set_add k v (ensure_key k m) = m.
Proof.
  intros Hin.
  assert (is_Some (m !! k)) as Hkey.
  { unfold set_of in Hin. destruct (m !! k); [done|]. set_solver. }
  rewrite (ensure_key_present _ _ Hkey). destruct Hkey as [vs Hvs].
  unfold set_add. apply map_eq. intros i. rewrite lookup_alter.
  case_decide; [subst i|done]. rewrite Hvs. simpl. f_equal.
  unfold set_of in Hin. rewrite Hvs in Hin. simpl in Hin. set_solver.
Qed.

Lemma add_crush_memory faults s u c name social photo :
  ∃ v s', run (add_secret_crush u (Some c) name social photo) faults s = (Ok v, s')
          ∧ memory s' = memory (set_secret_crushes
                                  (λ m, set_add u c (ensure_key u m)) s)
          ∧ (v = "already_added" ∧ c ∈ set_of (secret_crushes s) u
             ∨ v = "added" ∧ c ∉ set_of (secret_crushes s) u).
Proof.
  destruct (decide (c ∈ set_of (secret_crushes s) u)) as [Hin|Hin].
  - exists "already_added", s. rewrite add_crush_again by done.
    split; [done|]. split; [|by left].
    unfold memory. simpl. by rewrite record_present.
  - destruct (add_crush_new_memory faults s u c name social photo Hin) as (s' & Hrun & Hs').
    exists "added", s'. split; [done|]. split; [done|by right].
Qed.

Lemma process_like_memory faults s u t :
  ∃ v s', run (process_match_decision u t true) faults s = (Ok v, s')
          ∧ ∃ m, memory s' = memory (set_matches (λ _, m)
                                       (set_likes (λ l, set_add u t (ensure_key u l)) s))
                 ∧ (m = matches s ∨ m = add_match u t (matches s)
                    ∨ m = add_match u t (add_match u t (matches s))).
Proof.
  unfold process_match_decision. exec.
  all: eexists _, _; split; [reflexivity|]; eexists; split; [reflexivity|]; simpl; auto.
Qed.

Lemma memory_fields s s' :
  memory s' = memory s →
  user_profiles s' = user_profiles s ∧ matches s' = matches s ∧ likes s' = likes s
  ∧ blocks s' = blocks s ∧ reports s' = reports s
  ∧ secret_crushes s' = secret_crushes s ∧ chats s' = chats s.
Proof. unfold memory. intros [= -> -> -> -> -> -> ->]. done. Qed.

(** The shape of what one write does to likes, blocks and matches. *)
Lemma perform_shape faults s op :
  ∃ s', run (perform op) faults s = (Ok tt, s')
    ∧ (likes s' = likes s ∨ ∃ a b, likes s' = set_add a b (ensure_key a (likes s)))
    ∧ (blocks s' = blocks s ∨ ∃ a b, blocks s' = set_add a b (ensure_key a (blocks s)))
    ∧ (matches s' = matches s
       ∨ ∃ a b, matches s' = add_match a b (matches s)
                ∨ matches s' = add_match a b (add_match a b (matches s))
                ∨ matches s' = remove_match a b (matches s)).
Proof.
  destruct op as [u p|u m|u t [|]|u c|u n a p|now a b text|u b|u r reason|u t];
    cbn [perform].
  - destruct (save_user_profile_spec faults s u p) as (s' & Hrun & Hs').
    apply memory_fields in Hs' as (_ & Hm & Hl & Hb & _).
    exists s'. split; [done|]. simpl in *. rewrite Hm, Hl, Hb.
    split; [by left|split; by left].
  - eexists. split; [reflexivity|]. simpl.
    split; [by left|]. split; [by left|]. right. exists u, m. by left.
  - destruct (process_like_memory faults s u t) as (v & s' & Hrun & m & Hs' & Hm).
    apply memory_fields in Hs' as (_ & Hm' & Hl & Hb & _). simpl in *.
    exists s'. split; [by rewrite run_bind, Hrun|].
    split; [rewrite Hl; eauto|]. split; [rewrite Hb; auto|].
    rewrite Hm'. destruct Hm as [->| [-> | ->]]; eauto 10.
  - exists s. split; [reflexivity|]. split; [by left|split; by left].
  - destruct (add_crush_memory faults s u c None None None) as (v & s' & Hrun & Hs' & _).
    apply memory_fields in Hs' as (_ & Hm & Hl & Hb & _).
    exists s'. split; [by rewrite run_bind, Hrun|]. simpl in *. rewrite Hm, Hl, Hb.
    split; [by left|split; by left].
  - destruct (add_external_crush_returns faults s u n a p) as (v & s' & Hrun & Hs').
    apply memory_fields in Hs' as (_ & Hm & Hl & Hb & _).
    exists s'. split; [by rewrite run_bind, Hrun|]. rewrite Hm, Hl, Hb.
    split; [by left|split; by left].
  - destruct (chat_memory faults s now a b text) as (s' & Hrun & Hs').
    apply memory_fields in Hs' as (_ & Hm & Hl & Hb & _).
    exists s'. split; [done|]. simpl in *. rewrite Hm, Hl, Hb.
    split; [by left|split; by left].
  - destruct (block_memory faults s u b) as (s' & Hrun & Hs').
    apply memory_fields in Hs' as (_ & Hm & Hl & Hb & _).
    exists s'. split; [done|]. simpl in *. rewrite Hm, Hl, Hb.
    split; [by left|]. split; [right; by exists u, b|]. right. exists u, b. auto.
  - destruct (report_memory faults s u r reason) as (s' & Hrun & Hs').
    apply memory_fields in Hs' as (_ & Hm & Hl & Hb & _).
    exists s'. split; [done|]. simpl in *. rewrite Hm, Hl, Hb.
    split; [by left|split; by left].
  - destruct (unmatch_memory faults s u t) as (s' & Hrun & Hs').
    apply memory_fields in Hs' as (_ & Hm & Hl & Hb & _).
    exists s'. split; [done|]. simpl in *. rewrite Hm, Hl, Hb.
    split; [by left|]. split; [by left|]. right. exists u, t. auto.
Qed.

(** X5. Likes and blocks only grow: no write operation of the store removes
    a like edge or a block edge from memory (there is no unlike and no
    unblock, and neither unmatch nor block touches the likes). *)
Theorem likes_and_blocks_only_grow
    (faults : nat → bool) (s : store) (op : write_op) (a : Z) :
  ∃ s', run (perform op) faults s = (Ok tt, s')
        ∧ set_of (likes s) a ⊆ set_of (likes s') a
        ∧ set_of (blocks s) a ⊆ set_of (blocks s') a.
Proof.
  destruct (perform_shape faults s op) as (s' & Hrun & Hl & Hb & _).
  exists s'. split; [done|]. split.
  - destruct Hl as [->|(x & y & ->)]; [done|].
    intros z Hz. rewrite elem_of_record. tauto.
  - destruct Hb as [->|(x & y & ->)]; [done|].
    intros z Hz. rewrite elem_of_record. tauto.
Qed.

Lemma symmetric_add_match m a b :
  symmetric_matches m → symmetric_matches (add_match a b m).
Proof.
  intros Hs x y. rewrite !elem_of_add_match.
  intros [[-> ->]|[[-> ->]|H]]; auto.
Qed.

Lemma symmetric_remove_match m a b :
  symmetric_matches m → symmetric_matches (remove_match a b m).
Proof.
  intros Hs x y. rewrite !elem_of_remove_match.
  intros (H & H1 & H2). split; [by apply Hs|]. tauto.
Qed.

(** X6. The match relation stays symmetric: if each user in a match set has
    the owner of the set in his own, this is still so after any write
    operation, whatever the durable store does. *)
Theorem matches_stay_symmetric (faults : nat → bool) (s : store) (op : write_op) :
  symmetric_matches (matches s) →
  ∃ s', run (perform op) faults s = (Ok tt, s') ∧ symmetric_matches (matches s').
Proof.
  intros Hsym.
  destruct (perform_shape faults s op) as (s' & Hrun & _ & _ & Hm).
  exists s'. split; [done|].
  destruct Hm as [->|(x & y & [->|[->| ->]])];
    auto using symmetric_add_match, symmetric_remove_match.
Qed.

(** X6 for a block in the store where Abel and Bethel are matched. *)
Lemma matches_stay_symmetric_witness :
  ∃ s', run (perform (BlockUser 101 102)) all_faults store_matched = (Ok tt, s')
        ∧ symmetric_matches (matches s').
Proof.
  apply (matches_stay_symmetric all_faults store_matched (BlockUser 101 102)).
  intros a b. unfold store_matched, mutual_sets, set_of. simpl.
  destruct (decide (a = 101)) as [->|Ha].
  - rewrite lookup_insert_eq. simpl. intros ->%elem_of_singleton.
    vm_compute. set_solver.
  - rewrite lookup_insert_ne by done.
    destruct (decide (a = 102)) as [->|Hb].
    + rewrite lookup_insert_eq. simpl. intros ->%elem_of_singleton.
      vm_compute. set_solver.
    + rewrite lookup_insert_ne by done. rewrite lookup_empty. simpl. set_solver.
Defined.

(** ** Round trips and compositions of the store operations *)

(** X7. A saved profile is read back from memory: after
    [save_user_profile(u, p)], whatever the durable store did,
    [get_user_profile(u)] returns [p] without any interaction with the
    durable store (the store, with its count of interactions, is unchanged). *)
Theorem saved_profile_is_read_back
    (faults faults' : nat → bool) (s : store) (u : Z) (p : profile) :
  ∃ s1, run (save_user_profile u p) faults s = (Ok tt, s1)
        ∧ run (get_user_profile u) faults' s1 = (Ok (Some p), s1).
Proof.
  destruct (save_user_profile_spec faults s u p) as (s1 & Hrun & Hm).
  exists s1. split; [done|].
  apply memory_fields in Hm as (Hp & _). simpl in Hp.
  destruct (get_user_profile_spec faults' s1 u) as (r & s2 & Hget & _ & _ & _ & _ & _ & _ & Hhit).
  destruct (Hhit p) as [-> ->]; [by rewrite Hp, lookup_insert_eq|].
  done.
Qed.

(** X8. An unmatch is undone by a repeated like: the like edges survive the
    unmatch, so when B has liked A, A's like after [unmatch_user_from_db(A,B)]
    is a match again. *)
Theorem unmatch_is_undone_by_a_like (faults : nat → bool) (s : store) (a b : Z) :
  a ∈ set_of (likes s) b →
  ∃ s1 s2,
    run (unmatch_user_from_db a b) faults s = (Ok tt, s1)
    ∧ (b ∉ set_of (matches s1) a)
    ∧ run (process_match_decision a b true) faults s1 = (Ok "match", s2)
    ∧ b ∈ set_of (matches s2) a ∧ a ∈ set_of (matches s2) b.
Proof.
  intros Hl.
  destruct (unmatch_spec faults s a b) as (s1 & Hrun & Hm & Hl1 & _).
  assert (a ∈ set_of (likes s1) b) as Hl' by (by rewrite Hl1).
  destruct (like_back_matches faults s1 b a Hl') as (s2 & Hrun2 & H1 & H2).
  exists s1, s2. split; [done|]. split; [|done].
  rewrite Hm, elem_of_remove_match. tauto.
Qed.

(** X8 in the store where Abel and Bethel are matched. *)
Lemma unmatch_is_undone_by_a_like_witness :
  ∃ s1 s2,
    run (unmatch_user_from_db 101 102) all_faults store_matched = (Ok tt, s1)
    ∧ (102 ∉ set_of (matches s1) 101)
    ∧ run (process_match_decision 101 102 true) all_faults s1 = (Ok "match", s2)
    ∧ 102 ∈ set_of (matches s2) 101 ∧ 101 ∈ set_of (matches s2) 102.
Proof.
  apply (unmatch_is_undone_by_a_like all_faults store_matched 101 102).
  vm_compute. set_solver.
Defined.

(** X9. A block does not stop a match: [process_match_decision] never looks
    at the blocks, so when A has liked B and then blocks B, a like of A by B
    is a match, with the block still in place. *)
Theorem block_does_not_stop_a_match (faults : nat → bool) (s : store) (a b : Z) :
  b ∈ set_of (likes s) a →
  ∃ s1 s2,
    run (block_user_from_db a b) faults s = (Ok tt, s1)
    ∧ run (process_match_decision b a true) faults s1 = (Ok "match", s2)
    ∧ b ∈ set_of (matches s2) a ∧ a ∈ set_of (matches s2) b
    ∧ b ∈ set_of (blocks s2) a.
Proof.
  intros Hl.
  destruct (block_spec faults s a b) as (s1 & Hrun & _ & Hb & Hl1 & _).
  assert (b ∈ set_of (likes s1) a) as Hl' by (by rewrite Hl1).
  destruct (like_back_matches faults s1 a b Hl') as (s2 & Hrun2 & H1 & H2).
  destruct (process_like_spec faults s1 b a) as (v & s2' & Hrun2' & _ & _ & Hb2 & _).
  rewrite Hrun2 in Hrun2'. injection Hrun2' as <- <-.
  exists s1, s2. do 4 (split; [done|]).
  rewrite Hb2, Hb, elem_of_record. tauto.
Qed.

(** X9 in the store where Abel and Bethel are matched. *)
Lemma block_does_not_stop_a_match_witness :
  ∃ s1 s2,
    run (block_user_from_db 101 102) all_faults store_matched = (Ok tt, s1)
    ∧ run (process_match_decision 102 101 true) all_faults s1 = (Ok "match", s2)
    ∧ 102 ∈ set_of (matches s2) 101 ∧ 101 ∈ set_of (matches s2) 102
    ∧ 102 ∈ set_of (blocks s2) 101.
Proof.
  apply (block_does_not_stop_a_match all_faults store_matched 101 102).
  vm_compute. set_solver.
Defined.

Lemma check_mutual_crush_memory faults s a b :
  b ∈ set_of (secret_crushes s) a → a ∈ set_of (secret_crushes s) b →
  run (check_mutual_crush a b) faults s = (Ok true, s).
Proof.
  intros Hab Hba. unfold check_mutual_crush, run, bind, get_store.
  rewrite !bool_decide_eq_true_2 by done. reflexivity.
Qed.

(** X10. A crush declared in both directions is mutual: after
    [add_secret_crush(A,B)] and [add_secret_crush(B,A)], whatever each call
    returns and whatever the durable store does, [check_mutual_crush]
    answers [True] for the pair in either order, from memory alone. *)
Theorem mutual_crush_is_detected (faults : nat → bool) (s : store) (a b : Z) :
  ∃ v1 s1 v2 s2,
    run (add_secret_crush a (Some b) None None None) faults s = (Ok v1, s1)
    ∧ run (add_secret_crush b (Some a) None None None) faults s1 = (Ok v2, s2)
    ∧ run (check_mutual_crush a b) faults s2 = (Ok true, s2)
    ∧ run (check_mutual_crush b a) faults s2 = (Ok true, s2).
Proof.
  destruct (add_crush_memory faults s a b None None None) as (v1 & s1 & Hrun1 & Hm1 & _).
  destruct (add_crush_memory faults s1 b a None None None) as (v2 & s2 & Hrun2 & Hm2 & _).
  apply memory_fields in Hm1 as (_ & _ & _ & _ & _ & Hc1 & _).
  apply memory_fields in Hm2 as (_ & _ & _ & _ & _ & Hc2 & _).
  simpl in Hc1, Hc2.
  assert (b ∈ set_of (secret_crushes s2) a ∧ a ∈ set_of (secret_crushes s2) b) as [Hab Hba].
  { rewrite Hc2, !elem_of_record, Hc1, !elem_of_record. tauto. }
  exists v1, s1, v2, s2. do 2 (split; [done|]).
  split; by apply check_mutual_crush_memory.
Qed.

(** X11. [check_mutual_crush] does not depend on the order of its arguments
    and only reads: for every pattern of failures the two orders give the
    same answer and the same store, whose dictionaries and durable content
    are those before the call. *)
Theorem check_mutual_crush_symmetric (faults : nat → bool) (s : store) (a b : Z) :
  ∃ v s',
    run (check_mutual_crush a b) faults s = (Ok v, s')
    ∧ run (check_mutual_crush b a) faults s = (Ok v, s')
    ∧ memory s' = memory s ∧ db s' = db s.
Proof.
  unfold check_mutual_crush, run.
  unfold_monad. cbn beta iota.
  set (x := bool_decide (b ∈ set_of (secret_crushes s) a)).
  set (y := bool_decide (a ∈ set_of (secret_crushes s) b)).
  rewrite (andb_comm y x).
  destruct (x && y) eqn:Em; [by eexists _, _|].
  simpl.
  destruct (faults (clock s)); simpl; [by eexists _, _|].
  destruct (faults (S (clock s))); simpl; [by eexists _, _|].
  destruct (faults (S (S (clock s)))); simpl; [by eexists _, _|].
  destruct (user_by_telegram_id a (db s)) as [ua|], (user_by_telegram_id b (db s)) as [ub|];
    simpl; try (by eexists _, _).
  destruct (faults (S (S (S (clock s))))); simpl; [by eexists _, _|].
  destruct (faults (S (S (S (S (clock s)))))); simpl; [by eexists _, _|].
  eexists _, _. split; [reflexivity|]. split; [|done].
  by rewrite andb_comm.
Qed.

(** X12. A saved match is listed on both sides until it is removed:
    after [save_match(A,B)], [get_matches] lists B for A and A for B, without
    repetition; after [unmatch_user_from_db(B,A)], called by either side and
    whatever the durable store does, neither lists the other. *)
Theorem saved_match_is_listed_until_unmatched (faults : nat → bool) (s : store) (a b : Z) :
  ∃ s1 s2 la lb la' lb',
    run (save_match a b) faults s = (Ok tt, s1)
    ∧ run (get_matches a) faults s1 = (Ok la, s1)
    ∧ run (get_matches b) faults s1 = (Ok lb, s1)
    ∧ b ∈ la ∧ a ∈ lb ∧ NoDup la ∧ NoDup lb
    ∧ run (unmatch_user_from_db b a) faults s1 = (Ok tt, s2)
    ∧ run (get_matches a) faults s2 = (Ok la', s2)
    ∧ run (get_matches b) faults s2 = (Ok lb', s2)
    ∧ (b ∉ la') ∧ (a ∉ lb').
Proof.
  destruct (unmatch_spec faults (set_matches (add_match a b) s) b a)
    as (s2 & Hrun & Hm & _).
  exists (set_matches (add_match a b) s), s2,
    (elements (set_of (add_match a b (matches s)) a)),
    (elements (set_of (add_match a b (matches s)) b)),
    (elements (set_of (matches s2) a)), (elements (set_of (matches s2) b)).
  split; [reflexivity|]. split; [reflexivity|]. split; [reflexivity|].
  split; [apply elem_of_elements; rewrite elem_of_add_match; tauto|].
  split; [apply elem_of_elements; rewrite elem_of_add_match; tauto|].
  split; [apply NoDup_elements|]. split; [apply NoDup_elements|].
  split; [exact Hrun|]. split; [reflexivity|]. split; [reflexivity|].
  split; intros Hin%elem_of_elements; revert Hin;
    rewrite Hm, elem_of_remove_match; tauto.
Qed.

(** ** Reading the secret crushes *)

Lemma attempt_query {A} (q : database → A) faults s :
  run (attempt (query q)) faults s
  = (Ok (if faults (clock s) then None else Some (q (session s))),
     set_clock (S (clock s)) s).
Proof.
  unfold attempt. unfold_monad. simpl. by destruct (faults (clock s)).
Qed.

(** What the loop of [get_secret_crushes] returns, for every pattern of
    failures: it only appends, it keeps the list of identities free of
    repetitions, and whatever it appends comes from a row it was given. *)
Lemma scan_crushes_spec rows : ∀ reg ext faults s,
  NoDup reg →
  ∃ reg' ext' s',
    run (scan_crushes rows reg ext) faults s = (Ok (reg', ext'), s')
    ∧ NoDup reg'
    ∧ (∀ c, c ∈ reg → c ∈ reg')
    ∧ (∀ c, c ∈ reg' → c ∈ reg ∨ ∃ row crushee i,
          row ∈ rows ∧ sc_crushee_id row = Some i
          ∧ user_by_id i (session s) = Some crushee ∧ u_telegram_id crushee = c)
    ∧ (∀ e, e ∈ ext' → e ∈ ext ∨ ∃ row,
          row ∈ rows ∧ sc_crushee_id row = None ∧ e = external_entry row)
    ∧ memory s' = memory s ∧ db s' = db s ∧ session s' = session s.
Proof.
  induction rows as [|row rows IH]; intros reg ext faults s Hnd.
  { exists reg, ext, s. simpl. split; [done|]. repeat split; auto. }
  cbn [scan_crushes]. destruct (sc_crushee_id row) as [i|] eqn:Ei.
  - rewrite run_bind, attempt_query.
    destruct (faults (clock s)).
    { eexists reg, ext, _. split; [reflexivity|]. repeat split; auto. }
    set (s1 := set_clock (S (clock s)) s).
    destruct (user_by_id i (session s)) as [c|] eqn:Ec.
    + destruct (bool_decide (u_telegram_id c ∈ reg)) eqn:Ein.
      * destruct (IH reg ext faults s1 Hnd)
          as (reg' & ext' & s' & Hrun & Hnd' & Hsub & Hreg & Hext & Hm & Hd & Hs).
        exists reg', ext', s'. split; [done|]. split; [done|]. split; [done|].
        split; [|split; [|done]].
        -- intros x Hx. destruct (Hreg x Hx) as [?|(r & cr & j & Hr & ?)]; [by left|].
           right. exists r, cr, j. split; [by right|done].
        -- intros e He. destruct (Hext e He) as [?|(r & Hr & ?)]; [by left|].
           right. exists r. split; [by right|done].
      * apply bool_decide_eq_false in Ein.
        assert (NoDup (reg ++ [u_telegram_id c])) as Hnd1.
        { apply NoDup_app. split; [done|]. split; [|apply NoDup_singleton].
          intros x Hx ->%list_elem_of_singleton. done. }
        destruct (IH (reg ++ [u_telegram_id c])%list ext faults s1 Hnd1)
          as (reg' & ext' & s' & Hrun & Hnd' & Hsub & Hreg & Hext & Hm & Hd & Hs).
        exists reg', ext', s'. split; [done|]. split; [done|].
        split; [intros x Hx; apply Hsub, elem_of_app; by left|].
        split; [|split; [|done]].
        -- intros x Hx. destruct (Hreg x Hx) as [Hx'|(r & cr & j & Hr & ?)].
           ++ apply elem_of_app in Hx' as [?|Hx']; [by left|].
              apply list_elem_of_singleton in Hx' as ->.
              right. exists row, c, i. split; [by left|done].
           ++ right. exists r, cr, j. split; [by right|done].
        -- intros e He. destruct (Hext e He) as [?|(r & Hr & ?)]; [by left|].
           right. exists r. split; [by right|done].
    + destruct (IH reg ext faults s1 Hnd)
        as (reg' & ext' & s' & Hrun & Hnd' & Hsub & Hreg & Hext & Hm & Hd & Hs).
      exists reg', ext', s'. split; [done|]. split; [done|]. split; [done|].
      split; [|split; [|done]].
      * intros x Hx. destruct (Hreg x Hx) as [?|(r & cr & j & Hr & ?)]; [by left|].
        right. exists r, cr, j. split; [by right|done].
      * intros e He. destruct (Hext e He) as [?|(r & Hr & ?)]; [by left|].
        right. exists r. split; [by right|done].
  - destruct (IH reg (ext ++ [external_entry row])%list faults s Hnd)
      as (reg' & ext' & s' & Hrun & Hnd' & Hsub & Hreg & Hext & Hm & Hd & Hs).
    exists reg', ext', s'. split; [done|]. split; [done|]. split; [done|].
    split; [|split; [|done]].
    + intros x Hx. destruct (Hreg x Hx) as [?|(r & cr & j & Hr & ?)]; [by left|].
      right. exists r, cr, j. split; [by right|done].
    + intros e He. destruct (Hext e He) as [Hx'|(r & Hr & ?)].
      * apply elem_of_app in Hx' as [?|Hx']; [by left|].
        apply list_elem_of_singleton in Hx' as ->.
        right. exists row. split; [by left|done].
      * right. exists r. split; [by right|done].
Qed.

Lemma elem_of_crushes_of row k d :
  row ∈ crushes_of k d ↔ row ∈ t_secret_crushes d ∧ sc_crusher_id row = k.
Proof. unfold crushes_of. rewrite list_elem_of_filter. tauto. Qed.

(** X13. [get_secret_crushes] always returns, whatever the durable store
    does.  The list of identities it returns has no repetitions, contains
    every crush held in memory, and holds beside these only crushees of
    rows of the caller; every external entry comes from an external row of
    the caller.  Nothing is changed by the call. *)
Theorem get_secret_crushes_lists_memory (faults : nat → bool) (s : store) (u : Z) :
  ∃ reg ext s',
    run (get_secret_crushes u) faults s = (Ok (reg, ext), s')
    ∧ NoDup reg
    ∧ (∀ c, c ∈ set_of (secret_crushes s) u → c ∈ reg)
    ∧ (∀ c, c ∈ reg →
         c ∈ set_of (secret_crushes s) u
         ∨ ∃ crusher row crushee i,
             user_by_telegram_id u (db s) = Some crusher
             ∧ row ∈ t_secret_crushes (db s) ∧ sc_crusher_id row = u_id crusher
             ∧ sc_crushee_id row = Some i
             ∧ user_by_id i (db s) = Some crushee ∧ u_telegram_id crushee = c)
    ∧ (∀ e, e ∈ ext →
         ∃ crusher row,
           user_by_telegram_id u (db s) = Some crusher
           ∧ row ∈ t_secret_crushes (db s) ∧ sc_crusher_id row = u_id crusher
           ∧ sc_crushee_id row = None ∧ e = external_entry row)
    ∧ memory s' = memory s ∧ db s' = db s.
Proof.
  set (reg := elements (set_of (secret_crushes s) u)).
  assert (NoDup reg) as Hnd by apply NoDup_elements.
  assert (∀ c, c ∈ reg ↔ c ∈ set_of (secret_crushes s) u) as Hreg
    by (intros c; apply elem_of_elements).
  assert (∀ s', memory s' = memory s → db s' = db s →
    ∃ reg' ext' s'', (Ok (reg, @nil external_crush), s') = (Ok (reg', ext'), s'')
    ∧ NoDup reg'
    ∧ (∀ c, c ∈ set_of (secret_crushes s) u → c ∈ reg')
    ∧ (∀ c, c ∈ reg' →
         c ∈ set_of (secret_crushes s) u
         ∨ ∃ crusher row crushee i,
             user_by_telegram_id u (db s) = Some crusher
             ∧ row ∈ t_secret_crushes (db s) ∧ sc_crusher_id row = u_id crusher
             ∧ sc_crushee_id row = Some i
             ∧ user_by_id i (db s) = Some crushee ∧ u_telegram_id crushee = c)
    ∧ (∀ e, e ∈ ext' →
         ∃ crusher row,
           user_by_telegram_id u (db s) = Some crusher
           ∧ row ∈ t_secret_crushes (db s) ∧ sc_crusher_id row = u_id crusher
           ∧ sc_crushee_id row = None ∧ e = external_entry row)
    ∧ memory s'' = memory s ∧ db s'' = db s) as Hnothing.
  { intros s' Hm Hd. exists reg, [], s'. split; [done|]. split; [done|].
    split; [intros c; apply Hreg|]. split; [intros c Hc; left; by apply Hreg|].
    split; [|done]. intros e He. by apply elem_of_nil in He. }
  unfold get_secret_crushes, attempt. unfold_monad. simpl. fold reg.
  destruct (faults (clock s)); simpl; [by apply Hnothing|].
  destruct (faults (S (clock s))); simpl; [by apply Hnothing|].
  destruct (user_by_telegram_id u (db s)) as [crusher|] eqn:Eu; simpl;
    [|by apply Hnothing].
  destruct (faults (S (S (clock s)))); simpl; [by apply Hnothing|].
  match goal with
  | |- context [scan_crushes ?rows ?r ?e ?f ?st] =>
      destruct (scan_crushes_spec rows r e f st Hnd)
        as (reg' & ext' & s' & Hrun & Hnd' & Hsub & Hin & Hext & Hm & Hd & Hs)
  end.
  unfold run in Hrun. rewrite Hrun. simpl in *.
  exists reg', ext'. eexists. split; [reflexivity|]. split; [done|].
  split; [intros c Hc; by apply Hsub, Hreg|].
  split; [|split].
  - intros c Hc. destruct (Hin c Hc) as [?|(row & crushee & i & Hrow & Hi & Hc' & Ht)].
    + left. by apply Hreg.
    + right. apply elem_of_crushes_of in Hrow as [Hrow Hk].
      by exists crusher, row, crushee, i.
  - intros e He. destruct (Hext e He) as [Hn|(row & Hrow & Hi & ->)].
    + by apply elem_of_nil in Hn.
    + apply elem_of_crushes_of in Hrow as [Hrow Hk]. by exists crusher, row.
  - simpl. split; [|done]. done.
Qed.

(** When no interaction fails, the loop lists every row it is given. *)
Lemma scan_crushes_no_faults rows : ∀ reg ext s,
  ∃ reg' ext' s',
    run (scan_crushes rows reg ext) no_faults s = (Ok (reg', ext'), s')
    ∧ (∀ c, c ∈ reg → c ∈ reg')
    ∧ (∀ e, e ∈ ext → e ∈ ext')
    ∧ (∀ row i crushee, row ∈ rows → sc_crushee_id row = Some i →
         user_by_id i (session s) = Some crushee → u_telegram_id crushee ∈ reg')
    ∧ (∀ row, row ∈ rows → sc_crushee_id row = None → external_entry row ∈ ext').
Proof.
  induction rows as [|row rows IH]; intros reg ext s.
  { exists reg, ext, s. split; [done|]. do 2 (split; [done|]).
    split; intros; exfalso; eapply elem_of_nil; eauto. }
  cbn [scan_crushes]. destruct (sc_crushee_id row) as [i|] eqn:Ei.
  - rewrite run_bind, attempt_query. unfold no_faults at 1.
    set (s1 := set_clock (S (clock s)) s).
    destruct (user_by_id i (session s)) as [c|] eqn:Ec.
    + destruct (bool_decide (u_telegram_id c ∈ reg)) eqn:Ein.
      * apply bool_decide_eq_true in Ein.
        destruct (IH reg ext s1) as (reg' & ext' & s' & Hrun & Hreg & Hext & Hr & He).
        exists reg', ext', s'. split; [done|]. do 2 (split; [done|]). split.
        -- intros r j cr [->|Hin]%elem_of_cons Hj Hcr; [|by eapply Hr].
           rewrite Ei in Hj. injection Hj as <-. rewrite Ec in Hcr.
           injection Hcr as <-. by apply Hreg.
        -- intros r [->|Hin]%elem_of_cons Hj; [congruence|by apply He].
      * destruct (IH (reg ++ [u_telegram_id c])%list ext s1)
          as (reg' & ext' & s' & Hrun & Hreg & Hext & Hr & He).
        exists reg', ext', s'. split; [done|].
        split; [intros x Hx; apply Hreg, elem_of_app; by left|]. split; [done|]. split.
        -- intros r j cr [->|Hin]%elem_of_cons Hj Hcr; [|by eapply Hr].
           rewrite Ei in Hj. injection Hj as <-. rewrite Ec in Hcr.
           injection Hcr as <-. apply Hreg, elem_of_app. right. apply list_elem_of_here.
        -- intros r [->|Hin]%elem_of_cons Hj; [congruence|by apply He].
    + destruct (IH reg ext s1) as (reg' & ext' & s' & Hrun & Hreg & Hext & Hr & He).
      exists reg', ext', s'. split; [done|]. do 2 (split; [done|]). split.
      * intros r j cr [->|Hin]%elem_of_cons Hj Hcr; [|by eapply Hr]. congruence.
      * intros r [->|Hin]%elem_of_cons Hj; [congruence|by apply He].
  - destruct (IH reg (ext ++ [external_entry row])%list s)
      as (reg' & ext' & s' & Hrun & Hreg & Hext & Hr & He).
    exists reg', ext', s'. split; [done|]. split; [done|].
    split; [intros x Hx; apply Hext, elem_of_app; by left|]. split.
    + intros r j cr [->|Hin]%elem_of_cons Hj Hcr; [congruence|by eapply Hr].
    + intros r [->|Hin]%elem_of_cons Hj; [|by apply He].
      apply Hext, elem_of_app. right. apply list_elem_of_here.
Qed.

Lemma get_secret_crushes_no_faults s u crusher :
  user_by_telegram_id u (db s) = Some crusher →
  ∃ reg ext s',
    run (get_secret_crushes u) no_faults s = (Ok (reg, ext), s')
    ∧ (∀ row i crushee, row ∈ t_secret_crushes (db s) →
         sc_crusher_id row = u_id crusher → sc_crushee_id row = Some i →
         user_by_id i (db s) = Some crushee → u_telegram_id crushee ∈ reg)
    ∧ (∀ row, row ∈ t_secret_crushes (db s) → sc_crusher_id row = u_id crusher →
         sc_crushee_id row = None → external_entry row ∈ ext).
Proof.
  intros Hu. unfold get_secret_crushes, attempt. unfold_monad.
  repeat (cbn beta; change (no_faults _) with false; cbn iota). simpl. rewrite Hu.
  repeat (cbn beta; change (no_faults _) with false; cbn iota). simpl.
  match goal with
  | |- context [scan_crushes ?rows ?r ?e _ ?st] =>
      destruct (scan_crushes_no_faults rows r e st)
        as (reg' & ext' & s' & Hrun & _ & _ & Hr & He)
  end.
  unfold run in Hrun. rewrite Hrun. simpl in *.
  exists reg', ext'. eexists. split; [reflexivity|]. split.
  - intros row i crushee Hrow Hk Hi Hc. eapply Hr; eauto.
    by apply elem_of_crushes_of.
  - intros row Hrow Hk Hi. apply He; [|done]. by apply elem_of_crushes_of.
Qed.

Lemma add_external_crush_durable s u name social photo crusher :
  name ≠ None → name ≠ Some "" →
  user_by_telegram_id u (db s) = Some crusher →
  ∃ s1,
    run (add_secret_crush u None name social photo) no_faults s
    = (Ok "added_external", s1)
    ∧ t_users (db s1) = t_users (db s)
    ∧ t_secret_crushes (db s1)
      = (t_secret_crushes (db s)
           ++ [mkSecretCrush (fresh_id (sc_id <$> t_secret_crushes (db s)))
                 (u_id crusher) None name social photo false])%list.
Proof.
  intros Hn He Hu. unfold add_secret_crush.
  rewrite bool_decide_eq_false_2 by (intros [?|?]; done).
  unfold_monad. unfold no_faults. simpl. rewrite Hu. simpl.
  eexists. split; [reflexivity|]. done.
Qed.

(** X14. An external crush is kept in the durable store only, and
    [get_secret_crushes] reads it back from there: when the caller has a
    row and no interaction fails, the entry added by [add_secret_crush] with
    a name is in the list of external crushes returned afterwards, with the
    name, account and photo given; when every interaction fails, the list of
    external crushes returned is empty. *)
Theorem external_crush_is_read_back
    (s : store) (u : Z) (name social photo : option string) (crusher : User) :
  name ≠ None → name ≠ Some "" →
  user_by_telegram_id u (db s) = Some crusher →
  ∃ s1 reg ext s2,
    run (add_secret_crush u None name social photo) no_faults s
    = (Ok "added_external", s1)
    ∧ run (get_secret_crushes u) no_faults s1 = (Ok (reg, ext), s2)
    ∧ (∃ e, e ∈ ext ∧ ec_name e = name ∧ ec_social_media e = social ∧ ec_photo e = photo)
    ∧ (run (get_secret_crushes u) all_faults s1).1
      = Ok (elements (set_of (secret_crushes s1) u), []).
Proof.
  intros Hn He Hu.
  destruct (add_external_crush_durable s u name social photo crusher Hn He Hu)
    as (s1 & Hrun & Hus & Hrows).
  assert (user_by_telegram_id u (db s1) = Some crusher) as Hu1.
  { unfold user_by_telegram_id in *. by rewrite Hus. }
  destruct (get_secret_crushes_no_faults s1 u crusher Hu1)
    as (reg & ext & s2 & Hget & _ & Hext).
  exists s1, reg, ext, s2. do 2 (split; [done|]). split; [|reflexivity].
  eexists. split.
  - eapply Hext; [rewrite Hrows; apply elem_of_app; right; apply list_elem_of_here|..];
      reflexivity.
  - done.
Qed.

(** X14 for Abel, who adds Hana. *)
Lemma external_crush_is_read_back_witness :
  ∃ s1 reg ext s2,
    run (add_secret_crush 101 None (Some "Hana") (Some "@hana") None) no_faults
      store_external_crush
    = (Ok "added_external", s1)
    ∧ run (get_secret_crushes 101) no_faults s1 = (Ok (reg, ext), s2)
    ∧ (∃ e, e ∈ ext ∧ ec_name e = Some "Hana" ∧ ec_social_media e = Some "@hana"
            ∧ ec_photo e = None)
    ∧ (run (get_secret_crushes 101) all_faults s1).1
      = Ok (elements (set_of (secret_crushes s1) 101), []).
Proof.
  apply (external_crush_is_read_back store_external_crush 101 (Some "Hana")
           (Some "@hana") None (user_row 1 101 "Abel" "male" "Addis Ababa University"));
    [done|done|reflexivity].
Defined.

(** ** Loading the dictionaries when the process starts *)

Lemma run_query_no_faults {A} (q : database → A) s :
  run (query q) no_faults s = (Ok (q (session s)), set_clock (S (clock s)) s).
Proof. reflexivity. Qed.

Lemma run_with_app_context_no_faults {A} (body : M A) s :
  run (with_app_context body) no_faults s
  = let '(r, s') := run body no_faults
                      (set_session (λ _, db s) (set_clock (S (clock s)) s)) in
    (r, set_session (λ _, db s') s').
Proof. reflexivity. Qed.

Lemma run_try_except {A} (body : M A) (fallback : A) faults s :
  run (try_except body fallback) faults s
  = match run body faults s with
    | (Ok a, s') => (Ok a, s')
    | (Raised, s') => (Ok fallback, s')
    end.
Proof. reflexivity. Qed.

(** A loop whose body returns runs the body on each element in turn. *)
Lemma for_each_returns {A} (f : A → M unit) faults (l : list A) : ∀ s,
  (∀ x s, (run (f x) faults s).1 = Ok tt) →
  run (for_each l f) faults s = (Ok tt, foldl (λ s x, (run (f x) faults s).2) s l).
Proof.
  induction l as [|x l IH]; intros s Hf; [done|].
  change (for_each (x :: l) f) with (f x ;;; for_each l f).
  rewrite run_bind. specialize (Hf x s) as Hx.
  destruct (run (f x) faults s) as [[[]|] s1] eqn:E; [|done].
  rewrite IH by done. simpl. by rewrite E.
Qed.

Lemma foldl_preserves {A B} (proj : store → B) (step : store → A → store) (l : list A) :
  (∀ s x, proj (step s x) = proj s) → ∀ s, proj (foldl step s l) = proj s.
Proof.
  intros Hstep. induction l as [|x l IH]; intros s; [done|].
  simpl. by rewrite IH.
Qed.

(** A loop that adds to a dictionary of sets the edge that each row stands
    for; [J] is what every step keeps. *)
Lemma foldl_edges {A} (J : store → Prop) (get : store → gmap Z (gset Z))
    (E : A → Z → Z → Prop) (step : store → A → store) (l : list A) :
  (∀ s x, J s → J (step s x)) →
  (∀ s x a b, J s →
     b ∈ set_of (get (step s x)) a ↔ b ∈ set_of (get s) a ∨ E x a b) →
  ∀ s a b, J s →
    b ∈ set_of (get (foldl step s l)) a
    ↔ b ∈ set_of (get s) a ∨ ∃ x, x ∈ l ∧ E x a b.
Proof.
  intros HJ Hstep. induction l as [|x l IH]; intros s a b Hs; simpl.
  - split; [by left|]. intros [?|(x & Hx & _)]; [done|]. by apply elem_of_nil in Hx.
  - rewrite IH, Hstep by auto. split.
    + intros [[?|?]|(y & Hy & ?)]; [by left|right; exists x|right; exists y].
      * split; [apply list_elem_of_here|done].
      * split; [by apply list_elem_of_further|done].
    + intros [?|(y & [->|Hy]%elem_of_cons & ?)]; [by left; left|by left; right|].
      right. by exists y.
Qed.

(** The profiles that the loop over the [users] rows installs. *)
Lemma foldl_profiles (J : store → Prop) (step : store → User → store)
    (mk : User → profile) (l : list User) :
  (∀ s x, J s → J (step s x)) →
  (∀ s x, J s →
     user_profiles (step s x) = <[u_telegram_id x := mk x]> (user_profiles s)) →
  NoDup (u_telegram_id <$> l) →
  ∀ s, J s →
    (∀ x, x ∈ l → user_profiles (foldl step s l) !! u_telegram_id x = Some (mk x))
    ∧ (∀ k, k ∉ u_telegram_id <$> l →
            user_profiles (foldl step s l) !! k = user_profiles s !! k).
Proof.
  intros HJ Hstep. induction l as [|x l IH]; intros Hnd s Hs; simpl.
  { split; [|done]. intros x Hx. by apply elem_of_nil in Hx. }
  rewrite fmap_cons in Hnd. apply NoDup_cons in Hnd as [Hx Hnd].
  destruct (IH Hnd (step s x)) as [Hin Hout]; [by apply HJ|]. split.
  - intros y [->|Hy]%elem_of_cons; [|by apply Hin].
    rewrite Hout by done. by rewrite Hstep, lookup_insert_eq.
  - intros k Hk. apply not_elem_of_cons in Hk as [Hne Hk].
    rewrite Hout by done. by rewrite Hstep, lookup_insert_ne.
Qed.

(** The edge between telegram identities that a row with user keys [i] and
    [j] stands for. *)
Lemma edge_of_keys_unique d i j x y a b :
  user_by_id i d = Some x → user_by_id j d = Some y →
  (∃ x' y', user_by_id i d = Some x' ∧ user_by_id j d = Some y'
            ∧ u_telegram_id x' = a ∧ u_telegram_id y' = b)
  ↔ u_telegram_id x = a ∧ u_telegram_id y = b.
Proof.
  intros Hx Hy. split.
  - intros (x' & y' & Hx' & Hy' & <- & <-). by simplify_eq.
  - intros [<- <-]. by exists x, y.
Qed.

Lemma elem_of_empty_or (b : Z) (P : Prop) : b ∈ (∅ : gset Z) ∨ P ↔ P.
Proof. set_solver. Qed.

Ltac step_no_faults :=
  unfold run, with_app_context, try_except, query, statement, assign, commit,
    db_step, bind, ret, raise, modify, get_store, no_faults;
  simpl; repeat case_match; try done.

Ltac loop_keeps proj :=
  rewrite (foldl_preserves proj); [simpl|intros; by step_no_faults].

Lemma load_data_from_db_run d :
  ∃ s',
    run load_data_from_db no_faults (fresh_process d) = (Ok tt, s')
    ∧ db s' = d
    ∧ (NoDup (u_telegram_id <$> t_users d) →
       (∀ u, u ∈ t_users d →
          user_profiles s' !! u_telegram_id u
          = Some (profile_of_user u (target_rows_of (u_id u) d)))
       ∧ (∀ k, k ∉ u_telegram_id <$> t_users d → user_profiles s' !! k = None))
    ∧ (∀ a b, b ∈ set_of (likes s') a ↔ ∃ l x y,
         l ∈ t_likes d
         ∧ user_by_id (l_sender_id l) d = Some x ∧ user_by_id (l_receiver_id l) d = Some y
         ∧ u_telegram_id x = a ∧ u_telegram_id y = b)
    ∧ (∀ a b, b ∈ set_of (matches s') a ↔ db_matched d a b)
    ∧ (∀ a b, b ∈ set_of (secret_crushes s') a ↔ ∃ c i x y,
         c ∈ t_secret_crushes d ∧ sc_crushee_id c = Some i
         ∧ user_by_id (sc_crusher_id c) d = Some x ∧ user_by_id i d = Some y
         ∧ u_telegram_id x = a ∧ u_telegram_id y = b)
    ∧ (∀ a b, b ∈ set_of (blocks s') a ↔ ∃ bl x y,
         bl ∈ t_blocks d
         ∧ user_by_id (b_blocker_id bl) d = Some x ∧ user_by_id (b_blocked_id bl) d = Some y
         ∧ u_telegram_id x = a ∧ u_telegram_id y = b).
Proof.
  unfold load_data_from_db.
  rewrite run_try_except, run_with_app_context_no_faults.
  set (s0 := set_session _ _).
  assert (session s0 = d) as Hs0 by done.
  (* the users *)
  rewrite run_bind, run_query_no_faults. cbn beta iota.
  rewrite run_bind, for_each_returns by (intros; reflexivity).
  match goal with |- context [foldl ?st ?s ?l] => set (s1 := foldl st s l) end.
  assert (session s1 = d) as Hs1.
  { unfold s1. by rewrite (foldl_preserves session). }
  cbn beta iota.
  (* the likes *)
  rewrite run_bind, run_query_no_faults. cbn beta iota.
  rewrite run_bind, for_each_returns.
  2:{ intros x s. by step_no_faults. }
  match goal with |- context [foldl ?st ?s ?l] => set (s2 := foldl st s l) end.
  assert (session s2 = d) as Hs2.
  { unfold s2. rewrite (foldl_preserves session); [done|].
    intros s x. by step_no_faults. }
  cbn beta iota.
  (* the crushes *)
  rewrite run_bind, run_query_no_faults. cbn beta iota.
  rewrite run_bind, for_each_returns.
  2:{ intros x s. by step_no_faults. }
  match goal with |- context [foldl ?st ?s ?l] => set (s3 := foldl st s l) end.
  assert (session s3 = d) as Hs3.
  { unfold s3. rewrite (foldl_preserves session); [done|].
    intros s x. by step_no_faults. }
  cbn beta iota.
  (* the blocks *)
  rewrite run_bind, run_query_no_faults. cbn beta iota.
  rewrite for_each_returns.
  2:{ intros x s. by step_no_faults. }
  match goal with |- context [foldl ?st ?s ?l] => set (s4 := foldl st s l) end.
  assert (db s4 = d) as Hd4.
  { unfold s4. loop_keeps db. unfold s3. loop_keeps db. unfold s2. loop_keeps db.
    unfold s1. loop_keeps db. done. }
  set (J := λ s : store, session s = d).
  eexists. split; [reflexivity|]. split; [done|]. simpl.
  (* profiles *)
  assert (user_profiles s4 = user_profiles s1) as ->.
  { unfold s4. loop_keeps user_profiles. unfold s3. loop_keeps user_profiles.
    unfold s2. loop_keeps user_profiles. done. }
  split.
  { intros Hnd.
    destruct (foldl_profiles J
              (λ s x, (run (let! targets := query (target_rows_of (u_id x)) in
                            modify (set_user_profiles
                                      <[u_telegram_id x := profile_of_user x targets]>))
                         no_faults s).2)
              (λ x, profile_of_user x (target_rows_of (u_id x) d))
              (t_users d)) with (s := set_clock (S (clock s0)) s0) as [Hin Hout];
    [by intros s x Hs|intros s x Hs; simpl; by rewrite Hs|done|done|].
    split; [exact Hin|].
    intros k Hk; etrans; [exact (Hout k Hk)|apply lookup_empty]. }
  (* likes *)
  assert (likes s4 = likes s2) as ->.
  { unfold s4. loop_keeps likes. unfold s3. loop_keeps likes. done. }
  assert (likes s1 = ∅) as Hl1 by (unfold s1; loop_keeps likes; done).
  split.
  { intros a b. unfold s2. rewrite Hs1.
    rewrite (foldl_edges J likes (λ l a b, ∃ x y,
               user_by_id (l_sender_id l) d = Some x
               ∧ user_by_id (l_receiver_id l) d = Some y
               ∧ u_telegram_id x = a ∧ u_telegram_id y = b)).
    - simpl. rewrite Hl1. unfold set_of. rewrite lookup_empty. simpl.
      rewrite elem_of_empty_or. naive_solver.
    - intros s x Hs. unfold J in *. by step_no_faults.
    - intros s x a' b' Hs. unfold J in Hs.
      unfold run, query, db_step, bind, ret, modify, get_store, no_faults. simpl.
      rewrite Hs.
      destruct (user_by_id (l_sender_id x) d) as [su|] eqn:Esu;
        destruct (user_by_id (l_receiver_id x) d) as [ru|] eqn:Eru; simpl;
        [|naive_solver..].
      destruct (l_is_match x); simpl; rewrite elem_of_record; naive_solver.
    - done. }
  (* matches *)
  assert (matches s4 = matches s2) as ->.
  { unfold s4. loop_keeps matches. unfold s3. loop_keeps matches. done. }
  assert (matches s1 = ∅) as Hm1 by (unfold s1; loop_keeps matches; done).
  split.
  { intros a b. unfold s2. rewrite Hs1.
    rewrite (foldl_edges J matches (λ l a b, l_is_match l = true ∧ ∃ x y,
               user_by_id (l_sender_id l) d = Some x
               ∧ user_by_id (l_receiver_id l) d = Some y
               ∧ ((u_telegram_id x = a ∧ u_telegram_id y = b)
                  ∨ (u_telegram_id x = b ∧ u_telegram_id y = a)))).
    - simpl. rewrite Hm1. unfold set_of at 1. rewrite lookup_empty. simpl.
      unfold db_matched. rewrite !elem_of_db_match_edges. split.
      + intros [Hb|(l & Hl & Hm & x & y & Hx & Hy & [[<- <-]|[<- <-]])].
        * set_solver.
        * left. by exists l, x, y.
        * right. by exists l, x, y.
      + intros [(l & x & y & Hl & Hm & Hx & Hy & <- & <-)
               |(l & x & y & Hl & Hm & Hx & Hy & <- & <-)];
          right; exists l; (split; [done|]); (split; [done|]); exists x, y; auto.
    - intros s x Hs. unfold J in *. by step_no_faults.
    - intros s x a' b' Hs. unfold J in Hs.
      unfold run, query, db_step, bind, ret, modify, get_store, no_faults. simpl.
      rewrite Hs.
      destruct (user_by_id (l_sender_id x) d) as [su|] eqn:Esu;
        destruct (user_by_id (l_receiver_id x) d) as [ru|] eqn:Eru; simpl;
        [|naive_solver..].
      destruct (l_is_match x); simpl; [rewrite elem_of_add_match|]; naive_solver.
    - done. }
  (* crushes *)
  assert (secret_crushes s4 = secret_crushes s3) as ->.
  { unfold s4. loop_keeps secret_crushes. done. }
  assert (secret_crushes s2 = ∅) as Hc2.
  { unfold s2. loop_keeps secret_crushes. simpl. unfold s1.
    loop_keeps secret_crushes. done. }
  split.
  { intros a b. unfold s3. rewrite Hs2.
    rewrite (foldl_edges J secret_crushes (λ c a b, ∃ i x y,
               sc_crushee_id c = Some i
               ∧ user_by_id (sc_crusher_id c) d = Some x ∧ user_by_id i d = Some y
               ∧ u_telegram_id x = a ∧ u_telegram_id y = b)).
    - simpl. rewrite Hc2. unfold set_of. rewrite lookup_empty. simpl.
      rewrite elem_of_empty_or. naive_solver.
    - intros s x Hs. unfold J in *. by step_no_faults.
    - intros s x a' b' Hs. unfold J in Hs.
      unfold run, query, db_step, bind, ret, modify, get_store, no_faults. simpl.
      rewrite Hs.
      destruct (user_by_id (sc_crusher_id x) d) as [su|] eqn:Esu;
        destruct (sc_crushee_id x) as [i|] eqn:Ei; simpl; [|naive_solver..].
      destruct (user_by_id i d) as [ru|] eqn:Eru; simpl; [|naive_solver].
      rewrite elem_of_record. naive_solver.
    - done. }
  (* blocks *)
  assert (blocks s3 = ∅) as Hb3.
  { unfold s3. loop_keeps blocks. simpl. unfold s2. loop_keeps blocks. simpl.
    unfold s1. loop_keeps blocks. done. }
  intros a b. unfold s4. rewrite Hs3.
  rewrite (foldl_edges J blocks (λ bl a b, ∃ x y,
             user_by_id (b_blocker_id bl) d = Some x
             ∧ user_by_id (b_blocked_id bl) d = Some y
             ∧ u_telegram_id x = a ∧ u_telegram_id y = b)).
  - simpl. rewrite Hb3. unfold set_of. rewrite lookup_empty. simpl.
    rewrite elem_of_empty_or. naive_solver.
  - intros s x Hs. unfold J in *. by step_no_faults.
  - intros s x a' b' Hs. unfold J in Hs.
    unfold run, query, db_step, bind, ret, modify, get_store, no_faults. simpl.
    rewrite Hs.
    destruct (user_by_id (b_blocker_id x) d) as [su|] eqn:Esu;
      destruct (user_by_id (b_blocked_id x) d) as [ru|] eqn:Eru; simpl;
      [|naive_solver..].
    rewrite elem_of_record. naive_solver.
  - done.
Qed.

(** X15. Every row of the [users] table is loaded as a complete profile:
    when no interaction fails and telegram identities are unique in the
    table, [load_data_from_db], run in a process that has just started,
    puts in memory for each row the dictionary made from the row and its
    target universities, marked complete whatever the row holds, and no
    other profile. *)
Theorem load_restores_profiles (d : database) :
  NoDup (u_telegram_id <$> t_users d) →
  ∃ s',
    run load_data_from_db no_faults (fresh_process d) = (Ok tt, s')
    ∧ db s' = d
    ∧ (∀ u, u ∈ t_users d →
         user_profiles s' !! u_telegram_id u
         = Some (profile_of_user u (target_rows_of (u_id u) d)))
    ∧ (∀ k p, user_profiles s' !! k = Some p →
         is_complete p = true ∧ is_Some (user_by_telegram_id k d)).
Proof.
  intros Hnd.
  destruct (load_data_from_db_run d) as (s' & Hrun & Hd & Hp & _).
  destruct (Hp Hnd) as [Hin Hout].
  exists s'. do 3 (split; [done|]).
  intros k p Hk.
  destruct (decide (k ∈ u_telegram_id <$> t_users d)) as [Hin'|Hout'].
  - apply list_elem_of_fmap in Hin' as (u & -> & Hu).
    rewrite (Hin u Hu) in Hk. injection Hk as <-. split; [done|].
    destruct (user_by_telegram_id (u_telegram_id u) d) eqn:E; [done|].
    by eapply user_by_telegram_id_None in E.
  - by rewrite (Hout k Hout') in Hk.
Qed.

(** X15 on the database of Abel and Bethel. *)
Lemma load_restores_profiles_witness :
  ∃ s',
    run load_data_from_db no_faults (fresh_process db_matched_pair) = (Ok tt, s')
    ∧ db s' = db_matched_pair
    ∧ (∀ u, u ∈ t_users db_matched_pair →
         user_profiles s' !! u_telegram_id u
         = Some (profile_of_user u (target_rows_of (u_id u) db_matched_pair)))
    ∧ (∀ k p, user_profiles s' !! k = Some p →
         is_complete p = true ∧ is_Some (user_by_telegram_id k db_matched_pair)).
Proof.
  apply (load_restores_profiles db_matched_pair).
  simpl. apply NoDup_cons. split; [set_solver|]. apply NoDup_singleton.
Defined.

Lemma db_matched_sym d a b : db_matched d a b → db_matched d b a.
Proof. unfold db_matched. tauto. Qed.

(** X16. The relations are loaded from the tables: when no interaction
    fails, after [load_data_from_db] in a process that has just started, the
    like, crush and block sets hold exactly the edges of the rows whose two
    users exist, the match sets hold exactly the pairs of a like row flagged
    as a match, in both directions, and the match relation is symmetric. *)
Theorem load_restores_relations (d : database) :
  ∃ s',
    run load_data_from_db no_faults (fresh_process d) = (Ok tt, s')
    ∧ (∀ a b, b ∈ set_of (likes s') a ↔ ∃ l x y,
         l ∈ t_likes d
         ∧ user_by_id (l_sender_id l) d = Some x ∧ user_by_id (l_receiver_id l) d = Some y
         ∧ u_telegram_id x = a ∧ u_telegram_id y = b)
    ∧ (∀ a b, b ∈ set_of (matches s') a ↔ db_matched d a b)
    ∧ symmetric_matches (matches s')
    ∧ (∀ a b, b ∈ set_of (secret_crushes s') a ↔ ∃ c i x y,
         c ∈ t_secret_crushes d ∧ sc_crushee_id c = Some i
         ∧ user_by_id (sc_crusher_id c) d = Some x ∧ user_by_id i d = Some y
         ∧ u_telegram_id x = a ∧ u_telegram_id y = b)
    ∧ (∀ a b, b ∈ set_of (blocks s') a ↔ ∃ bl x y,
         bl ∈ t_blocks d
         ∧ user_by_id (b_blocker_id bl) d = Some x ∧ user_by_id (b_blocked_id bl) d = Some y
         ∧ u_telegram_id x = a ∧ u_telegram_id y = b).
Proof.
  destruct (load_data_from_db_run d) as (s' & Hrun & _ & _ & Hl & Hm & Hc & Hb).
  exists s'. do 3 (split; [done|]). split; [|done].
  intros a b. rewrite !Hm. apply db_matched_sym.
Qed.

Lemma block_database_down s a b :
  ∃ s1, run (block_user_from_db a b) all_faults s = (Ok tt, s1) ∧ db s1 = db s
        ∧ matches s1 = remove_match a b (matches s).
Proof. eexists. split; [reflexivity|]. done. Qed.

(** X17. A block whose durable write succeeds keeps the match severed when
    the process restarts: with no failing interaction and unique telegram
    identities, after [block_user_from_db(A,B)] a process started on the
    resulting database loads no match between A and B. *)
Theorem durable_block_survives_restart (s : store) (a b : Z) :
  NoDup (u_telegram_id <$> t_users (db s)) →
  ∃ s1 s2,
    run (block_user_from_db a b) no_faults s = (Ok tt, s1)
    ∧ run load_data_from_db no_faults (fresh_process (db s1)) = (Ok tt, s2)
    ∧ (b ∉ set_of (matches s2) a) ∧ (a ∉ set_of (matches s2) b).
Proof.
  intros Hnd.
  destruct (block_spec no_faults s a b) as (s1 & Hrun & _).
  pose proof (block_clears_durable_flags no_faults s a b (λ _, eq_refl) Hnd) as Hflags.
  unfold run in Hflags, Hrun. rewrite Hrun in Hflags. simpl in Hflags.
  destruct (load_data_from_db_run (db s1)) as (s2 & Hload & _ & _ & _ & Hm & _).
  exists s1, s2. do 2 (split; [done|]).
  rewrite !Hm. split; [done|]. intros H. by apply Hflags, db_matched_sym.
Qed.

(** X17 in the store where Abel and Bethel are matched. *)
Lemma durable_block_survives_restart_witness :
  ∃ s1 s2,
    run (block_user_from_db 101 102) no_faults store_matched = (Ok tt, s1)
    ∧ run load_data_from_db no_faults (fresh_process (db s1)) = (Ok tt, s2)
    ∧ (102 ∉ set_of (matches s2) 101) ∧ (101 ∉ set_of (matches s2) 102).
Proof.
  apply (durable_block_survives_restart store_matched 101 102).
  simpl. apply NoDup_cons. split; [set_solver|]. apply NoDup_singleton.
Defined.

(** X18. A block made while the durable store is down is forgotten at
    restart: it severs the match in memory, but the match flags in the table
    stay, so a process started afterwards loads the match between A and B
    again. *)
Theorem block_without_durable_store_is_forgotten (s : store) (a b : Z) :
  db_matched (db s) a b →
  ∃ s1 s2,
    run (block_user_from_db a b) all_faults s = (Ok tt, s1)
    ∧ (b ∉ set_of (matches s1) a)
    ∧ run load_data_from_db no_faults (fresh_process (db s1)) = (Ok tt, s2)
    ∧ b ∈ set_of (matches s2) a ∧ a ∈ set_of (matches s2) b.
Proof.
  intros Hdm.
  destruct (block_database_down s a b) as (s1 & Hrun & Hd & Hm1).
  destruct (load_data_from_db_run (db s1)) as (s2 & Hload & _ & _ & _ & Hm & _).
  exists s1, s2. split; [done|].
  split; [rewrite Hm1, elem_of_remove_match; tauto|]. split; [done|].
  rewrite !Hm, Hd. split; [done|by apply db_matched_sym].
Qed.

(** X18 in the store where Abel and Bethel are matched. *)
Lemma block_without_durable_store_is_forgotten_witness :
  ∃ s1 s2,
    run (block_user_from_db 101 102) all_faults store_matched = (Ok tt, s1)
    ∧ (102 ∉ set_of (matches s1) 101)
    ∧ run load_data_from_db no_faults (fresh_process (db s1)) = (Ok tt, s2)
    ∧ 102 ∈ set_of (matches s2) 101 ∧ 101 ∈ set_of (matches s2) 102.
Proof.
  apply (block_without_durable_store_is_forgotten store_matched 101 102).
  left. vm_compute. apply list_elem_of_here.
Defined.

(** ** The durable side of [save_user_profile] *)

Arguments add_target_rows : simpl never.

Ltac unfold_monad_goal :=
  unfold run, with_app_context, try_except, query, statement, assign, commit,
    db_step, bind, ret, raise, modify, get_store.

Lemma with_target_universities_app rows rows' d :
  with_target_universities (λ t, (t ++ rows')%list)
    (with_target_universities (λ t, (t ++ rows)%list) d)
  = with_target_universities (λ t, (t ++ (rows ++ rows'))%list) d.
Proof. unfold with_target_universities. simpl. by rewrite app_assoc. Qed.

Lemma add_target_rows_no_faults k unis : ∀ s,
  ∃ s', run (add_target_rows k unis) no_faults s = (Ok tt, s')
        ∧ session s'
          = with_target_universities
              (λ t, (t ++ (mkTargetUniversity k <$> unis))%list) (session s)
        ∧ db s' = db s ∧ memory s' = memory s.
Proof.
  unfold add_target_rows.
  induction unis as [|uni unis IH]; intros s.
  { exists s. split; [done|]. split; [|done].
    destruct (session s). unfold with_target_universities. simpl.
    by rewrite app_nil_r. }
  change (for_each (uni :: unis) ?f) with (f uni ;;; for_each unis f).
  rewrite run_bind.
  destruct (IH (set_session (with_target_universities
                               (λ t, (t ++ [mkTargetUniversity k uni])%list))
                  (set_clock (S (clock s)) s)))
    as (s' & Hrun & Hsess & Hdb & Hmem).
  exists s'. split; [exact Hrun|]. split; [|done].
  rewrite Hsess. simpl. by rewrite with_target_universities_app.
Qed.

Lemma fresh_id_bound ids x : x ∈ ids → (x < fresh_id ids)%Z.
Proof.
  unfold fresh_id. induction ids as [|y ids IH]; [by intros ?%elem_of_nil|].
  intros [->|Hx]%elem_of_cons; simpl; [lia|]. specialize (IH Hx). lia.
Qed.

Lemma fresh_id_fresh ids : fresh_id ids ∉ ids.
Proof. intros H%fresh_id_bound. lia. Qed.

Lemma target_rows_of_new k unis d :
  target_rows_of k (with_target_universities
                      (λ t, (t ++ (mkTargetUniversity k <$> unis))%list) d)
  = (target_rows_of k d ++ unis)%list.
Proof.
  unfold target_rows_of. simpl. rewrite filter_app, fmap_app. f_equal.
  induction unis as [|uni unis IH]; [done|].
  rewrite fmap_cons, filter_cons_True by done. rewrite fmap_cons. by rewrite IH.
Qed.

Lemma target_rows_of_with_users k f d :
  target_rows_of k (with_users f d) = target_rows_of k d.
Proof. done. Qed.

Lemma target_rows_of_deleted k d :
  target_rows_of k (with_target_universities (filter (λ t, tu_user_id t ≠ k)) d) = [].
Proof.
  unfold target_rows_of. simpl.
  induction (t_target_universities d) as [|t l IH]; [done|].
  rewrite filter_cons. destruct (decide (tu_user_id t ≠ k)); [|done].
  by rewrite filter_cons_False.
Qed.

Lemma target_rows_of_orphan k d :
  (∀ t, t ∈ t_target_universities d → tu_user_id t ≠ k) → target_rows_of k d = [].
Proof.
  unfold target_rows_of. intros H.
  induction (t_target_universities d) as [|t l IH]; [done|].
  rewrite filter_cons_False by (apply H; apply list_elem_of_here).
  apply IH. intros t' Ht'. apply H. by apply list_elem_of_further.
Qed.

(** The profile read through from the database on a miss in memory. *)
Lemma get_user_profile_read_through s u :
  user_profiles s !! u = None →
  ∃ s', run (get_user_profile u) no_faults s
        = (Ok ((λ row, profile_of_user row (target_rows_of (u_id row) (db s)))
                 <$> user_by_telegram_id u (db s)), s').
Proof.
  intros Hmiss. unfold get_user_profile. unfold_monad_goal. rewrite Hmiss.
  unfold no_faults. simpl.
  destruct (user_by_telegram_id u (db s)); eexists; reflexivity.
Qed.

(** What a save writes when nothing fails. *)
Lemma save_user_profile_durable s u p :
  dict_is_empty p = false →
  ∃ s1,
    run (save_user_profile u p) no_faults s = (Ok tt, s1)
    ∧ match user_by_telegram_id u (db s) with
      | None =>
          let k := fresh_id (u_id <$> t_users (db s)) in
          db s1 = with_target_universities
                    (λ t, (t ++ (mkTargetUniversity k
                                   <$> default [] (p_target_universities p)))%list)
                    (with_users (λ t, (t ++ [new_user_row k u p])%list) (db s))
      | Some row =>
          let d1 := with_users
                      (fmap (λ r, if bool_decide (u_id r = u_id row)
                                  then updated_user_row r p else r)) (db s) in
          db s1 = match p_target_universities p with
                  | Some unis =>
                      with_target_universities
                        (λ t, (t ++ (mkTargetUniversity (u_id row) <$> unis))%list)
                        (with_target_universities
                           (filter (λ t, tu_user_id t ≠ u_id row)) d1)
                  | None => d1
                  end
      end.
Proof.
  intros Hp. unfold save_user_profile. rewrite Hp.
  unfold_monad_goal. unfold no_faults at 1 2. simpl.
  destruct (user_by_telegram_id u (db s)) as [row|] eqn:Eu.
  - destruct (p_target_universities p) as [unis|].
    + unfold no_faults at 1. simpl.
      match goal with
      | |- context [add_target_rows ?k ?l _ ?st] =>
          destruct (add_target_rows_no_faults k l st) as (s' & Hrun & Hs & Hd & _)
      end.
      unfold run in Hrun. rewrite Hrun. unfold no_faults. simpl.
      eexists. split; [reflexivity|]. simpl. by rewrite Hs.
    + unfold no_faults. simpl. eexists. split; [reflexivity|]. done.
  - unfold no_faults at 1 2. simpl.
    destruct (p_target_universities p) as [unis|].
    + match goal with
      | |- context [add_target_rows ?k ?l _ ?st] =>
          destruct (add_target_rows_no_faults k l st) as (s' & Hrun & Hs & Hd & _)
      end.
      unfold run in Hrun. rewrite Hrun. unfold no_faults. simpl.
      eexists. split; [reflexivity|]. simpl. by rewrite Hs.
    + unfold no_faults. simpl. eexists. split; [reflexivity|]. simpl.
      unfold with_target_universities, with_users. simpl. by rewrite app_nil_r.
Qed.

Lemma user_by_telegram_id_appended u row d :
  user_by_telegram_id u d = None → u_telegram_id row = u →
  user_by_telegram_id u (with_users (λ t, (t ++ [row])%list) d) = Some row.
Proof.
  unfold user_by_telegram_id. intros Hnone Hrow. simpl.
  rewrite find_app_first, Hnone. simpl. by rewrite bool_decide_eq_true_2.
Qed.

Lemma user_by_telegram_id_updated u row k p d :
  user_by_telegram_id u d = Some row → k = u_id row →
  user_by_telegram_id u
    (with_users (fmap (λ r, if bool_decide (u_id r = k)
                            then updated_user_row r p else r)) d)
  = Some (updated_user_row row p).
Proof.
  unfold user_by_telegram_id. intros Hrow ->. simpl.
  rewrite find_fmap_stable by (intros x; by destruct (bool_decide (u_id x = u_id row))).
  rewrite Hrow. simpl. by rewrite bool_decide_eq_true_2.
Qed.

(** X19. What a restart keeps of a saved profile.  When no interaction
    fails, after [save_user_profile(u, p)] of a non-empty dictionary a
    process started on the resulting database reads for [u] a profile that
    has every column value that [p] gives (name, age, gender, university,
    bio, hobbies, relationship preference, the two picture fields) and the
    target universities of [p]; the profile is marked complete whatever [p]
    says, and the username and telegram identity keys, which have no column,
    come back as the empty string and absent.  The rows of the target table
    are assumed to refer to existing users, as its foreign key declares. *)
Theorem saved_profile_survives_restart (s : store) (u : Z) (p : profile) :
  dict_is_empty p = false →
  (∀ t, t ∈ t_target_universities (db s) → tu_user_id t ∈ u_id <$> t_users (db s)) →
  ∃ s1 q s2,
    run (save_user_profile u p) no_faults s = (Ok tt, s1)
    ∧ run (get_user_profile u) no_faults (fresh_process (db s1)) = (Ok (Some q), s2)
    ∧ is_complete q = true
    ∧ p_username q = Some "" ∧ p_telegram_id q = None
    ∧ (∀ v, p_name p = Some v → p_name q = Some v)
    ∧ (∀ v, p_age p = Some v → p_age q = Some v)
    ∧ (∀ v, p_gender p = Some v → p_gender q = Some v)
    ∧ (∀ v, p_university p = Some v → p_university q = Some v)
    ∧ (∀ v, p_bio p = Some v → p_bio q = Some v)
    ∧ (∀ v, p_hobbies p = Some v → p_hobbies q = Some v)
    ∧ (∀ v, p_relationship_preference p = Some v → p_relationship_preference q = Some v)
    ∧ (∀ v, p_profile_pic_url p = Some v → p_profile_pic_url q = Some v)
    ∧ (∀ v, p_profile_pic p = Some v → p_profile_pic q = Some v)
    ∧ (∀ v, p_target_universities p = Some v → p_target_universities q = Some v).
Proof.
  intros Hp Hfk.
  destruct (save_user_profile_durable s u p Hp) as (s1 & Hsave & Hdb).
  destruct (get_user_profile_read_through (fresh_process (db s1)) u) as (s2 & Hget);
    [apply lookup_empty|].
  change (db (fresh_process (db s1))) with (db s1) in Hget.
  destruct (user_by_telegram_id u (db s)) as [row|] eqn:Eu.
  - (* the row exists and is updated *)
    assert (user_by_telegram_id u (db s1) = Some (updated_user_row row p)) as Hrow.
    { rewrite Hdb. destruct (p_target_universities p);
        by apply user_by_telegram_id_updated. }
    rewrite Hrow in Hget. simpl in Hget.
    eexists s1, _, s2. split; [done|]. split; [exact Hget|]. simpl.
    do 3 (split; [done|]).
    repeat (split; [by intros v ->|]).
    intros v Hv. rewrite Hdb, Hv. f_equal.
    by rewrite target_rows_of_new, target_rows_of_deleted.
  - (* a new row is created *)
    set (k := fresh_id (u_id <$> t_users (db s))) in *.
    assert (user_by_telegram_id u (db s1) = Some (new_user_row k u p)) as Hrow.
    { rewrite Hdb. by apply user_by_telegram_id_appended. }
    rewrite Hrow in Hget. simpl in Hget.
    eexists s1, _, s2. split; [done|]. split; [exact Hget|]. simpl.
    do 3 (split; [done|]).
    repeat (split; [by intros v ->|]).
    intros v Hv. rewrite Hdb, Hv. f_equal. simpl.
    rewrite target_rows_of_new, target_rows_of_with_users, target_rows_of_orphan; [done|].
    intros t Ht Hk. apply (fresh_id_fresh (u_id <$> t_users (db s))).
    fold k. rewrite <- Hk. by apply Hfk.
Qed.

(** X19 for a registration that stopped after the target universities. *)
Lemma saved_profile_survives_restart_witness :
  ∃ s1 q s2,
    run (save_user_profile 301 profile_registering) no_faults store_registering
    = (Ok tt, s1)
    ∧ run (get_user_profile 301) no_faults (fresh_process (db s1)) = (Ok (Some q), s2)
    ∧ is_complete q = true
    ∧ p_username q = Some "" ∧ p_telegram_id q = None
    ∧ (∀ v, p_name profile_registering = Some v → p_name q = Some v)
    ∧ (∀ v, p_age profile_registering = Some v → p_age q = Some v)
    ∧ (∀ v, p_gender profile_registering = Some v → p_gender q = Some v)
    ∧ (∀ v, p_university profile_registering = Some v → p_university q = Some v)
    ∧ (∀ v, p_bio profile_registering = Some v → p_bio q = Some v)
    ∧ (∀ v, p_hobbies profile_registering = Some v → p_hobbies q = Some v)
    ∧ (∀ v, p_relationship_preference profile_registering = Some v →
            p_relationship_preference q = Some v)
    ∧ (∀ v, p_profile_pic_url profile_registering = Some v → p_profile_pic_url q = Some v)
    ∧ (∀ v, p_profile_pic profile_registering = Some v → p_profile_pic q = Some v)
    ∧ (∀ v, p_target_universities profile_registering = Some v →
            p_target_universities q = Some v).
Proof.
  apply (saved_profile_survives_restart store_registering 301 profile_registering).
  - reflexivity.
  - intros t Ht. by apply elem_of_nil in Ht.
Defined.

(** ** The [users] table under the write operations *)

Lemma add_target_rows_users k unis : ∀ faults s,
  t_users (session (run (add_target_rows k unis) faults s).2) = t_users (session s)
  ∧ db (run (add_target_rows k unis) faults s).2 = db s.
Proof.
  unfold add_target_rows.
  set (f := λ uni, statement (with_target_universities
                                (λ t, (t ++ [mkTargetUniversity k uni])%list))).
  induction unis as [|uni unis IH]; intros faults s; [done|].
  change (for_each (uni :: unis) f) with (f uni ;;; for_each unis f).
  rewrite run_bind.
  assert (run (f uni) faults s
          = if faults (clock s) then (Raised, set_clock (S (clock s)) s)
            else (Ok tt, set_session
                           (with_target_universities
                              (λ t, (t ++ [mkTargetUniversity k uni])%list))
                           (set_clock (S (clock s)) s))) as ->.
  { unfold f. unfold_monad_goal. by destruct (faults (clock s)). }
  destruct (faults (clock s)); simpl; [done|].
  match goal with
  | |- context [run (for_each unis f) faults ?st] =>
      destruct (IH faults st) as [H1 H2]
  end.
  by rewrite H1, H2.
Qed.

(** What a save does to the [users] table, for every pattern of failures:
    nothing, or one new row for an identity that had none, or an update in
    place of the row of the identity. *)
Lemma save_user_profile_users faults s u p :
  ∃ s', run (save_user_profile u p) faults s = (Ok tt, s')
        ∧ (t_users (db s') = t_users (db s)
           ∨ (user_by_telegram_id u (db s) = None
              ∧ t_users (db s')
                = (t_users (db s)
                     ++ [new_user_row (fresh_id (u_id <$> t_users (db s))) u p])%list)
           ∨ (∃ row, user_by_telegram_id u (db s) = Some row
                ∧ t_users (db s')
                  = (λ r, if bool_decide (u_id r = u_id row)
                          then updated_user_row r p else r) <$> t_users (db s))).
Proof.
  unfold save_user_profile. unfold_monad_goal. simpl.
  destruct (dict_is_empty p); [eexists; split; [reflexivity|]; by left|].
  repeat (case_match; simpl in *; simplify_eq/=).
  all: repeat match goal with
       | H : add_target_rows ?k ?l ?f ?st = (_, _) |- _ =>
           let Hx := fresh "Hx" in
           pose proof (add_target_rows_users k l f st) as Hx;
           unfold run in Hx; rewrite H in Hx; simpl in Hx;
           destruct Hx as [? ?]; clear H
       end.
  all: eexists; (split; [reflexivity|]); simpl.
  all: first [ by left
             | left; congruence
             | right; left; split; [done|]; congruence
             | right; right; eexists; split; [done|]; congruence ].
Qed.

Lemma add_secret_crush_users faults s u c name social photo :
  t_users (db (run (add_secret_crush u c name social photo) faults s).2)
  = t_users (db s).
Proof. unfold add_secret_crush. exec; done. Qed.

Lemma add_chat_message_users faults s now a b text :
  t_users (db (run (add_chat_message now a b text) faults s).2) = t_users (db s).
Proof. unfold add_chat_message. exec; done. Qed.

Lemma report_user_to_db_users faults s u r reason :
  t_users (db (run (report_user_to_db u r reason) faults s).2) = t_users (db s).
Proof. unfold report_user_to_db. exec; done. Qed.

(** Every write operation other than a save leaves the [users] table as it
    is. *)
Lemma perform_users faults s op :
  ∃ s', run (perform op) faults s = (Ok tt, s')
        ∧ (t_users (db s') = t_users (db s)
           ∨ ∃ u p, op = SaveProfile u p
               ∧ ((user_by_telegram_id u (db s) = None
                   ∧ t_users (db s')
                     = (t_users (db s)
                          ++ [new_user_row (fresh_id (u_id <$> t_users (db s))) u p])%list)
                  ∨ (∃ row, user_by_telegram_id u (db s) = Some row
                       ∧ t_users (db s')
                         = (λ r, if bool_decide (u_id r = u_id row)
                                 then updated_user_row r p else r)
                             <$> t_users (db s)))).
Proof.
  destruct op as [u p|u m|u t [|]|u c|u n a p|now a b text|u b|u r reason|u t];
    cbn [perform].
  - destruct (save_user_profile_users faults s u p) as (s' & Hrun & [H|H]).
    + exists s'. split; [done|]. by left.
    + exists s'. split; [done|]. right. by exists u, p.
  - eexists. split; [reflexivity|]. by left.
  - destruct (process_like_spec faults s u t) as (v & s' & Hrun & _ & _ & _ & _ & Hu & _).
    exists s'. split; [by rewrite run_bind, Hrun|]. by left.
  - exists s. split; [reflexivity|]. by left.
  - pose proof (add_secret_crush_users faults s u (Some c) None None None) as Hu.
    destruct (add_crush_memory faults s u c None None None) as (v & s' & Hrun & _).
    rewrite Hrun in Hu. exists s'. split; [by rewrite run_bind, Hrun|]. by left.
  - pose proof (add_secret_crush_users faults s u None n a p) as Hu.
    destruct (add_external_crush_returns faults s u n a p) as (v & s' & Hrun & _).
    rewrite Hrun in Hu. exists s'. split; [by rewrite run_bind, Hrun|]. by left.
  - pose proof (add_chat_message_users faults s now a b text) as Hu.
    destruct (chat_memory faults s now a b text) as (s' & Hrun & _).
    rewrite Hrun in Hu. exists s'. split; [done|]. by left.
  - destruct (block_spec faults s u b) as (s' & Hrun & _ & _ & _ & _ & _ & Hu).
    exists s'. split; [done|]. by left.
  - pose proof (report_user_to_db_users faults s u r reason) as Hu.
    destruct (report_memory faults s u r reason) as (s' & Hrun & _).
    rewrite Hrun in Hu. exists s'. split; [done|]. by left.
  - destruct (unmatch_spec faults s u t) as (s' & Hrun & _ & _ & _ & _ & _ & Hu & _).
    exists s'. split; [done|]. by left.
Qed.

Lemma user_by_telegram_id_users k d d' :
  t_users d' = t_users d → user_by_telegram_id k d' = user_by_telegram_id k d.
Proof. unfold user_by_telegram_id. by intros ->. Qed.

(** X20. The write operations keep the [users] table sound, whatever the
    durable store does: no operation removes the row of a telegram
    identity, and when telegram identities and keys are unique in the table
    they are still unique afterwards ([save_user_profile], the only
    operation that writes to the table, adds a row only for an identity
    that has none, under a key larger than every key in use). *)
Theorem writes_keep_users_table_sound (faults : nat → bool) (s : store) (op : write_op) :
  NoDup (u_telegram_id <$> t_users (db s)) →
  NoDup (u_id <$> t_users (db s)) →
  ∃ s',
    run (perform op) faults s = (Ok tt, s')
    ∧ NoDup (u_telegram_id <$> t_users (db s'))
    ∧ NoDup (u_id <$> t_users (db s'))
    ∧ (∀ k, is_Some (user_by_telegram_id k (db s)) →
            is_Some (user_by_telegram_id k (db s'))).
Proof.
  intros Htid Hid.
  destruct (perform_users faults s op)
    as (s' & Hrun & [Hu|(u & p & -> & [[Hnone Hu]|(row & Hrow & Hu)])]);
    exists s'; (split; [done|]).
  - rewrite Hu. do 2 (split; [done|]).
    intros k. by rewrite (user_by_telegram_id_users k (db s) (db s')).
  - rewrite Hu, !fmap_app. simpl. split; [|split].
    + apply NoDup_app. split; [done|]. split; [|apply NoDup_singleton].
      intros x Hx ->%list_elem_of_singleton.
      apply list_elem_of_fmap in Hx as (r & Hr & Hin).
      by eapply user_by_telegram_id_None in Hnone.
    + apply NoDup_app. split; [done|]. split; [|apply NoDup_singleton].
      intros x Hx ->%list_elem_of_singleton. by apply fresh_id_fresh in Hx.
    + intros k [r Hr]. unfold user_by_telegram_id in *.
      rewrite Hu, find_app_first, Hr. eauto.
  - assert (∀ (g : User → Z), (∀ r, g (updated_user_row r p) = g r) →
            g <$> t_users (db s') = g <$> t_users (db s)) as Hsame.
    { intros g Hg. rewrite Hu, <- list_fmap_compose. apply list_fmap_ext.
      intros i r _. simpl. by destruct (bool_decide (u_id r = u_id row)). }
    rewrite !Hsame by done. do 2 (split; [done|]).
    intros k [r Hr]. unfold user_by_telegram_id in *. rewrite Hu.
    rewrite find_fmap_stable
      by (intros x; by destruct (bool_decide (u_id x = u_id row))).
    rewrite Hr. eauto.
Qed.

(** X20 for Abel, who saves a profile in the store where he has a row. *)
Lemma writes_keep_users_table_sound_witness :
  ∃ s',
    run (perform (SaveProfile 101 profile_abel)) no_faults store_matched = (Ok tt, s')
    ∧ NoDup (u_telegram_id <$> t_users (db s'))
    ∧ NoDup (u_id <$> t_users (db s'))
    ∧ (∀ k, is_Some (user_by_telegram_id k (db store_matched)) →
            is_Some (user_by_telegram_id k (db s'))).
Proof.
  apply (writes_keep_users_table_sound no_faults store_matched
           (SaveProfile 101 profile_abel)).
  - simpl. apply NoDup_cons. split; [set_solver|]. apply NoDup_singleton.
  - simpl. apply NoDup_cons. split; [set_solver|]. apply NoDup_singleton.
Defined.

(** ** The registration conversation *)

Lemma get_user_profile_hit faults s u up :
  user_profiles s !! u = Some up →
  run (get_user_profile u) faults s = (Ok (Some up), s).
Proof.
  intros Hup.
  destruct (get_user_profile_spec faults s u) as (r & s' & Hrun & _ & _ & _ & _ & _ & _ & H).
  destruct (H up Hup) as [-> ->]. done.
Qed.

Lemma save_user_profile_lookup faults s u p :
  ∃ s', run (save_user_profile u p) faults s = (Ok tt, s')
        ∧ user_profiles s' !! u = Some p.
Proof.
  destruct (save_user_profile_spec faults s u p) as (s' & Hrun & Hm).
  exists s'. split; [done|].
  apply memory_fields in Hm as (-> & _). simpl. apply lookup_insert_eq.
Qed.

(** X21. The university step starts the target selection from nothing:
    with a profile in memory and an index of the list, [handle_university]
    stores the university and an empty list of target universities, whatever
    was selected before, and moves to the target step, where ["done"] then
    does not advance; an index outside the list raises before anything is
    read or changed. *)
Theorem university_step_resets_targets
    (faults : nat → bool) (s : store) (u : Z) (up : profile) :
  user_profiles s !! u = Some up →
  (∀ i uni, py_index get_university_list i = Some uni →
     ∃ s1,
       run (handle_university u i) faults s = (Ok TARGET_UNIVERSITIES, s1)
       ∧ user_profiles s1 !! u
         = Some (set_target_universities [] (set_university uni up))
       ∧ run (handle_target_universities u target_done) faults s1
         = (Ok TARGET_UNIVERSITIES, s1))
  ∧ (∀ i, py_index get_university_list i = None →
       run (handle_university u i) faults s = (Raised, s)).
Proof.
  intros Hup. split.
  - intros i uni Hi. unfold handle_university. rewrite Hi.
    rewrite run_bind, (get_user_profile_hit faults s u up Hup).
    destruct (save_user_profile_lookup faults s u (set_university uni up))
      as (s1 & Hrun1 & _).
    rewrite run_bind, Hrun1.
    destruct (save_user_profile_lookup faults s1 u
                (set_target_universities [] (set_university uni up)))
      as (s2 & Hrun2 & Hup2).
    rewrite run_bind, Hrun2. exists s2. split; [done|]. split; [done|].
    unfold handle_target_universities.
    by rewrite run_bind, (get_user_profile_hit faults s2 u _ Hup2).
  - intros i Hi. unfold handle_university. by rewrite Hi.
Qed.

(** X21 for the user in the middle of registration. *)
Lemma university_step_resets_targets_witness :
  (∀ i uni, py_index get_university_list i = Some uni →
     ∃ s1,
       run (handle_university 301 i) all_faults store_registering
       = (Ok TARGET_UNIVERSITIES, s1)
       ∧ user_profiles s1 !! 301
         = Some (set_target_universities [] (set_university uni profile_registering))
       ∧ run (handle_target_universities 301 target_done) all_faults s1
         = (Ok TARGET_UNIVERSITIES, s1))
  ∧ (∀ i, py_index get_university_list i = None →
       run (handle_university 301 i) all_faults store_registering
       = (Raised, store_registering)).
Proof.
  apply (university_step_resets_targets all_faults store_registering 301
           profile_registering).
  reflexivity.
Defined.

Lemma dict_is_empty_complete up : is_complete up = true → dict_is_empty up = false.
Proof. destruct up as [[] [] [] [] [] [] [] [] [] [] [] [] []]; done. Qed.

(** X22. The last step completes the registration: for a profile in memory
    that is not marked complete [check_if_registered] answers [False]; after
    [handle_relationship_preference] with an index of the list, whatever the
    durable store does, the profile holds the preference and the mark, and
    [check_if_registered] answers [True]; an index outside the list raises
    before anything is read or changed. *)
Theorem last_step_completes_registration
    (faults : nat → bool) (s : store) (u : Z) (up : profile) :
  user_profiles s !! u = Some up →
  (is_complete up = false → run (check_if_registered u) faults s = (Ok false, s))
  ∧ (∀ i rel, py_index RELATIONSHIP_TYPES i = Some rel →
       ∃ s1,
         run (handle_relationship_preference u i) faults s = (Ok COMPLETED, s1)
         ∧ user_profiles s1 !! u = Some (set_relationship_complete rel up)
         ∧ run (check_if_registered u) faults s1 = (Ok true, s1))
  ∧ (∀ i, py_index RELATIONSHIP_TYPES i = None →
       run (handle_relationship_preference u i) faults s = (Raised, s)).
Proof.
  intros Hup. split; [|split].
  - intros Hinc. unfold check_if_registered.
    rewrite run_bind, (get_user_profile_hit faults s u up Hup). simpl.
    by rewrite Hinc, orb_true_r.
  - intros i rel Hi. unfold handle_relationship_preference. rewrite Hi.
    rewrite run_bind, (get_user_profile_hit faults s u up Hup).
    destruct (save_user_profile_lookup faults s u (set_relationship_complete rel up))
      as (s1 & Hrun1 & Hup1).
    rewrite run_bind, Hrun1. exists s1. split; [done|]. split; [done|].
    unfold check_if_registered.
    rewrite run_bind, (get_user_profile_hit faults s1 u _ Hup1).
    by destruct up as [[] [] [] [] [] [] [] [] [] [] [] [] []].
  - intros i Hi. unfold handle_relationship_preference. by rewrite Hi.
Qed.

(** X22 for the user in the middle of registration. *)
Lemma last_step_completes_registration_witness :
  (is_complete profile_registering = false →
   run (check_if_registered 301) all_faults store_registering
   = (Ok false, store_registering))
  ∧ (∀ i rel, py_index RELATIONSHIP_TYPES i = Some rel →
       ∃ s1,
         run (handle_relationship_preference 301 i) all_faults store_registering
         = (Ok COMPLETED, s1)
         ∧ user_profiles s1 !! 301
           = Some (set_relationship_complete rel profile_registering)
         ∧ run (check_if_registered 301) all_faults s1 = (Ok true, s1))
  ∧ (∀ i, py_index RELATIONSHIP_TYPES i = None →
       run (handle_relationship_preference 301 i) all_faults store_registering
       = (Raised, store_registering)).
Proof.
  apply (last_step_completes_registration all_faults store_registering 301
           profile_registering).
  reflexivity.
Defined.

(** X23. [/register] never resets a complete profile: for a profile in
    memory that is marked complete, [register_command] ends the
    conversation, whatever the durable store does, and leaves the profile as
    it is except that a non-empty username of the caller is recorded. *)
Theorem register_command_keeps_complete_profile
    (faults : nat → bool) (s : store) (u : Z) (username : option string) (up : profile) :
  user_profiles s !! u = Some up →
  is_complete up = true →
  ∃ s1 up',
    run (register_command u username) faults s = (Ok None, s1)
    ∧ user_profiles s1 !! u = Some up'
    ∧ is_complete up' = true
    ∧ (up' = up ∨ ∃ n, username = Some n ∧ n ≠ "" ∧ up' = set_username n up).
Proof.
  intros Hup Hc. unfold register_command.
  rewrite run_bind, (get_user_profile_hit faults s u up Hup).
  rewrite (dict_is_empty_complete up Hc).
  set (up' := match username with Some n => _ | None => up end).
  assert (is_complete up' = true
          ∧ (up' = up ∨ ∃ n, username = Some n ∧ n ≠ "" ∧ up' = set_username n up))
    as [Hc' Hshape].
  { unfold up'. destruct username as [n|]; [|by auto].
    destruct (decide (n = "")) as [->|Hn].
    - rewrite bool_decide_eq_true_2 by done. simpl. auto.
    - rewrite (bool_decide_eq_false_2 (n = "")) by done. simpl.
      destruct (bool_decide (p_username up = None) || _); [|by auto].
      split; [done|]. right. by exists n. }
  destruct (save_user_profile_lookup faults s u up') as (s1 & Hrun1 & Hup1).
  rewrite run_bind, Hrun1. rewrite Hc', (dict_is_empty_complete up' Hc'). simpl.
  by exists s1, up'.
Qed.

(** X23 for Abel. *)
Lemma register_command_keeps_complete_profile_witness :
  ∃ s1 up',
    run (register_command 101 (Some "abel_a")) all_faults store_two_profiles
    = (Ok None, s1)
    ∧ user_profiles s1 !! 101 = Some up'
    ∧ is_complete up' = true
    ∧ (up' = profile_abel
       ∨ ∃ n, Some "abel_a" = Some n ∧ n ≠ "" ∧ up' = set_username n profile_abel).
Proof.
  apply (register_command_keeps_complete_profile all_faults store_two_profiles 101
           (Some "abel_a") profile_abel); reflexivity.
Defined.

Lemma get_user_profile_unknown s u :
  user_profiles s !! u = None → user_by_telegram_id u (db s) = None →
  ∃ s', run (get_user_profile u) no_faults s = (Ok None, s')
        ∧ memory s' = memory s ∧ db s' = db s.
Proof.
  intros Hmiss Hrow. unfold get_user_profile. unfold_monad_goal. rewrite Hmiss.
  unfold no_faults. simpl. rewrite Hrow. eexists. split; [reflexivity|]. done.
Qed.

(** X24. A registration that was only started counts as complete after a
    restart.  When no interaction fails, [/register] by a user unknown to
    memory and to the table creates the row and asks for the name, and
    [check_if_registered] answers [False] in the running process; in a
    process started afterwards on the resulting database it answers [True],
    and [/register] ends the conversation at once, because a profile read
    from the table is marked complete. *)
Theorem started_registration_is_complete_after_restart
    (s : store) (u : Z) (username : option string) :
  user_profiles s !! u = None →
  user_by_telegram_id u (db s) = None →
  ∃ s1 s2 s3,
    run (register_command u username) no_faults s = (Ok (Some NAME), s1)
    ∧ is_Some (user_by_telegram_id u (db s1))
    ∧ run (check_if_registered u) no_faults s1 = (Ok false, s1)
    ∧ run (check_if_registered u) no_faults (fresh_process (db s1)) = (Ok true, s2)
    ∧ run (register_command u username) no_faults (fresh_process (db s1))
      = (Ok None, s3).
Proof.
  intros Hmiss Hrow.
  set (new_profile := mkProfile (Some u) (Some (default "" username))
                        None None None None None None None None None None None).
  destruct (get_user_profile_unknown s u Hmiss Hrow) as (s0 & Hget & Hm0 & Hd0).
  destruct (save_user_profile_durable s0 u new_profile eq_refl) as (s1 & Hsave & Hdb).
  destruct (save_user_profile_lookup no_faults s0 u new_profile) as (s1' & Hsave' & Hup1).
  rewrite Hsave in Hsave'. injection Hsave' as <-.
  rewrite Hd0, Hrow in Hdb. simpl in Hdb.
  set (k := fresh_id (u_id <$> t_users (db s))) in *.
  assert (user_by_telegram_id u (db s1) = Some (new_user_row k u new_profile)) as Hrow1.
  { rewrite Hdb. by apply user_by_telegram_id_appended. }
  destruct (get_user_profile_read_through (fresh_process (db s1)) u) as (s2 & Hget2);
    [apply lookup_empty|].
  change (db (fresh_process (db s1))) with (db s1) in Hget2.
  rewrite Hrow1 in Hget2. simpl in Hget2.
  set (q := profile_of_user _ _) in Hget2.
  set (q' := match username with
             | Some n =>
                 if negb (bool_decide (n = ""))
                    && (bool_decide (p_username q = None)
                        || negb (bool_decide (p_username q = Some n)))
                 then set_username n q else q
             | None => q
             end).
  assert (is_complete q' = true) as Hq'.
  { unfold q'. destruct username as [n|]; [|done].
    by destruct (negb (bool_decide (n = "")) && _). }
  destruct (save_user_profile_lookup no_faults s2 u q') as (s3 & Hsave3 & _).
  exists s1, s2, s3. split; [|split; [|split; [|split]]].
  - unfold register_command. rewrite run_bind, Hget. cbn beta zeta iota.
    fold new_profile. by rewrite run_bind, Hsave.
  - by rewrite Hrow1.
  - unfold check_if_registered.
    by rewrite run_bind, (get_user_profile_hit no_faults s1 u _ Hup1).
  - unfold check_if_registered. by rewrite run_bind, Hget2.
  - unfold register_command. rewrite run_bind, Hget2. cbn beta zeta iota.
    change (dict_is_empty q) with false. cbn iota. fold q'.
    rewrite run_bind, Hsave3. by rewrite Hq', (dict_is_empty_complete q' Hq').
Qed.

(** X24 for a new user of the store of Abel and Bethel. *)
Lemma started_registration_is_complete_after_restart_witness :
  ∃ s1 s2 s3,
    run (register_command 555 (Some "eden")) no_faults store_matched
    = (Ok (Some NAME), s1)
    ∧ is_Some (user_by_telegram_id 555 (db s1))
    ∧ run (check_if_registered 555) no_faults s1 = (Ok false, s1)
    ∧ run (check_if_registered 555) no_faults (fresh_process (db s1)) = (Ok true, s2)
    ∧ run (register_command 555 (Some "eden")) no_faults (fresh_process (db s1))
      = (Ok None, s3).
Proof.
  apply (started_registration_is_complete_after_restart store_matched 555 (Some "eden"));
    reflexivity.
Defined.

(** ** The edit menu and the reports *)

Lemma university_accepts_singleton t v :
  t ≠ "All" → university_accepts [t] v = true → v = Some t.
Proof.
  intros Ht. unfold university_accepts, py_in.
  rewrite bool_decide_eq_false_2 by (intros ?%list_elem_of_singleton; done). simpl.
  destruct v as [x|]; [|done].
  by intros ->%bool_decide_eq_true%list_elem_of_singleton.
Qed.

(** X25. Choosing "All Universities" in the edit menu leaves the user
    without candidates from any listed university: [handle_callback_query]
    stores the target list [["All Universities"]], while the filter of
    [get_potential_matches] looks for ["All"], so afterwards every candidate
    has a university that is literally "All Universities", which is not in
    the list of universities.  Choosing all universities during
    registration stores [["All"]], which accepts every university. *)
Theorem edit_menu_all_universities_matches_nobody
    (faults : nat → bool) (rnd : nat → nat) (s : store) (u : Z) (up : profile) :
  user_profiles s !! u = Some up →
  dict_is_empty up = false →
  (∃ s1,
     run (handle_callback_query u target_uni_all) faults s = (Ok tt, s1)
     ∧ user_profiles s1 !! u = Some (set_target_universities ["All Universities"] up)
     ∧ (∀ x px, x ∈ candidates rnd faults s1 u → user_profiles s1 !! x = Some px →
                p_university px = Some "All Universities"
                ∧ p_university px ∉ (Some <$> get_university_list)))
  ∧ (∃ s2 up2,
       run (handle_target_universities u target_all) faults s = (Ok HOBBIES, s2)
       ∧ user_profiles s2 !! u = Some up2
       ∧ ∀ v, university_accepts (get_targets up2) v = true).
Proof.
  intros Hup Hne. split.
  - unfold handle_callback_query.
    rewrite run_bind, (get_user_profile_hit faults s u up Hup). cbn beta iota.
    rewrite Hne.
    destruct (save_user_profile_lookup faults s u
                (set_target_universities ["All Universities"] up))
      as (s1 & Hrun & Hup1).
    exists s1. do 2 (split; [done|]).
    intros x px Hx Hpx.
    apply candidates_spec in Hx as (up' & px' & Hget & _ & Hpx' & Hpm).
    rewrite (get_user_profile_hit faults s1 u _ Hup1) in Hget. injection Hget as <-.
    rewrite Hpx in Hpx'. injection Hpx' as <-.
    apply is_potential_match_true in Hpm as (_ & _ & _ & _ & Hacc).
    rewrite get_targets_set in Hacc.
    apply university_accepts_singleton in Hacc as ->; [|done].
    split; [done|]. vm_compute. set_solver.
  - unfold handle_target_universities.
    rewrite run_bind, (get_user_profile_hit faults s u up Hup).
    destruct (save_user_profile_lookup faults s u (set_target_universities ["All"] up))
      as (s2 & Hrun & Hup2).
    rewrite run_bind, Hrun. exists s2, (set_target_universities ["All"] up).
    do 2 (split; [done|]). intros v. by rewrite get_targets_set.
Qed.

(** X25 for Abel. *)
Lemma edit_menu_all_universities_matches_nobody_witness :
  (∃ s1,
     run (handle_callback_query 101 target_uni_all) all_faults store_two_profiles
     = (Ok tt, s1)
     ∧ user_profiles s1 !! 101
       = Some (set_target_universities ["All Universities"] profile_abel)
     ∧ (∀ x px, x ∈ candidates (λ _, 0%nat) all_faults s1 101 →
                user_profiles s1 !! x = Some px →
                p_university px = Some "All Universities"
                ∧ p_university px ∉ (Some <$> get_university_list)))
  ∧ (∃ s2 up2,
       run (handle_target_universities 101 target_all) all_faults store_two_profiles
       = (Ok HOBBIES, s2)
       ∧ user_profiles s2 !! 101 = Some up2
       ∧ ∀ v, university_accepts (get_targets up2) v = true).
Proof.
  apply (edit_menu_all_universities_matches_nobody all_faults (λ _, 0%nat)
           store_two_profiles 101 profile_abel); reflexivity.
Defined.

(** X26. A report changes nothing for matching: whatever the durable store
    does, [report_user_to_db(A,B)] appends B to the reports of A and leaves
    likes, blocks and matches as they are, so every requester with a profile
    in memory is offered exactly the same candidates as before; in
    particular the reported user is neither hidden nor unmatched. *)
Theorem report_changes_nothing_for_matching
    (faults : nat → bool) (rnd : nat → nat) (s : store) (a b : Z)
    (reason : option string) (r : Z) (rp : profile) :
  user_profiles s !! r = Some rp →
  ∃ s',
    run (report_user_to_db a b reason) faults s = (Ok tt, s')
    ∧ reports s' !! a = Some (default [] (reports s !! a) ++ [b])%list
    ∧ likes s' = likes s ∧ blocks s' = blocks s ∧ matches s' = matches s
    ∧ ∀ x, x ∈ candidates rnd faults s' r ↔ x ∈ candidates rnd faults s r.
Proof.
  intros Hr.
  destruct (report_memory faults s a b reason) as (s' & Hrun & Hm).
  apply memory_fields in Hm as (Hp & Hma & Hl & Hb & Hrep & _). simpl in *.
  exists s'. split; [done|].
  split; [by rewrite Hrep, lookup_insert_eq|]. do 3 (split; [done|]).
  intros x. rewrite !candidates_spec.
  rewrite (get_user_profile_hit faults s r rp Hr).
  rewrite (get_user_profile_hit faults s' r rp) by (by rewrite Hp).
  by rewrite Hp, (excluded_users_frame r s s').
Qed.

(** X26 for Abel, who reports Bethel. *)
Lemma report_changes_nothing_for_matching_witness :
  ∃ s',
    run (report_user_to_db 101 102 None) all_faults store_two_profiles = (Ok tt, s')
    ∧ reports s' !! 101
      = Some (default [] (reports store_two_profiles !! 101) ++ [102])%list
    ∧ likes s' = likes store_two_profiles ∧ blocks s' = blocks store_two_profiles
    ∧ matches s' = matches store_two_profiles
    ∧ ∀ x, x ∈ candidates (λ _, 0%nat) all_faults s' 101
           ↔ x ∈ candidates (λ _, 0%nat) all_faults store_two_profiles 101.
Proof.
  apply (report_changes_nothing_for_matching all_faults (λ _, 0%nat)
           store_two_profiles 101 102 None 101 profile_abel).
  reflexivity.
Defined.
